(** * pocdb: the per-key Paxos write pipeline of [pocdb.cc]

    A shallow embedding of the daemon of [src/pocdb.cc]: the message
    handlers [process_*], the acceptor helpers [get_acceptor_state] and
    [save_acceptor_state], and the proposer [write_state_machine] with its
    driver [work_state_machine].

    Conventions.
    - [uint64_t] is [N]; the only arithmetic the daemon performs on it is
      [++version], written out with its wrap-around ([incr64]).
    - [std::string] and [e::slice] are byte strings, [list ascii].
    - The daemon object ([pocdaemon]) is threaded explicitly.  It carries the
      LevelDB handle, the table of write state machines, the messages handed
      to BusyBee so far, and the wall clock.
    - Code whose behaviour is undefined in C++ (reading [front()] of an empty
      [std::list], reading eight bytes before the start of a buffer, packing
      an [e::slice] whose buffer has been deleted) yields [Undefined]. *)

From Stdlib Require Import NArith Ascii String List Lia Bool.
From stdpp Require Import base option list gmap strings.

Local Open Scope N_scope.

(** ** Byte strings *)

Abbreviation bytes := (list ascii).

(** A literal [std::string]. *)
Definition str (s : string) : bytes := list_ascii_of_string s.

(** [std::string::operator==]. *)
Definition bytes_eqb (x y : bytes) : bool := bool_decide (x = y).

(** ** Results of running daemon code *)

Inductive result (A : Type) : Type :=
  | Ok (a : A)
  | Undefined      (* the C++ code has undefined behaviour here *)
  | OutOfFuel.     (* the re-entry budget of the model is exhausted *)
Arguments Ok {A} a.
Arguments Undefined {A}.
Arguments OutOfFuel {A}.

Definition rbind {A B} (r : result A) (f : A -> result B) : result B :=
  match r with
  | Ok a => f a
  | Undefined => Undefined
  | OutOfFuel => OutOfFuel
  end.

Notation "'do' x <- r ; k" := (rbind r (fun x => k))
  (at level 10, x pattern, r at level 100, k at level 200).

(** ** Integers on the wire and in memory *)

Definition incr64 (n : N) : N := (n + 1) mod 2 ^ 64.

(** The [w] low-order bytes of [n], least significant first. *)
Fixpoint le_bytes (w : nat) (n : N) : bytes :=
  match w with
  | O => []
  | S w' => ascii_of_N (n mod 256) :: le_bytes w' (n / 256)
  end.

Fixpoint le_value (l : bytes) : N :=
  match l with
  | [] => 0
  | c :: l' => N_of_ascii c + 256 * le_value l'
  end.

Definition be_bytes (w : nat) (n : N) : bytes := rev (le_bytes w n).
Definition be_value (l : bytes) : N := le_value (rev l).

(** [(const char* )&ver, sizeof(ver)] and [*(uint64_t* )p]: the in-memory
    representation of a [uint64_t], little-endian on the hosts pocdb is
    built for. *)
Definition native64 (n : N) : bytes := le_bytes 8 n.
Definition read_native64 (l : bytes) : N := le_value l.

(** ** e::packer and e::unpacker *)

(** Modelled from the spec: [e::packer] (libe is not part of the repository).
    Spec section 6: all multi-byte integers are big-endian 64-bit unsigned,
    byte-string fields are length-prefixed by a 32-bit big-endian size
    followed by the raw bytes. *)
Definition pack_uint8 (n : N) : bytes := be_bytes 1 n.
Definition pack_uint64 (n : N) : bytes := be_bytes 8 n.
Definition pack_slice (s : bytes) : bytes :=
  be_bytes 4 (N.of_nat (length s)) ++ s.

(** Modelled from the spec: [e::unpacker] (libe is not part of the
    repository).  An unpacker is the bytes that remain and a sticky error
    flag; extracting from a failed or too short unpacker sets the flag and
    yields a default value. *)
Record unpacker := { remain : bytes; failed : bool }.

Definition unpacker_of (m : bytes) : unpacker := {| remain := m; failed := false |}.
Definition error (up : unpacker) : bool := failed up.

Definition unpack_raw (n : nat) (up : unpacker) : bytes * unpacker :=
  if failed up || (length (remain up) <? n)%nat
  then ([], {| remain := remain up; failed := true |})
  else (take n (remain up), {| remain := drop n (remain up); failed := false |}).

Definition unpack_uint8 (up : unpacker) : N * unpacker :=
  let '(raw, up) := unpack_raw 1 up in (be_value raw, up).

Definition unpack_uint64 (up : unpacker) : N * unpacker :=
  let '(raw, up) := unpack_raw 8 up in (be_value raw, up).

Definition unpack_slice (up : unpacker) : bytes * unpacker :=
  let '(raw, up) := unpack_raw 4 up in
  unpack_raw (N.to_nat (be_value raw)) up.

(** ** Return codes ([pocdb.h]) *)

Inductive pocdb_returncode :=
  | POCDB_SUCCESS
  | POCDB_NOT_FOUND
  | POCDB_SEE_ERRNO
  | POCDB_SERVER_ERROR
  | POCDB_INTERNAL
  | POCDB_GARBAGE.

Definition returncode_value (rc : pocdb_returncode) : N :=
  match rc with
  | POCDB_SUCCESS => 0
  | POCDB_NOT_FOUND => 1
  | POCDB_SEE_ERRNO => 2
  | POCDB_SERVER_ERROR => 3
  | POCDB_INTERNAL => 4
  | POCDB_GARBAGE => 5
  end.

Definition returncode_eqb (x y : pocdb_returncode) : bool :=
  returncode_value x =? returncode_value y.

(** [e::pack_uint8<pocdb_returncode>(rc)]. *)
Definition pack_returncode (rc : pocdb_returncode) : bytes :=
  pack_uint8 (returncode_value rc).

(** ** Cluster topology ([common.h]) *)

Definition HOSTA : N := N.shiftl 0xdeadbeef 32.
Definition HOSTB : N := N.shiftl 0xbad1deaf 32.
Definition HOSTC : N := N.shiftl 0x1eaff00d 32.
Definition HOSTD : N := N.shiftl 0xdefec8ed 32.
Definition HOSTE : N := N.shiftl 0xcafebabe 32.
Definition NUM_HOSTS : nat := 5.
Definition QUORUM : nat := (NUM_HOSTS / 2 + 1)%nat.
Definition HOSTS : list N := [HOSTA; HOSTB; HOSTC; HOSTD; HOSTE].

(** ** Ballots and pvalues *)

Record ballot := { number : N; leader : N }.

(** [ballot()]: value-initialised, the sentinel. *)
Definition ballot0 : ballot := {| number := 0; leader := 0 |}.

Definition ballot_lt (x y : ballot) : bool :=
  (number x <? number y) || ((number x =? number y) && (leader x <? leader y)).
Definition ballot_eq (x y : ballot) : bool :=
  (number x =? number y) && (leader x =? leader y).
Definition ballot_ne (x y : ballot) : bool := negb (ballot_eq x y).
Definition ballot_gt (x y : ballot) : bool := ballot_lt y x.

Definition pack_ballot (x : ballot) : bytes :=
  pack_uint64 (number x) ++ pack_uint64 (leader x).

Definition unpack_ballot (up : unpacker) : ballot * unpacker :=
  let '(n, up) := unpack_uint64 up in
  let '(l, up) := unpack_uint64 up in
  ({| number := n; leader := l |}, up).

Record pvalue := { pv_b : ballot; pv_v : bytes }.

(** [pvalue()]. *)
Definition pvalue0 : pvalue := {| pv_b := ballot0; pv_v := [] |}.

Definition pack_pvalue (p : pvalue) : bytes :=
  pack_ballot (pv_b p) ++ pack_slice (pv_v p).

Definition unpack_pvalue (up : unpacker) : pvalue * unpacker :=
  let '(x, up) := unpack_ballot up in
  let '(s, up) := unpack_slice up in
  ({| pv_b := x; pv_v := s |}, up).

(** ** LevelDB *)

(** Modelled from the spec: the durable map (LevelDB is not part of the
    repository).  Spec section 2: an ordered byte-keyed store supporting
    [get], synchronous [put], and "not found"; section 7 adds the storage
    error.  [data] is what [Get] sees, [durable] is what has reached stable
    storage (a [Put] with [sync = true] returns only once the write and all
    writes before it are there).  [io_error] tells which operations, counted
    by [ops], fail with a storage error. *)
Inductive status := StOk | StNotFound | StIOError.

Definition status_ok (st : status) : bool :=
  match st with StOk => true | _ => false end.
Definition status_IsNotFound (st : status) : bool :=
  match st with StNotFound => true | _ => false end.

Record leveldb := {
  data : gmap bytes bytes;
  durable : gmap bytes bytes;
  io_error : nat -> bool;
  ops : nat
}.

Definition db_Get (key : bytes) (db : leveldb) : status * bytes * leveldb :=
  let db' := {| data := data db; durable := durable db;
                io_error := io_error db; ops := S (ops db) |} in
  if io_error db (ops db) then (StIOError, [], db')
  else match data db !! key with
       | Some val => (StOk, val, db')
       | None => (StNotFound, [], db')
       end.

Definition db_Put (sync : bool) (key val : bytes) (db : leveldb) : status * leveldb :=
  if io_error db (ops db)
  then (StIOError, {| data := data db; durable := durable db;
                      io_error := io_error db; ops := S (ops db) |})
  else (StOk, {| data := <[key := val]> (data db);
                 durable := if sync then <[key := val]> (data db) else durable db;
                 io_error := io_error db; ops := S (ops db) |}).

(** ** The write state machine and the daemon *)

Record write_state_machine := {
  key : bytes;
  values : list (N * bytes);
  executing_paxos : bool;
  leading : ballot;
  promises : list N;
  accepted : list N;
  max_accepted : pvalue;
  version : N
}.

Record pocdaemon := {
  host : N;
  db : leveldb;
  writes : gmap bytes write_state_machine;
  (* every message handed to [busybee->send], oldest first *)
  sent : list (N * bytes);
  (* [po6::wallclock_time()]: the reading of the [ticks]-th call *)
  clock : nat -> N;
  ticks : nat
}.

Definition set_db (x : leveldb) (d : pocdaemon) : pocdaemon :=
  {| host := host d; db := x; writes := writes d; sent := sent d;
     clock := clock d; ticks := ticks d |}.

Definition set_writes (x : gmap bytes write_state_machine) (d : pocdaemon) : pocdaemon :=
  {| host := host d; db := db d; writes := x; sent := sent d;
     clock := clock d; ticks := ticks d |}.

(** [d->busybee->send(to, msg)]; the payload is the message after the
    BusyBee header.  The return value is ignored throughout the daemon. *)
Definition busybee_send (to : N) (msg : bytes) (d : pocdaemon) : pocdaemon :=
  {| host := host d; db := db d; writes := writes d;
     sent := sent d ++ [(to, msg)];
     clock := clock d; ticks := ticks d |}.

Definition wallclock_time (d : pocdaemon) : N * pocdaemon :=
  (clock d (ticks d) mod 2 ^ 64,
   {| host := host d; db := db d; writes := writes d; sent := sent d;
      clock := clock d; ticks := S (ticks d) |}).

(** *** Messages, as the daemon packs them

    [msg_phase1b], [msg_phase2b] and [msg_retry] are what the reply
    statements of the acceptor write when the key is intact; the proposer's
    handlers read these formats. *)

Definition tag (c : string) : N :=
  match c with
  | String a _ => N_of_ascii a
  | EmptyString => 0
  end.

Definition msg_phase1a (k : bytes) (ver : N) (b : ballot) : bytes :=
  pack_uint8 (tag "a") ++ pack_slice k ++ pack_uint64 ver ++ pack_ballot b.
Definition msg_phase1b (k : bytes) (ver : N) (b : ballot) (v : pvalue) : bytes :=
  pack_uint8 (tag "b") ++ pack_slice k ++ pack_uint64 ver ++ pack_ballot b ++ pack_pvalue v.
Definition msg_phase2a (k : bytes) (ver : N) (b : ballot) (v : pvalue) : bytes :=
  pack_uint8 (tag "A") ++ pack_slice k ++ pack_uint64 ver ++ pack_ballot b ++ pack_pvalue v.
Definition msg_phase2b (k : bytes) (ver : N) (b : ballot) : bytes :=
  pack_uint8 (tag "B") ++ pack_slice k ++ pack_uint64 ver ++ pack_ballot b.
Definition msg_learn (k : bytes) (ver : N) (v : bytes) : bytes :=
  pack_uint8 (tag "L") ++ pack_slice k ++ pack_uint64 ver ++ pack_slice v.
Definition msg_retry (k : bytes) : bytes :=
  pack_uint8 (tag "R") ++ pack_slice k.
Definition msg_put (k v : bytes) : bytes :=
  pack_uint8 (tag "P") ++ pack_slice k ++ pack_slice v.
Definition msg_get (k : bytes) : bytes :=
  pack_uint8 (tag "G") ++ pack_slice k.
Definition msg_put_reply (rc : pocdb_returncode) : bytes :=
  pack_returncode rc.
Definition msg_get_reply (rc : pocdb_returncode) (val : bytes) : bytes :=
  pack_returncode rc ++ pack_slice val.

(** *** write_state_machine *)

(** The constructor: every member value-initialised. *)
Definition new_write_state_machine (k : bytes) : write_state_machine :=
  {| key := k; values := []; executing_paxos := false; leading := ballot0;
     promises := []; accepted := []; max_accepted := pvalue0; version := 0 |}.

Definition finished (s : write_state_machine) : bool :=
  match values s with [] => true | _ => false end.

Definition set_values x (s : write_state_machine) : write_state_machine :=
  {| key := key s; values := x; executing_paxos := executing_paxos s;
     leading := leading s; promises := promises s; accepted := accepted s;
     max_accepted := max_accepted s; version := version s |}.
Definition set_executing_paxos x (s : write_state_machine) : write_state_machine :=
  {| key := key s; values := values s; executing_paxos := x;
     leading := leading s; promises := promises s; accepted := accepted s;
     max_accepted := max_accepted s; version := version s |}.
Definition set_promises x (s : write_state_machine) : write_state_machine :=
  {| key := key s; values := values s; executing_paxos := executing_paxos s;
     leading := leading s; promises := x; accepted := accepted s;
     max_accepted := max_accepted s; version := version s |}.
Definition set_accepted x (s : write_state_machine) : write_state_machine :=
  {| key := key s; values := values s; executing_paxos := executing_paxos s;
     leading := leading s; promises := promises s; accepted := x;
     max_accepted := max_accepted s; version := version s |}.
Definition set_max_accepted x (s : write_state_machine) : write_state_machine :=
  {| key := key s; values := values s; executing_paxos := executing_paxos s;
     leading := leading s; promises := promises s; accepted := accepted s;
     max_accepted := x; version := version s |}.
Definition set_version x (s : write_state_machine) : write_state_machine :=
  {| key := key s; values := values s; executing_paxos := executing_paxos s;
     leading := leading s; promises := promises s; accepted := accepted s;
     max_accepted := max_accepted s; version := x |}.

(** [std::find(l.begin(), l.end(), h) != l.end()]. *)
Definition found (h : N) (l : list N) : bool := existsb (N.eqb h) l.

(** [for (i = 0; i < NUM_HOSTS; ++i) { if (HOSTS[i] in skip) continue;
    send(HOSTS[i], msg); }]. *)
Definition send_to_hosts (skip : list N) (msg : bytes) (d : pocdaemon) : pocdaemon :=
  foldl (fun d h => if found h skip then d else busybee_send h msg d) d HOSTS.

(** The start of a round, the body of [else if (!executing_paxos)]. *)
Definition start_round (s : write_state_machine) (d : pocdaemon)
  : result (write_state_machine * pocdaemon) :=
  match values s with
  | [] => Undefined  (* values.begin()->second *)
  | (_, v0) :: _ =>
      let '(now, d) := wallclock_time d in
      Ok ({| key := key s; values := values s; executing_paxos := true;
             leading := {| number := now; leader := host d |};
             promises := []; accepted := [];
             max_accepted := {| pv_b := ballot0; pv_v := v0 |};
             version := version s |}, d)
  end.

Fixpoint work_state_machine (fuel : nat) (s : write_state_machine) (d : pocdaemon)
  : result (write_state_machine * pocdaemon) :=
  match fuel with
  | O => OutOfFuel
  | S fuel =>
    if negb (executing_paxos s) && finished s then Ok (s, d)
    else
      do (s, d) <- (if negb (executing_paxos s) then start_round s d else Ok (s, d));
      if ballot_gt (pv_b (max_accepted s)) (leading s) then
        work_state_machine fuel (set_executing_paxos false s) d
      else if (length (promises s) <? QUORUM)%nat then
        Ok (s, send_to_hosts (promises s)
                 (msg_phase1a (key s) (version s) (leading s)) d)
      else if (length (accepted s) <? QUORUM)%nat then
        let s := set_max_accepted
                   {| pv_b := leading s; pv_v := pv_v (max_accepted s) |} s in
        Ok (s, send_to_hosts (accepted s)
                 (msg_phase2a (key s) (version s) (leading s) (max_accepted s)) d)
      else
        let d := send_to_hosts []
                   (msg_learn (key s) (version s) (pv_v (max_accepted s))) d in
        let s := set_version (incr64 (version s)) (set_executing_paxos false s) in
        match values s with
        | [] => Undefined  (* values.front() *)
        | (c0, v0) :: rest =>
            if bytes_eqb (pv_v (max_accepted s)) v0
            then work_state_machine fuel (set_values rest s)
                   (busybee_send c0 (msg_put_reply POCDB_SUCCESS) d)
            else work_state_machine fuel s d
        end
  end.

(** One call of [work_state_machine] re-enters itself at most once (lemma
    [work_state_machine_fuel]); the entry points run it with that budget. *)
Definition REENTRY : nat := 2.

Definition write (c : N) (v : bytes) (s : write_state_machine) (d : pocdaemon)
  : result (write_state_machine * pocdaemon) :=
  work_state_machine REENTRY (set_values (values s ++ [(c, v)]) s) d.

Definition phase1b (c ver : N) (b : ballot) (v : pvalue)
    (s : write_state_machine) (d : pocdaemon)
  : result (write_state_machine * pocdaemon) :=
  if (negb (version s =? 0) && (version s <? ver)) || ballot_gt b (leading s) then
    work_state_machine REENTRY (set_version ver (set_executing_paxos false s)) d
  else
    let s := set_version ver s in
    let s := if ballot_ne (pv_b v) ballot0 && ballot_gt (pv_b v) (pv_b (max_accepted s))
             then set_max_accepted v s else s in
    let s := set_promises (promises s ++ [c]) s in
    work_state_machine REENTRY s d.

Definition phase2b (c ver : N) (b : ballot)
    (s : write_state_machine) (d : pocdaemon)
  : result (write_state_machine * pocdaemon) :=
  if negb (ver =? version s) || ballot_ne b (leading s) then Ok (s, d)
  else work_state_machine REENTRY (set_accepted (accepted s ++ [c]) s) d.

Definition retry (s : write_state_machine) (d : pocdaemon)
  : result (write_state_machine * pocdaemon) :=
  work_state_machine REENTRY
    (set_version (incr64 (version s)) (set_executing_paxos false s)) d.

(** *** The table of write state machines *)

(** Modelled from the spec: [e::state_hash_table] (libe is not part of the
    repository).  Spec section 2: entries are created on demand, referenced
    by the handler that runs, and reclaimed when idle.  [get_or_create_state]
    hands out the machine stored under [k] or a newly constructed one;
    [release_state] is the destructor of the handler's [state_reference],
    which drops a machine that reports [finished] and keeps any other. *)
Definition get_or_create_state (k : bytes) (d : pocdaemon) : write_state_machine :=
  default (new_write_state_machine k) (writes d !! k).

Definition release_state (k : bytes) (sm : write_state_machine) (d : pocdaemon)
  : pocdaemon :=
  set_writes (if finished sm then delete k (writes d) else <[k := sm]> (writes d)) d.

(** *** Acceptor state *)

Definition get_acceptor_state (k : bytes) (d : pocdaemon)
  : result (pocdb_returncode * (N * ballot * pvalue) * pocdaemon) :=
  let '(st, val, ldb) := db_Get (k ++ str "A") (db d) in
  let d := set_db ldb d in
  if status_IsNotFound st then Ok (POCDB_SUCCESS, (0, ballot0, pvalue0), d)
  else if negb (status_ok st) then Ok (POCDB_SERVER_ERROR, (0, ballot0, pvalue0), d)
  else
    let up := unpacker_of val in
    let '(ver, up) := unpack_uint64 up in
    let '(b, up) := unpack_ballot up in
    let '(v, up) := unpack_pvalue up in
    if error up then Ok (POCDB_SERVER_ERROR, (ver, b, v), d)
    else
      let '(st, val, ldb) := db_Get (k ++ str "L") (db d) in
      let d := set_db ldb d in
      do written <-
        (if status_ok st then
           (* *(uint64_t* )(val.data() + val.size() - 8) *)
           if (length val <? 8)%nat then Undefined
           else Ok (read_native64 (drop (length val - 8) val))
         else Ok 0);
      if ver =? written
      then Ok (POCDB_SUCCESS, (incr64 ver, ballot0, pvalue0), d)
      else Ok (POCDB_SUCCESS, (ver, b, v), d).

Definition acceptor_record (ver : N) (b : ballot) (v : pvalue) : bytes :=
  pack_uint64 ver ++ pack_ballot b ++ pack_pvalue v.

Definition save_acceptor_state (k : bytes) (ver : N) (b : ballot) (v : pvalue)
    (d : pocdaemon) : pocdb_returncode * pocdaemon :=
  let '(st, ldb) := db_Put true (k ++ str "A") (acceptor_record ver b v) (db d) in
  let d := set_db ldb d in
  if negb (status_ok st) then (POCDB_SERVER_ERROR, d) else (POCDB_SUCCESS, d).

(** *** Message handlers *)

Definition process_get (c : N) (up : unpacker) (d : pocdaemon) : pocdaemon :=
  let '(k, up) := unpack_slice up in
  if error up then d else
  let '(st, val, ldb) := db_Get (k ++ str "L") (db d) in
  let d := set_db ldb d in
  let rc := if status_IsNotFound st then POCDB_NOT_FOUND
            else if status_ok st then POCDB_SUCCESS
            else POCDB_SERVER_ERROR in
  let val := if (8 <? length val)%nat then take (length val - 8) val else val in
  busybee_send c (msg_get_reply rc val) d.

Definition process_put (c : N) (up : unpacker) (d : pocdaemon) : result pocdaemon :=
  let '(k, up) := unpack_slice up in
  let '(v, up) := unpack_slice up in
  if error up then Ok d else
  let sm := get_or_create_state k d in
  do (sm, d) <- write c v sm d;
  Ok (release_state k sm d).

(** The slice [k] that a handler extracts is a view into the received
    buffer, which [msg] owns.  The two handlers of the acceptor build their
    reply with [msg.reset(e::buffer::create(sz))], which deletes that
    buffer, and then pack [k] into the new one: a read of freed memory.
    (The other handlers copy what they keep: [k.str()], [v.str()],
    [std::string key(k.cdata(), k.size())].) *)
Definition process_phase1a (c : N) (up : unpacker) (d : pocdaemon) : result pocdaemon :=
  let '(k, up) := unpack_slice up in
  let '(ver, up) := unpack_uint64 up in
  let '(b, up) := unpack_ballot up in
  if error up then Ok d else
  do (rc, (cur_ver, cur_b, cur_v), d) <- get_acceptor_state k d;
  if negb (returncode_eqb rc POCDB_SUCCESS) then Ok d else
  if (c =? leader b) && ballot_gt b cur_b && (cur_ver <=? ver) then
    let cur_ver := ver in
    let cur_b := b in
    let '(rc, d) := save_acceptor_state k cur_ver cur_b cur_v d in
    if negb (returncode_eqb rc POCDB_SUCCESS) then Ok d else
    (* msg.reset(...); ... << uint8_t('b') << k << cur_ver << cur_b << cur_v *)
    Undefined
  else
    (* msg.reset(...); ... << uint8_t('b') << k << cur_ver << cur_b << cur_v *)
    Undefined.

Definition process_phase1b (c : N) (up : unpacker) (d : pocdaemon) : result pocdaemon :=
  let '(k, up) := unpack_slice up in
  let '(ver, up) := unpack_uint64 up in
  let '(b, up) := unpack_ballot up in
  let '(v, up) := unpack_pvalue up in
  if error up then Ok d else
  let sm := get_or_create_state k d in
  do (sm, d) <- phase1b c ver b v sm d;
  Ok (release_state k sm d).

Definition process_phase2a (c : N) (up : unpacker) (d : pocdaemon) : result pocdaemon :=
  let '(k, up) := unpack_slice up in
  let '(ver, up) := unpack_uint64 up in
  let '(b, up) := unpack_ballot up in
  let '(v, up) := unpack_pvalue up in
  if error up then Ok d else
  do (rc, (cur_ver, cur_b, cur_v), d) <- get_acceptor_state k d;
  if negb (returncode_eqb rc POCDB_SUCCESS) then Ok d else
  if (ver =? cur_ver) && ballot_eq b cur_b then
    let '(rc, d) := save_acceptor_state k ver b v d in
    if negb (returncode_eqb rc POCDB_SUCCESS) then Ok d else
    (* msg.reset(...); ... << uint8_t('B') << k << cur_ver << cur_b *)
    Undefined
  else
    (* msg.reset(...); ... << uint8_t('R') << k *)
    Undefined.

Definition process_phase2b (c : N) (up : unpacker) (d : pocdaemon) : result pocdaemon :=
  let '(k, up) := unpack_slice up in
  let '(ver, up) := unpack_uint64 up in
  let '(b, up) := unpack_ballot up in
  if error up then Ok d else
  let sm := get_or_create_state k d in
  do (sm, d) <- phase2b c ver b sm d;
  Ok (release_state k sm d).

Definition learned_record (v : bytes) (ver : N) : bytes := v ++ native64 ver.

Definition process_learn (c : N) (up : unpacker) (d : pocdaemon) : pocdaemon :=
  let '(k, up) := unpack_slice up in
  let '(ver, up) := unpack_uint64 up in
  let '(v, up) := unpack_slice up in
  if error up then d else
  (* XXX there's a race condition here; should only write to leveldb if newly
     learned value has (ver) higher than previously learned value *)
  let '(st, ldb) := db_Put true (k ++ str "L") (learned_record v ver) (db d) in
  (* !st.ok() is logged and nothing else *)
  set_db ldb d.

Definition process_retry (c : N) (up : unpacker) (d : pocdaemon) : result pocdaemon :=
  (* e::slice k; and no [up = up >> k]: the slice stays empty *)
  let k : bytes := [] in
  if error up then Ok d else
  let sm := get_or_create_state k d in
  do (sm, d) <- retry sm d;
  Ok (release_state k sm d).

(** The body of the loop of [pocdaemon::run], for one message [msg] that
    BusyBee delivered from [id]. *)
Definition run_message (id : N) (msg : bytes) (d : pocdaemon) : result pocdaemon :=
  let '(type, up) := unpack_uint8 (unpacker_of msg) in
  if error up then Ok d
  else if type =? tag "P" then process_put id up d
  else if type =? tag "G" then Ok (process_get id up d)
  else if type =? tag "a" then process_phase1a id up d
  else if type =? tag "b" then process_phase1b id up d
  else if type =? tag "A" then process_phase2a id up d
  else if type =? tag "B" then process_phase2b id up d
  else if type =? tag "L" then Ok (process_learn id up d)
  else if type =? tag "R" then process_retry id up d
  else Ok d.

(** [pocdaemon::run] on the messages BusyBee delivers, in order. *)
Fixpoint run (inbox : list (N * bytes)) (d : pocdaemon) : result pocdaemon :=
  match inbox with
  | [] => Ok d
  | (id, msg) :: inbox => do d <- run_message id msg d; run inbox d
  end.

(** ** Reading the daemon's state *)

(** The version suffix of a learned record. *)
Definition learned_version (rec : bytes) : N :=
  read_native64 (drop (length rec - 8) rec).

(** The operations of a write state machine and what is reachable by
    them from a newly constructed machine, whatever daemon runs them. *)
Inductive wsm_op :=
  | OpWrite (c : N) (v : bytes)
  | OpPhase1b (c ver : N) (b : ballot) (v : pvalue)
  | OpPhase2b (c ver : N) (b : ballot)
  | OpRetry.

Definition run_op (op : wsm_op) (s : write_state_machine) (d : pocdaemon)
  : result (write_state_machine * pocdaemon) :=
  match op with
  | OpWrite c v => write c v s d
  | OpPhase1b c ver b v => phase1b c ver b v s d
  | OpPhase2b c ver b => phase2b c ver b s d
  | OpRetry => retry s d
  end.

Fixpoint run_ops (l : list wsm_op) (s : write_state_machine) (d : pocdaemon)
  : result (write_state_machine * pocdaemon) :=
  match l with
  | [] => Ok (s, d)
  | op :: l => do (s, d) <- run_op op s d; run_ops l s d
  end.

Inductive reachable (k : bytes) : write_state_machine -> Prop :=
  | reachable_new : reachable k (new_write_state_machine k)
  | reachable_op s d op s' d' :
      reachable k s -> run_op op s d = Ok (s', d') -> reachable k s'.

(** A daemon that has just started: empty store that never fails, no
    machine, nothing sent, a clock that reads [t0 + 1000 * i]. *)
Definition fresh_leveldb : leveldb :=
  {| data := ∅; durable := ∅; io_error := fun _ => false; ops := 0 |}.

Definition fresh_daemon (h t0 : N) : pocdaemon :=
  {| host := h; db := fresh_leveldb; writes := ∅; sent := [];
     clock := fun i => t0 + 1000 * N.of_nat i; ticks := 0 |}.

(** The hosts that occur in a list, each once. *)
Definition distinct_hosts (l : list N) : list N := remove_dups l.

(** ** A round of [HOSTA] for the key ["x"] *)

Definition ballotA : ballot := {| number := 5000; leader := HOSTA |}.
Definition pvalueA : pvalue := {| pv_b := ballotA; pv_v := str "1" |}.

(** What the machine of [HOSTA] for ["x"] goes through up to phase 2: the
    write of client 77 at clock reading 5000; the promise of [HOSTA] at
    version 0; the answer of [HOSTC] to a repeated phase 1a, which names
    version 1; the promises of [HOSTB], [HOSTD] and [HOSTE] at version 1. *)
Definition phase1_ops : list wsm_op :=
  [OpWrite 77 (str "1");
   OpPhase1b HOSTA 0 ballotA pvalue0;
   OpPhase1b HOSTC 1 ballot0 pvalue0;
   OpPhase1b HOSTB 1 ballotA pvalue0;
   OpPhase1b HOSTD 1 ballotA pvalue0;
   OpPhase1b HOSTE 1 ballotA pvalue0].

(** A daemon whose acceptor for ["x"] has stored its promise of ballot
    [(5000, HOSTA)] at version 1. *)
Definition promised_daemon : pocdaemon :=
  snd (save_acceptor_state (str "x") 1 ballotA pvalue0 (fresh_daemon HOSTB 0)).

(** A daemon whose store fails every operation. *)
Definition broken_daemon : pocdaemon :=
  set_db {| data := ∅; durable := ∅; io_error := fun _ => true; ops := 0 |}
         (fresh_daemon HOSTB 0).

(** ** Storage failures *)

(** Some store operation performed between [d] and [d'] failed. *)
Definition db_op_failed (d d' : pocdaemon) : Prop :=
  exists i, (ops (db d) <= i < ops (db d'))%nat /\ io_error (db d) i = true.

(** A handler that sends nothing in any run in which a store operation
    failed. *)
Definition silent_on_storage_failure
    (handler : N -> unpacker -> pocdaemon -> result pocdaemon) : Prop :=
  forall c up d d',
    handler c up d = Ok d' -> db_op_failed d d' -> sent d' = sent d.

(** ** The queue invariant of a write state machine *)

Definition wsm_inv (s : write_state_machine) : Prop :=
  executing_paxos s = true -> values s <> [].

(** The machine of [HOSTA] for ["x"] in the middle of [phase2b]: after
    [phase1_ops] and the accepts of [HOSTB] and [HOSTD], the accept of
    [HOSTE] has just been recorded. *)
Definition wsm_at_quorum : write_state_machine :=
  {| key := str "x"; values := [(77, str "1")]; executing_paxos := true;
     leading := ballotA;
     promises := [HOSTA; HOSTC; HOSTB; HOSTD; HOSTE];
     accepted := [HOSTB; HOSTD; HOSTE];
     max_accepted := pvalueA;
     version := 1 |}.

(** The machine for ["x"] of daemon [HOSTA] after [write(77, "1")] at clock
    reading 5000: round started, phase 1a broadcast. *)
Definition wsm_after_write : write_state_machine :=
  {| key := str "x"; values := [(77, str "1")]; executing_paxos := true;
     leading := ballotA;
     promises := []; accepted := [];
     max_accepted := {| pv_b := ballot0; pv_v := str "1" |};
     version := 0 |}.

(** ** Values that fit their wire fields *)

Definition is_uint64 (n : N) : Prop := n < 2 ^ 64.
Definition is_slice (s : bytes) : Prop := N.of_nat (length s) < 2 ^ 32.
Definition is_ballot (x : ballot) : Prop := is_uint64 (number x) /\ is_uint64 (leader x).
Definition is_pvalue (p : pvalue) : Prop := is_ballot (pv_b p) /\ is_slice (pv_v p).

(** ** Packed sizes and the buffers the daemon allocates *)

(** Modelled from the spec: [pack_size(e::slice)] (libe is not part of the
    repository); a byte string takes its 32-bit size and its bytes. *)
Definition pack_size_slice (s : bytes) : nat := 4 + length s.

(** [pack_size(const ballot&)] and [pack_size(const pvalue&)]. *)
Definition pack_size_ballot (x : ballot) : nat := 2 * 8.
Definition pack_size_pvalue (p : pvalue) : nat :=
  pack_size_ballot (pv_b p) + pack_size_slice (pv_v p).

(** The sizes [sz] the daemon computes for the buffers it packs into,
    without [BUSYBEE_HEADER_SIZE]. *)
Definition sz_get_reply (val : bytes) : nat := 8 + pack_size_slice val.
Definition sz_phase1b (k : bytes) (cur_b : ballot) (cur_v : pvalue) : nat :=
  1 + 8 + pack_size_slice k + pack_size_ballot cur_b + pack_size_pvalue cur_v.
Definition sz_phase2b (k : bytes) (cur_b : ballot) : nat :=
  1 + 8 + pack_size_slice k + pack_size_ballot cur_b.
Definition sz_retry (k : bytes) : nat := 1 + pack_size_slice k.
Definition sz_phase1a (s : write_state_machine) : nat :=
  1 + 8 + pack_size_slice (key s) + pack_size_ballot (leading s).
Definition sz_phase2a (s : write_state_machine) : nat :=
  1 + 8 + pack_size_slice (key s) + pack_size_ballot (leading s)
  + pack_size_pvalue (max_accepted s).
(** The decision step computes one size and uses it for the learn message
    and for the reply to the client. *)
Definition sz_learn (s : write_state_machine) : nat :=
  1 + 8 + pack_size_slice (key s) + pack_size_slice (pv_v (max_accepted s)).

(** ** What a handler may change *)

(** [d'] is [d] after some clock readings and some sends: same host, store,
    table and clock. *)
Definition extends (d d' : pocdaemon) : Prop :=
  host d' = host d /\ db d' = db d /\ writes d' = writes d /\
  clock d' = clock d /\ (ticks d <= ticks d')%nat /\
  exists out, sent d' = sent d ++ out.

(** The messages a handler sent: what [d'] has sent beyond [d]. *)
Definition output (d d' : pocdaemon) : list (N * bytes) :=
  drop (length (sent d)) (sent d').

(** A machine has a round in flight exactly when a write is queued. *)
Definition wsm_live (s : write_state_machine) : Prop :=
  executing_paxos s = true <-> values s <> [].

(** The queue an operation works on: [write] appends its entry first. *)
Definition queue_after (op : wsm_op) (s : write_state_machine) : list (N * bytes) :=
  match op with
  | OpWrite c v => values s ++ [(c, v)]
  | _ => values s
  end.

(** The state of a daemon between two messages: every machine in the table
    is stored under its own key, has a write queued and a round in flight;
    every learned slot holds at least the eight bytes of a version. *)
Definition daemon_inv (d : pocdaemon) : Prop :=
  (forall k s, writes d !! k = Some s ->
     key s = k /\ values s <> [] /\ executing_paxos s = true) /\
  (forall k rec, data (db d) !! (k ++ str "L") = Some rec -> (8 <= length rec)%nat).

(** The [POCDB_SUCCESS] replies to clients among the messages [out]. *)
Definition client_replies (out : list (N * bytes)) : list (N * bytes) :=
  filter (fun m => snd m = msg_put_reply POCDB_SUCCESS) out.

(** ** The start of a round, spelled out *)

(** The ballot a daemon takes for a round it starts now. *)
Definition next_ballot (d : pocdaemon) : ballot :=
  {| number := clock d (ticks d) mod 2 ^ 64; leader := host d |}.

(** A machine for [k] with queue [q] that has just started a round at
    version [ver] on daemon [d], proposing [v0]. *)
Definition round_of (k : bytes) (q : list (N * bytes)) (v0 : bytes) (ver : N)
    (d : pocdaemon) : write_state_machine :=
  {| key := k; values := q; executing_paxos := true; leading := next_ballot d;
     promises := []; accepted := [];
     max_accepted := {| pv_b := ballot0; pv_v := v0 |}; version := ver |}.

(** The daemon after that start: the clock read once, phase 1a sent to the
    five hosts. *)
Definition round_sent (k : bytes) (ver : N) (d : pocdaemon) : pocdaemon :=
  send_to_hosts [] (msg_phase1a k ver (next_ballot d)) (snd (wallclock_time d)).

(** ** Addresses ([common.h]) and the daemon's identity ([main]) *)

(** Modelled from the spec: [po6::net::location] (po6 is not part of the
    repository), an address and a port; [None] is the default-constructed
    location.  [loc.set("127.0.0.1", p)] succeeds for this literal. *)
Record location := { address : string; port : N }.

(** [controller::lookup]: the loop over [HOSTS], from index [i]. *)
Fixpoint lookup_from (i : nat) (hosts : list N) (server_id : N) : option location :=
  match hosts with
  | [] => None
  | h :: hosts =>
      if h =? server_id
      then Some {| address := "127.0.0.1"; port := 2000 + N.of_nat i |}
      else lookup_from (S i) hosts server_id
  end.

Definition lookup (server_id : N) : option location := lookup_from 0 HOSTS server_id.

(** [main] of the daemon, from [argv[1]] to the host it constructs
    [pocdaemon] with; [None] when [assert(host > 0)] fails. *)
Definition main_host (arg : string) : option N :=
  let host := 0 in
  let host := if String.eqb "A" arg then HOSTA else host in
  let host := if String.eqb "B" arg then HOSTB else host in
  let host := if String.eqb "C" arg then HOSTC else host in
  let host := if String.eqb "D" arg then HOSTD else host in
  let host := if String.eqb "E" arg then HOSTE else host in
  if 0 <? host then Some host else None.

(** The address [pocdaemon::pocdaemon] binds BusyBee to:
    [control.lookup(host)]. *)
Definition bind_address (arg : string) : option location :=
  match main_host arg with
  | Some h => lookup h
  | None => None
  end.

(** ** The client ([client.cc]) *)

(** [unsigned reqno], 32 bits. *)
Record pocdb_client := { reqno : N }.

Definition pocdb_create : pocdb_client := {| reqno := 0 |}.

(** [HOSTS[client->reqno++ % NUM_HOSTS]]. *)
Definition pick_host (client : pocdb_client) : N * pocdb_client :=
  (nth (N.to_nat (reqno client mod N.of_nat NUM_HOSTS)) HOSTS 0,
   {| reqno := (reqno client + 1) mod 2 ^ 32 |}).

(** [pocdb_put].  BusyBee is the environment: [send_ok] tells whether
    [send] returned [BUSYBEE_SUCCESS], [reply] is the message [recv]
    delivered, [None] if it failed.  The result is the return code (the
    byte the enum is read from, so any value below 256), the client, and the
    request handed to [send]. *)
Definition pocdb_put (client : pocdb_client) (key val : bytes)
    (send_ok : bool) (reply : option bytes) : N * pocdb_client * (N * bytes) :=
  let '(host, client) := pick_host client in
  let msg := pack_uint8 (tag "P") ++ pack_slice key ++ pack_slice val in
  if negb send_ok then (returncode_value POCDB_SERVER_ERROR, client, (host, msg)) else
  match reply with
  | None => (returncode_value POCDB_SERVER_ERROR, client, (host, msg))
  | Some m =>
      let '(rc, up) := unpack_uint8 (unpacker_of m) in
      (if negb (error up) then rc else returncode_value POCDB_SERVER_ERROR,
       client, (host, msg))
  end.

(** [pocdb_get].  [malloc_ok] tells whether [malloc] returned a buffer.
    Besides what [pocdb_put] returns there is [*val_sz], [None] while it has
    not been assigned.  The function allocates [*val] and never copies the
    value's bytes into it, so there is no value to return. *)
Definition pocdb_get (client : pocdb_client) (key : bytes)
    (send_ok : bool) (reply : option bytes) (malloc_ok : bool)
  : N * option nat * pocdb_client * (N * bytes) :=
  let '(host, client) := pick_host client in
  let msg := pack_uint8 (tag "G") ++ pack_slice key in
  if negb send_ok then (returncode_value POCDB_SERVER_ERROR, None, client, (host, msg)) else
  match reply with
  | None => (returncode_value POCDB_SERVER_ERROR, None, client, (host, msg))
  | Some m =>
      let '(rc, up) := unpack_uint8 (unpacker_of m) in
      let '(v, up) := unpack_slice up in
      if error up then (returncode_value POCDB_SERVER_ERROR, None, client, (host, msg))
      else if negb (rc =? returncode_value POCDB_SUCCESS)
      then (rc, None, client, (host, msg))
      else if negb malloc_ok && (0 <? length v)%nat
      then (returncode_value POCDB_SEE_ERRNO, Some (length v), client, (host, msg))
      else (rc, Some (length v), client, (host, msg))
  end.

(** The client after [n] requests, and the hosts they went to. *)
Fixpoint requests (n : nat) (client : pocdb_client) : list N * pocdb_client :=
  match n with
  | O => ([], client)
  | S n =>
      let '(h, client) := pick_host client in
      let '(hs, client) := requests n client in
      (h :: hs, client)
  end.

(** ** The loader ([load.cc]) *)

(** [strchr(s.c_str(), ' ')], as an offset: the search ends at the first
    NUL. *)
Fixpoint strchr_space (s : bytes) : option nat :=
  match s with
  | [] => None
  | c :: s =>
      if Ascii.eqb c " " then Some O
      else if Ascii.eqb c zero then None
      else S <$> strchr_space s
  end.

(** The key and the value [main] of the loader passes to [pocdb_put] for a
    line; [None] for "invalid line". *)
Definition load_line (s : bytes) : option (bytes * bytes) :=
  match strchr_space s with
  | None => None
  | Some i => Some (take i s, drop (S i) s)
  end.

(** ** Stable storage *)


(** ** The acceptor's handlers up to their reply *)

(** [process_phase1a] as far as its behaviour is defined: the daemon when
    the handler returns or reaches [msg.reset], and in the second case the
    type byte of the reply it goes on to build. *)
Definition phase1a_until_reply (c : N) (up : unpacker) (d : pocdaemon)
  : result (pocdaemon * option N) :=
  let '(k, up) := unpack_slice up in
  let '(ver, up) := unpack_uint64 up in
  let '(b, up) := unpack_ballot up in
  if error up then Ok (d, None) else
  do (rc, (cur_ver, cur_b, cur_v), d) <- get_acceptor_state k d;
  if negb (returncode_eqb rc POCDB_SUCCESS) then Ok (d, None) else
  if (c =? leader b) && ballot_gt b cur_b && (cur_ver <=? ver) then
    let cur_ver := ver in
    let cur_b := b in
    let '(rc, d) := save_acceptor_state k cur_ver cur_b cur_v d in
    if negb (returncode_eqb rc POCDB_SUCCESS) then Ok (d, None) else
    Ok (d, Some (tag "b"))
  else
    Ok (d, Some (tag "b")).

(** [process_phase2a], likewise. *)
Definition phase2a_until_reply (c : N) (up : unpacker) (d : pocdaemon)
  : result (pocdaemon * option N) :=
  let '(k, up) := unpack_slice up in
  let '(ver, up) := unpack_uint64 up in
  let '(b, up) := unpack_ballot up in
  let '(v, up) := unpack_pvalue up in
  if error up then Ok (d, None) else
  do (rc, (cur_ver, cur_b, cur_v), d) <- get_acceptor_state k d;
  if negb (returncode_eqb rc POCDB_SUCCESS) then Ok (d, None) else
  if (ver =? cur_ver) && ballot_eq b cur_b then
    let '(rc, d) := save_acceptor_state k ver b v d in
    if negb (returncode_eqb rc POCDB_SUCCESS) then Ok (d, None) else
    Ok (d, Some (tag "B"))
  else
    Ok (d, Some (tag "R")).

(** The handler's result from how far it got. *)
Definition after_reply (r : result (pocdaemon * option N)) : result pocdaemon :=
  do (d, reply) <- r;
  match reply with
  | None => Ok d
  | Some _ => Undefined
  end.

(** A message that the dispatcher hands to a handler of the acceptor. *)
Definition is_acceptor_message (msg : bytes) : bool :=
  let '(type, up) := unpack_uint8 (unpacker_of msg) in
  negb (error up) && ((type =? tag "a") || (type =? tag "A")).

(** The hosts a broadcast of the write state machine sends to: the loop
    over [HOSTS] with [std::find(skip.begin(), skip.end(), HOSTS[i])]. *)
Definition recipients (skip : list N) : list N :=
  filter (fun h => h ∉ skip) HOSTS.

(** * Properties *)

(** ** Wire format *)

Lemma length_le_bytes w n : length (le_bytes w n) = w.
Proof. revert n. induction w as [|w IH]; intros n; simpl; [done | by rewrite IH]. Qed.

Lemma le_value_le_bytes w n : le_value (le_bytes w n) = n mod 256 ^ N.of_nat w.
Proof.
  revert n. induction w as [|w IH]; intros n.
  - simpl. by rewrite N.mod_1_r.
  - cbn [le_bytes le_value]. rewrite IH.
    rewrite N_ascii_embedding by (apply N.mod_upper_bound; lia).
    rewrite Nat2N.inj_succ, N.pow_succ_r'.
    rewrite (N.Div0.mod_mul_r n 256 (256 ^ N.of_nat w)). lia.
Qed.

Lemma length_be_bytes w n : length (be_bytes w n) = w.
Proof. unfold be_bytes. by rewrite length_rev, length_le_bytes. Qed.

Lemma be_value_be_bytes w n : n < 256 ^ N.of_nat w -> be_value (be_bytes w n) = n.
Proof.
  intros Hn. unfold be_value, be_bytes.
  rewrite rev_involutive, le_value_le_bytes. by apply N.mod_small.
Qed.

Lemma read_native64_native64 n : is_uint64 n -> read_native64 (native64 n) = n.
Proof.
  intros Hn. unfold read_native64, native64. rewrite le_value_le_bytes.
  apply N.mod_small. exact Hn.
Qed.

Lemma unpack_raw_app x rest :
  unpack_raw (length x) (unpacker_of (x ++ rest)) = (x, unpacker_of rest).
Proof.
  unfold unpack_raw, unpacker_of. cbn [failed remain orb].
  destruct (Nat.ltb_spec (length (x ++ rest)) (length x)) as [H|H].
  - rewrite length_app in H. lia.
  - by rewrite take_app_length, drop_app_length.
Qed.

Lemma unpack_uint8_pack n rest :
  n < 256 -> unpack_uint8 (unpacker_of (pack_uint8 n ++ rest)) = (n, unpacker_of rest).
Proof.
  intros Hn. unfold unpack_uint8, pack_uint8.
  rewrite <- (length_be_bytes 1 n) at 1. rewrite unpack_raw_app.
  by rewrite be_value_be_bytes.
Qed.

Lemma unpack_uint64_pack n rest :
  is_uint64 n ->
  unpack_uint64 (unpacker_of (pack_uint64 n ++ rest)) = (n, unpacker_of rest).
Proof.
  intros Hn. unfold unpack_uint64, pack_uint64.
  rewrite <- (length_be_bytes 8 n) at 1. rewrite unpack_raw_app.
  by rewrite be_value_be_bytes.
Qed.

Lemma unpack_slice_pack s rest :
  is_slice s ->
  unpack_slice (unpacker_of (pack_slice s ++ rest)) = (s, unpacker_of rest).
Proof.
  intros Hs. unfold unpack_slice, pack_slice. rewrite <- app_assoc.
  rewrite <- (length_be_bytes 4 (N.of_nat (length s))) at 1. rewrite unpack_raw_app.
  rewrite be_value_be_bytes by exact Hs.
  rewrite Nat2N.id. apply unpack_raw_app.
Qed.

Lemma unpack_ballot_pack x rest :
  is_ballot x ->
  unpack_ballot (unpacker_of (pack_ballot x ++ rest)) = (x, unpacker_of rest).
Proof.
  intros [Hn Hl]. unfold unpack_ballot, pack_ballot. rewrite <- app_assoc.
  rewrite unpack_uint64_pack by done. rewrite unpack_uint64_pack by done.
  by destruct x.
Qed.

Lemma unpack_pvalue_pack p rest :
  is_pvalue p ->
  unpack_pvalue (unpacker_of (pack_pvalue p ++ rest)) = (p, unpacker_of rest).
Proof.
  intros [Hb Hs]. unfold unpack_pvalue, pack_pvalue. rewrite <- app_assoc.
  rewrite unpack_ballot_pack by done. rewrite unpack_slice_pack by done.
  by destruct p.
Qed.

(** ** The acceptor *)

Lemma db_Get_frame k ldb st val ldb' :
  db_Get k ldb = (st, val, ldb') ->
  data ldb' = data ldb /\ durable ldb' = durable ldb /\
  io_error ldb' = io_error ldb /\ ops ldb' = S (ops ldb).
Proof.
  unfold db_Get. destruct (io_error ldb (ops ldb)); [| destruct (data ldb !! k)];
    intros [= <- <- <-]; done.
Qed.

Ltac break_let :=
  match goal with
  | |- context [let '(_, _) := ?x in _] => destruct x eqn:?
  end.

Ltac break_if :=
  match goal with
  | |- context [if ?x then _ else _] => destruct x eqn:?
  end.

Ltac use_db_Get :=
  repeat match goal with
         | H : db_Get _ _ = _ |- _ =>
             apply db_Get_frame in H; cbn [db set_db] in H;
             destruct H as (? & ? & ? & ?)
         end.

(** Loading the acceptor state reads the store and touches nothing else. *)
Lemma get_acceptor_state_frame k d rc st d1 :
  get_acceptor_state k d = Ok (rc, st, d1) ->
  d1 = set_db (db d1) d /\
  data (db d1) = data (db d) /\ durable (db d1) = durable (db d) /\
  io_error (db d1) = io_error (db d) /\ (ops (db d) < ops (db d1))%nat.
Proof.
  unfold get_acceptor_state.
  repeat first [ break_let | break_if | progress cbn [rbind] ];
  intros ?; simplify_eq; use_db_Get; cbn [db set_db];
  (split; [reflexivity | repeat split; congruence || lia]).
Qed.

Lemma ballot_eq_true x y : ballot_eq x y = true <-> x = y.
Proof.
  unfold ballot_eq. rewrite andb_true_iff, !N.eqb_eq.
  destruct x, y; cbn. split; [intros [-> ->]; done | intros [= -> ->]; done].
Qed.

Lemma db_Put_ok sync k val ldb :
  io_error ldb (ops ldb) = false ->
  db_Put sync k val ldb =
    (StOk, {| data := <[k := val]> (data ldb);
              durable := if sync then <[k := val]> (data ldb) else durable ldb;
              io_error := io_error ldb; ops := S (ops ldb) |}).
Proof. intros H. unfold db_Put. by rewrite H. Qed.

Lemma db_Put_fails sync k val ldb :
  io_error ldb (ops ldb) = true ->
  db_Put sync k val ldb =
    (StIOError, {| data := data ldb; durable := durable ldb;
                   io_error := io_error ldb; ops := S (ops ldb) |}).
Proof. intros H. unfold db_Put. by rewrite H. Qed.

(** Every run of [process_phase1a] on a well-formed message that gets as
    far as the reply is undefined: the state is loaded, the promise, if one
    is made, is put, and the reply is then packed from the freed key. *)
Lemma process_phase1a_undefined c k ver b d st d1 :
  is_slice k -> is_uint64 ver -> is_ballot b ->
  get_acceptor_state k d = Ok (POCDB_SUCCESS, st, d1) ->
  io_error (db d1) (ops (db d1)) = false ->
  process_phase1a c (unpacker_of (pack_slice k ++ pack_uint64 ver ++ pack_ballot b)) d
  = Undefined.
Proof.
  intros Hk Hver Hb Hload Hio. destruct st as [[cur_ver cur_b] cur_v].
  unfold process_phase1a.
  rewrite <- (app_nil_r (pack_ballot b)).
  rewrite unpack_slice_pack, unpack_uint64_pack, unpack_ballot_pack by done.
  cbn [error unpacker_of failed]. rewrite Hload. cbn [rbind].
  change (negb (returncode_eqb POCDB_SUCCESS POCDB_SUCCESS)) with false. cbv iota.
  destruct (_ && _); [| done].
  unfold save_acceptor_state. rewrite db_Put_ok by done. reflexivity.
Qed.

Lemma process_phase2a_undefined c k ver b v d st d1 :
  is_slice k -> is_uint64 ver -> is_ballot b -> is_pvalue v ->
  get_acceptor_state k d = Ok (POCDB_SUCCESS, st, d1) ->
  io_error (db d1) (ops (db d1)) = false ->
  process_phase2a c
    (unpacker_of (pack_slice k ++ pack_uint64 ver ++ pack_ballot b ++ pack_pvalue v)) d
  = Undefined.
Proof.
  intros Hk Hver Hb Hv Hload Hio. destruct st as [[cur_ver cur_b] cur_v].
  unfold process_phase2a.
  rewrite <- (app_nil_r (pack_pvalue v)).
  rewrite unpack_slice_pack, unpack_uint64_pack, unpack_ballot_pack,
    unpack_pvalue_pack by done.
  cbn [error unpacker_of failed]. rewrite Hload. cbn [rbind].
  change (negb (returncode_eqb POCDB_SUCCESS POCDB_SUCCESS)) with false. cbv iota.
  destruct (_ && _); [| done].
  unfold save_acceptor_state. rewrite db_Put_ok by done. reflexivity.
Qed.

(** C3 (the code does not do this).  Daemon [HOSTB], with an empty store
    that works, handles the phase-1a message [("x", 0, (5000, HOSTA))] from
    [HOSTA].  The handler loads the acceptor state and puts the promise;
    its reply is then packed from the key [k], a view into the received
    buffer that [msg.reset] has just deleted: the behaviour is undefined
    where the claim has the phase-1b reply.  The same holds of every
    well-formed phase-1a message for which the state is loaded with
    [POCDB_SUCCESS] and the put, if there is one, does not fail: whether or
    not the ballot is accepted. *)
Theorem process_phase1a_reply_undefined :
  process_phase1a HOSTA
    (unpacker_of (pack_slice (str "x") ++ pack_uint64 0 ++ pack_ballot ballotA))
    (fresh_daemon HOSTB 0) = Undefined /\
  (forall c k ver b d st d1,
     is_slice k -> is_uint64 ver -> is_ballot b ->
     get_acceptor_state k d = Ok (POCDB_SUCCESS, st, d1) ->
     io_error (db d1) (ops (db d1)) = false ->
     process_phase1a c
       (unpacker_of (pack_slice k ++ pack_uint64 ver ++ pack_ballot b)) d
     = Undefined).
Proof.
  split; [| exact process_phase1a_undefined].
  eapply (process_phase1a_undefined HOSTA (str "x") 0 ballotA).
  - unfold is_slice. reflexivity.
  - unfold is_uint64. reflexivity.
  - split; reflexivity.
  - vm_compute. reflexivity.
  - reflexivity.
Qed.

(** C4 (the code does not do this).  Daemon [HOSTB], whose acceptor for
    ["x"] has stored the promise of [(5000, HOSTA)] at version 1, handles
    the phase-2a message [("x", 1, (5000, HOSTA), ((5000, HOSTA), "1"))] from
    [HOSTA], which matches what it loads, and the phase-2a message for
    version 2, which does not.  In the first case the handler puts the
    record and then packs the phase-2b reply from the key [k], in the
    second it packs the retry reply from it; [k] is a view into the
    received buffer that [msg.reset] has just deleted, so the behaviour is
    undefined where the claim has the reply [B(k, ver, b)] or [R(k)].  The
    same holds of every well-formed phase-2a message for which the state is
    loaded with [POCDB_SUCCESS] and the put, if there is one, does not
    fail. *)
Theorem process_phase2a_reply_undefined :
  get_acceptor_state (str "x") promised_daemon =
    Ok (POCDB_SUCCESS, (1, ballotA, pvalue0),
        set_db {| data := data (db promised_daemon);
                  durable := durable (db promised_daemon);
                  io_error := fun _ => false; ops := 3 |} promised_daemon) /\
  process_phase2a HOSTA
    (unpacker_of (pack_slice (str "x") ++ pack_uint64 1 ++ pack_ballot ballotA ++
                  pack_pvalue pvalueA))
    promised_daemon = Undefined /\
  process_phase2a HOSTA
    (unpacker_of (pack_slice (str "x") ++ pack_uint64 2 ++ pack_ballot ballotA ++
                  pack_pvalue pvalueA))
    promised_daemon = Undefined /\
  (forall c k ver b v d st d1,
     is_slice k -> is_uint64 ver -> is_ballot b -> is_pvalue v ->
     get_acceptor_state k d = Ok (POCDB_SUCCESS, st, d1) ->
     io_error (db d1) (ops (db d1)) = false ->
     process_phase2a c
       (unpacker_of (pack_slice k ++ pack_uint64 ver ++ pack_ballot b ++
                     pack_pvalue v)) d
     = Undefined).
Proof.
  split; [vm_compute; reflexivity |].
  split; [vm_compute; reflexivity |].
  split; [vm_compute; reflexivity |].
  exact process_phase2a_undefined.
Qed.

(** ** The learner and the get path *)

Lemma process_learn_stores c k ver v d :
  is_slice k -> is_uint64 ver -> is_slice v ->
  io_error (db d) (ops (db d)) = false ->
  process_learn c (unpacker_of (pack_slice k ++ pack_uint64 ver ++ pack_slice v)) d =
    set_db {| data := <[k ++ str "L" := learned_record v ver]> (data (db d));
              durable := <[k ++ str "L" := learned_record v ver]> (data (db d));
              io_error := io_error (db d); ops := S (ops (db d)) |} d.
Proof.
  intros Hk Hver Hv Hio. unfold process_learn.
  rewrite <- (app_nil_r (pack_slice v)).
  rewrite unpack_slice_pack, unpack_uint64_pack, unpack_slice_pack by done.
  cbn [error unpacker_of failed]. by rewrite db_Put_ok.
Qed.

(** The learner never hands a message to BusyBee. *)
Lemma process_learn_silent c up d : sent (process_learn c up d) = sent d.
Proof.
  unfold process_learn. repeat break_let. destruct (error _); [done |].
  by destruct (db_Put _ _ _ _).
Qed.

Lemma process_get_reply c k d :
  is_slice k ->
  process_get c (unpacker_of (pack_slice k)) d =
    let '(st, val, ldb) := db_Get (k ++ str "L") (db d) in
    busybee_send c
      (msg_get_reply
         (if status_IsNotFound st then POCDB_NOT_FOUND
          else if status_ok st then POCDB_SUCCESS else POCDB_SERVER_ERROR)
         (if (8 <? length val)%nat then take (length val - 8) val else val))
      (set_db ldb d).
Proof.
  intros Hk. unfold process_get.
  rewrite <- (app_nil_r (pack_slice k)), unpack_slice_pack by done.
  reflexivity.
Qed.

(** Where the round trip of C8 does hold: a learned value that is not empty
    comes back from the get path with its version suffix stripped. *)
Lemma get_after_learn c c' k ver v d :
  is_slice k -> is_uint64 ver -> is_slice v -> v <> [] ->
  io_error (db d) (ops (db d)) = false ->
  io_error (db d) (S (ops (db d))) = false ->
  sent (process_get c (unpacker_of (pack_slice k))
          (process_learn c' (unpacker_of (pack_slice k ++ pack_uint64 ver ++ pack_slice v)) d))
  = sent d ++ [(c, msg_get_reply POCDB_SUCCESS v)].
Proof.
  intros Hk Hver Hv Hne Hio0 Hio1.
  rewrite process_learn_stores, process_get_reply by done.
  unfold db_Get. cbn [set_db db io_error ops data]. rewrite Hio1.
  rewrite lookup_insert_eq. cbn [status_IsNotFound status_ok busybee_send sent].
  unfold learned_record. rewrite length_app.
  replace (length (native64 ver)) with 8%nat by (symmetry; apply length_le_bytes).
  destruct (Nat.ltb_spec 8 (length v + 8)) as [_|Hlen].
  - replace (length v + 8 - 8)%nat with (length v) by lia.
    by rewrite take_app_length.
  - destruct v; [done | simpl in Hlen; lia].
Qed.

Lemma learned_version_record v ver :
  is_uint64 ver -> learned_version (learned_record v ver) = ver.
Proof.
  intros Hver. unfold learned_version, learned_record.
  rewrite length_app.
  replace (length (native64 ver)) with 8%nat by (symmetry; apply length_le_bytes).
  replace (length v + 8 - 8)%nat with (length v) by lia.
  rewrite drop_app_length. by apply read_native64_native64.
Qed.

(** Whatever version the store holds for [k], after a learn message for
    [(k, ver, v)] whose [Put] succeeds it holds [ver]. *)
Lemma process_learn_version c k ver v d :
  is_slice k -> is_uint64 ver -> is_slice v ->
  io_error (db d) (ops (db d)) = false ->
  learned_version <$>
    data (db (process_learn c
                (unpacker_of (pack_slice k ++ pack_uint64 ver ++ pack_slice v)) d))
      !! (k ++ str "L")
  = Some ver.
Proof.
  intros Hk Hver Hv Hio. rewrite process_learn_stores by done.
  cbn [set_db db data]. rewrite lookup_insert_eq. cbn [fmap option_fmap option_map].
  by rewrite learned_version_record.
Qed.

(** C1 (the code does not do this).  The learner stores every learn message
    unconditionally: after learning version 5 for ["x"], a learn message for
    version 3 replaces the record, and the stored version goes from 5 back
    to 3. *)
Theorem process_learn_rolls_back :
  exists d1 d2,
    run [(HOSTA, msg_learn (str "x") 5 (str "new"))] (fresh_daemon HOSTB 0) = Ok d1 /\
    run [(HOSTC, msg_learn (str "x") 3 (str "old"))] d1 = Ok d2 /\
    data (db d1) !! (str "x" ++ str "L") = Some (learned_record (str "new") 5) /\
    data (db d2) !! (str "x" ++ str "L") = Some (learned_record (str "old") 3) /\
    learned_version (learned_record (str "new") 5) = 5 /\
    learned_version (learned_record (str "old") 3) = 3.
Proof.
  do 2 eexists. split; [vm_compute; reflexivity |].
  split; [vm_compute; reflexivity |].
  repeat split; vm_compute; reflexivity.
Qed.

(** C8 (the code does not do this for the empty value).  After the learner
    stores the empty value for ["x"] at version 7, the get path replies
    [SUCCESS] with the eight bytes of the version suffix, not with the empty
    value: the suffix is stripped only from records longer than eight
    bytes. *)
Theorem get_after_learn_empty_value :
  exists d,
    run [(HOSTA, msg_learn (str "x") 7 []); (77, msg_get (str "x"))]
        (fresh_daemon HOSTB 0) = Ok d /\
    sent d = [(77, msg_get_reply POCDB_SUCCESS (native64 7))] /\
    msg_get_reply POCDB_SUCCESS (native64 7) <> msg_get_reply POCDB_SUCCESS [].
Proof.
  eexists. split; [vm_compute; reflexivity |].
  split; [vm_compute; reflexivity | vm_compute; discriminate].
Qed.

(** ** Storage failures *)

Lemma get_acceptor_state_get_fails k d :
  io_error (db d) (ops (db d)) = true ->
  exists d1, get_acceptor_state k d = Ok (POCDB_SERVER_ERROR, (0, ballot0, pvalue0), d1) /\
             sent d1 = sent d /\ data (db d1) = data (db d).
Proof.
  intros Hio. unfold get_acceptor_state, db_Get. rewrite Hio.
  cbn [status_IsNotFound status_ok negb]. eexists. split; [reflexivity | done].
Qed.

Lemma process_phase1a_get_fails c up d :
  io_error (db d) (ops (db d)) = true ->
  exists d', process_phase1a c up d = Ok d' /\
             sent d' = sent d /\ data (db d') = data (db d).
Proof.
  intros Hio. unfold process_phase1a. repeat break_let.
  destruct (error _); [by eexists |].
  destruct (get_acceptor_state_get_fails l d Hio) as (d1 & -> & Hs & Hd).
  cbn. by eexists.
Qed.

Lemma process_phase2a_get_fails c up d :
  io_error (db d) (ops (db d)) = true ->
  exists d', process_phase2a c up d = Ok d' /\
             sent d' = sent d /\ data (db d') = data (db d).
Proof.
  intros Hio. unfold process_phase2a. repeat break_let.
  destruct (error _); [by eexists |].
  destruct (get_acceptor_state_get_fails l d Hio) as (d1 & -> & Hs & Hd).
  cbn. by eexists.
Qed.

Lemma process_phase1a_put_fails c k ver b d cur_ver cur_b cur_v d1 :
  is_slice k -> is_uint64 ver -> is_ballot b ->
  get_acceptor_state k d = Ok (POCDB_SUCCESS, (cur_ver, cur_b, cur_v), d1) ->
  c = leader b -> ballot_gt b cur_b = true -> cur_ver <= ver ->
  io_error (db d1) (ops (db d1)) = true ->
  exists d', process_phase1a c
               (unpacker_of (pack_slice k ++ pack_uint64 ver ++ pack_ballot b)) d = Ok d' /\
             sent d' = sent d /\ data (db d') = data (db d).
Proof.
  intros Hk Hver Hb Hload Hc Hgt Hle Hio.
  destruct (get_acceptor_state_frame _ _ _ _ _ Hload) as (Hd1 & Hdata & _).
  unfold process_phase1a.
  rewrite <- (app_nil_r (pack_ballot b)).
  rewrite unpack_slice_pack, unpack_uint64_pack, unpack_ballot_pack by done.
  cbn [error unpacker_of failed]. rewrite Hload. cbn [rbind].
  change (negb (returncode_eqb POCDB_SUCCESS POCDB_SUCCESS)) with false. cbv iota.
  rewrite (proj2 (N.eqb_eq _ _) Hc), Hgt, (proj2 (N.leb_le _ _) Hle). cbn [andb].
  unfold save_acceptor_state. rewrite db_Put_fails by done. cbn [status_ok negb].
  change (negb (returncode_eqb POCDB_SERVER_ERROR POCDB_SUCCESS)) with true. cbv iota.
  eexists. split; [reflexivity |]. cbn [set_db sent db data].
  split; [by rewrite Hd1 | done].
Qed.

Lemma process_phase2a_put_fails c k ver b v d cur_v d1 :
  is_slice k -> is_uint64 ver -> is_ballot b -> is_pvalue v ->
  get_acceptor_state k d = Ok (POCDB_SUCCESS, (ver, b, cur_v), d1) ->
  io_error (db d1) (ops (db d1)) = true ->
  exists d', process_phase2a c
               (unpacker_of (pack_slice k ++ pack_uint64 ver ++ pack_ballot b ++
                             pack_pvalue v)) d = Ok d' /\
             sent d' = sent d /\ data (db d') = data (db d).
Proof.
  intros Hk Hver Hb Hv Hload Hio.
  destruct (get_acceptor_state_frame _ _ _ _ _ Hload) as (Hd1 & Hdata & _).
  unfold process_phase2a.
  rewrite <- (app_nil_r (pack_pvalue v)).
  rewrite unpack_slice_pack, unpack_uint64_pack, unpack_ballot_pack,
    unpack_pvalue_pack by done.
  cbn [error unpacker_of failed]. rewrite Hload. cbn [rbind].
  change (negb (returncode_eqb POCDB_SUCCESS POCDB_SUCCESS)) with false. cbv iota.
  rewrite N.eqb_refl, (proj2 (ballot_eq_true b b) eq_refl). cbn [andb].
  unfold save_acceptor_state. rewrite db_Put_fails by done. cbn [status_ok negb].
  change (negb (returncode_eqb POCDB_SERVER_ERROR POCDB_SUCCESS)) with true. cbv iota.
  eexists. split; [reflexivity |]. cbn [set_db sent db data].
  split; [by rewrite Hd1 | done].
Qed.

Lemma process_get_get_fails c k d :
  is_slice k ->
  io_error (db d) (ops (db d)) = true ->
  sent (process_get c (unpacker_of (pack_slice k)) d) =
    sent d ++ [(c, msg_get_reply POCDB_SERVER_ERROR [])].
Proof.
  intros Hk Hio. rewrite process_get_reply by done.
  unfold db_Get. rewrite Hio. reflexivity.
Qed.

(** C9 as stated fails on the get path: with a store whose [Get] fails,
    the handler of a get message still sends a reply, which carries
    [POCDB_SERVER_ERROR]. *)
Lemma process_get_not_silent :
  io_error (db broken_daemon) (ops (db broken_daemon)) = true /\
  sent broken_daemon = [] /\
  sent (process_get 77 (unpacker_of (pack_slice (str "x"))) broken_daemon) =
    [(77, msg_get_reply POCDB_SERVER_ERROR [])] /\
  ~ silent_on_storage_failure (fun c up d => Ok (process_get c up d)).
Proof.
  split; [reflexivity |]. split; [reflexivity |]. split; [reflexivity |].
  intros H.
  specialize (H 77 (unpacker_of (pack_slice (str "x"))) broken_daemon _ eq_refl).
  assert (Hfail : db_op_failed broken_daemon
            (process_get 77 (unpacker_of (pack_slice (str "x"))) broken_daemon)).
  { exists 0%nat. split; [vm_compute; lia | reflexivity]. }
  specialize (H Hfail). vm_compute in H. discriminate H.
Qed.

(** C9, amended.  In the phase-1a and phase-2a handlers a failed [Get] of the
    acceptor record, or a failed [Put] of it, ends the handler with no
    message sent and the store's contents as they were; the learn handler
    sends no message at all, so none when its [Put] fails; the get path does
    reply when its [Get] fails, with [POCDB_SERVER_ERROR] and an empty
    value. *)
Theorem storage_failure_replies :
  (forall c up d, io_error (db d) (ops (db d)) = true ->
     exists d', process_phase1a c up d = Ok d' /\
                sent d' = sent d /\ data (db d') = data (db d)) /\
  (forall c k ver b d cur_ver cur_b cur_v d1,
     is_slice k -> is_uint64 ver -> is_ballot b ->
     get_acceptor_state k d = Ok (POCDB_SUCCESS, (cur_ver, cur_b, cur_v), d1) ->
     c = leader b -> ballot_gt b cur_b = true -> cur_ver <= ver ->
     io_error (db d1) (ops (db d1)) = true ->
     exists d', process_phase1a c
                  (unpacker_of (pack_slice k ++ pack_uint64 ver ++ pack_ballot b)) d
                = Ok d' /\
                sent d' = sent d /\ data (db d') = data (db d)) /\
  (forall c up d, io_error (db d) (ops (db d)) = true ->
     exists d', process_phase2a c up d = Ok d' /\
                sent d' = sent d /\ data (db d') = data (db d)) /\
  (forall c k ver b v d cur_v d1,
     is_slice k -> is_uint64 ver -> is_ballot b -> is_pvalue v ->
     get_acceptor_state k d = Ok (POCDB_SUCCESS, (ver, b, cur_v), d1) ->
     io_error (db d1) (ops (db d1)) = true ->
     exists d', process_phase2a c
                  (unpacker_of (pack_slice k ++ pack_uint64 ver ++ pack_ballot b ++
                                pack_pvalue v)) d
                = Ok d' /\
                sent d' = sent d /\ data (db d') = data (db d)) /\
  (forall c up d, sent (process_learn c up d) = sent d) /\
  (forall c k d, is_slice k -> io_error (db d) (ops (db d)) = true ->
     sent (process_get c (unpacker_of (pack_slice k)) d) =
       sent d ++ [(c, msg_get_reply POCDB_SERVER_ERROR [])]).
Proof.
  split; [exact process_phase1a_get_fails |].
  split; [exact process_phase1a_put_fails |].
  split; [exact process_phase2a_get_fails |].
  split; [exact process_phase2a_put_fails |].
  split; [exact process_learn_silent | exact process_get_get_fails].
Qed.

Lemma storage_failure_replies_witness :
  (exists d', process_phase1a HOSTA
                (unpacker_of (pack_slice (str "x") ++ pack_uint64 1 ++
                              pack_ballot ballotA))
                broken_daemon = Ok d' /\
              sent d' = sent broken_daemon /\
              data (db d') = data (db broken_daemon)) /\
  sent (process_get 77 (unpacker_of (pack_slice (str "x"))) broken_daemon) =
    sent broken_daemon ++ [(77, msg_get_reply POCDB_SERVER_ERROR [])].
Proof.
  destruct storage_failure_replies as (H1a & _ & _ & _ & _ & Hget).
  split.
  - apply H1a. reflexivity.
  - apply Hget; [unfold is_slice | ]; reflexivity.
Defined.

(** ** The write state machine *)

Lemma ballot_gt_ballot0 x : ballot_gt ballot0 x = false.
Proof.
  unfold ballot_gt, ballot_lt, ballot0. cbn [number leader].
  destruct (N.ltb_spec (number x) 0); [lia |].
  destruct (N.ltb_spec (leader x) 0); [lia |].
  by rewrite andb_false_r.
Qed.

Lemma send_to_hosts_all m d :
  send_to_hosts [] m d =
    busybee_send HOSTE m (busybee_send HOSTD m (busybee_send HOSTC m
      (busybee_send HOSTB m (busybee_send HOSTA m d)))).
Proof. reflexivity. Qed.

Lemma sent_send_to_hosts_all m d :
  sent (send_to_hosts [] m d) = sent d ++ map (fun h => (h, m)) HOSTS.
Proof.
  rewrite send_to_hosts_all. cbn [busybee_send sent HOSTS map].
  by rewrite <- !app_assoc.
Qed.

(** An idle machine stays idle. *)
Lemma work_state_machine_idle n s d :
  executing_paxos s = false -> values s = [] ->
  work_state_machine (S n) s d = Ok (s, d).
Proof.
  intros He Hv. cbn [work_state_machine]. unfold finished. by rewrite He, Hv.
Qed.

(** A machine with a queued write and no round in flight starts a round and
    broadcasts phase 1a; it does not re-enter. *)
Lemma work_state_machine_start n s d c0 v0 rest :
  executing_paxos s = false -> values s = (c0, v0) :: rest ->
  exists s' d',
    start_round s d = Ok (s', d') /\
    executing_paxos s' = true /\ values s' = values s /\
    work_state_machine (S n) s d =
      Ok (s', send_to_hosts [] (msg_phase1a (key s') (version s') (leading s')) d').
Proof.
  intros He Hv. cbn [work_state_machine]. unfold finished, start_round.
  rewrite He, Hv. cbn [negb andb wallclock_time].
  do 2 eexists. split; [reflexivity |]. split; [reflexivity |].
  split; [done |]. cbn [rbind max_accepted pv_b promises length].
  by rewrite ballot_gt_ballot0.
Qed.

Lemma work_state_machine_not_executing n s d :
  executing_paxos s = false ->
  work_state_machine (S n) s d = work_state_machine 1 s d /\
  exists s' d', work_state_machine (S n) s d = Ok (s', d') /\ wsm_inv s'.
Proof.
  intros He. destruct (values s) as [|[c0 v0] rest] eqn:Hv.
  - rewrite !work_state_machine_idle by done. split; [done |].
    do 2 eexists. split; [done |]. intros He'. congruence.
  - destruct (work_state_machine_start n s d c0 v0 rest He Hv)
      as (s' & d' & Hs & He' & Hv' & ->).
    destruct (work_state_machine_start 0 s d c0 v0 rest He Hv)
      as (s'' & d'' & Hs' & _ & _ & ->).
    rewrite Hs in Hs'. injection Hs' as <- <-. split; [done |].
    do 2 eexists. split; [done |]. intros _. rewrite Hv', Hv. done.
Qed.

(** One unfolding of the driver. *)
Lemma work_state_machine_S n s d :
  work_state_machine (S n) s d =
    if negb (executing_paxos s) && finished s then Ok (s, d)
    else
      do (s, d) <- (if negb (executing_paxos s) then start_round s d else Ok (s, d));
      if ballot_gt (pv_b (max_accepted s)) (leading s) then
        work_state_machine n (set_executing_paxos false s) d
      else if (length (promises s) <? QUORUM)%nat then
        Ok (s, send_to_hosts (promises s)
                 (msg_phase1a (key s) (version s) (leading s)) d)
      else if (length (accepted s) <? QUORUM)%nat then
        let s := set_max_accepted
                   {| pv_b := leading s; pv_v := pv_v (max_accepted s) |} s in
        Ok (s, send_to_hosts (accepted s)
                 (msg_phase2a (key s) (version s) (leading s) (max_accepted s)) d)
      else
        let d := send_to_hosts []
                   (msg_learn (key s) (version s) (pv_v (max_accepted s))) d in
        let s := set_version (incr64 (version s)) (set_executing_paxos false s) in
        match values s with
        | [] => Undefined
        | (c0, v0) :: rest =>
            if bytes_eqb (pv_v (max_accepted s)) v0
            then work_state_machine n (set_values rest s)
                   (busybee_send c0 (msg_put_reply POCDB_SUCCESS) d)
            else work_state_machine n s d
        end.
Proof. reflexivity. Qed.

(** Two units of fuel are all a call ever uses. *)
Lemma work_state_machine_fuel n s d :
  work_state_machine (S (S n)) s d = work_state_machine REENTRY s d.
Proof.
  unfold REENTRY.
  rewrite (work_state_machine_S (S n)), (work_state_machine_S 1).
  destruct (negb (executing_paxos s) && finished s); [done |].
  destruct (if negb (executing_paxos s) then start_round s d else Ok (s, d))
    as [[s1 d1]| |]; cbn [rbind]; try done.
  repeat break_if; try done.
  - by apply work_state_machine_not_executing.
  - cbv zeta. destruct (values _) as [|[c0 v0] rest]; [done |].
    destruct (bytes_eqb _ _); by apply work_state_machine_not_executing.
Qed.

(** A call never runs out of fuel, and on a machine that satisfies the queue
    invariant it neither reads the front of an empty queue: it returns, with
    the invariant kept. *)
Lemma work_state_machine_inv n s d :
  wsm_inv s ->
  exists s' d', work_state_machine (S (S n)) s d = Ok (s', d') /\ wsm_inv s'.
Proof.
  intros Hinv. destruct (executing_paxos s) eqn:He.
  - specialize (Hinv He). rewrite (work_state_machine_S (S n)), He.
    cbn [negb andb rbind].
    destruct (ballot_gt _ _).
    { by apply work_state_machine_not_executing. }
    destruct (_ <? _)%nat.
    { do 2 eexists. split; [done |]. intros _. done. }
    destruct (_ <? _)%nat.
    { do 2 eexists. split; [done |]. intros _. done. }
    cbv zeta. cbn [set_version set_executing_paxos values].
    destruct (values s) as [|[c0 v0] rest]; [done |].
    destruct (bytes_eqb _ _); by apply work_state_machine_not_executing.
  - by apply work_state_machine_not_executing.
Qed.

Lemma run_op_inv op s d :
  wsm_inv s -> exists s' d', run_op op s d = Ok (s', d') /\ wsm_inv s'.
Proof.
  intros Hinv. destruct op as [c v|c ver b v|c ver b|]; cbn [run_op].
  - unfold write, REENTRY. apply work_state_machine_inv.
    intros _. cbn [set_values values]. by destruct (values s).
  - unfold phase1b, REENTRY. destruct (_ || _).
    + apply work_state_machine_inv. intros He. discriminate He.
    + apply work_state_machine_inv. cbv zeta.
      destruct (_ && _); exact Hinv.
  - unfold phase2b, REENTRY. destruct (_ || _).
    + by do 2 eexists.
    + apply work_state_machine_inv. exact Hinv.
  - unfold retry, REENTRY. apply work_state_machine_inv.
    intros He. discriminate He.
Qed.

Lemma reachable_inv k s : reachable k s -> wsm_inv s.
Proof.
  induction 1 as [|s d op s' d' _ IH Hop].
  - intros He. discriminate He.
  - destruct (run_op_inv op s d IH) as (s'' & d'' & Hop' & Hinv).
    rewrite Hop in Hop'. by injection Hop' as <- <-.
Qed.

(** C10. In every state that the operations [write], [phase1b], [phase2b]
    and [retry] reach from a newly constructed machine, [executing_paxos]
    implies a non-empty queue; and every operation run in such a state
    returns: [work_state_machine] never reads the front of an empty queue
    (which the model reports as [Undefined]) and ends within its re-entry
    budget. *)
Theorem executing_paxos_queue_nonempty k s :
  reachable k s ->
  (executing_paxos s = true -> values s <> []) /\
  (forall op d, exists s' d', run_op op s d = Ok (s', d')).
Proof.
  intros Hr. pose proof (reachable_inv k s Hr) as Hinv. split; [exact Hinv |].
  intros op d. destruct (run_op_inv op s d Hinv) as (s' & d' & Hop & _).
  by do 2 eexists.
Qed.

Lemma executing_paxos_queue_nonempty_witness :
  (executing_paxos wsm_after_write = true -> values wsm_after_write <> []) /\
  (forall op d, exists s' d', run_op op wsm_after_write d = Ok (s', d')).
Proof.
  apply (executing_paxos_queue_nonempty (str "x")).
  eapply (reachable_op _ (new_write_state_machine (str "x"))
            (fresh_daemon HOSTA 5000) (OpWrite 77 (str "1"))).
  - apply reachable_new.
  - vm_compute. reflexivity.
Defined.

(** C5 as stated fails without a round in flight.  After one round for
    ["x"] (the promises of [phase1_ops], then accepts from [HOSTB], [HOSTD]
    and [HOSTE]) the machine is idle with both sets still at quorum; this is
    the state in which the decision step re-enters [work_state_machine].
    Run in that state, [work_state_machine] returns at once: no learn
    message, no change of [version]. *)
Lemma quorum_without_round :
  exists s d,
    run_ops (phase1_ops ++ [OpPhase2b HOSTB 1 ballotA;
                            OpPhase2b HOSTD 1 ballotA;
                            OpPhase2b HOSTE 1 ballotA])
      (new_write_state_machine (str "x")) (fresh_daemon HOSTA 5000) = Ok (s, d) /\
    promises s = [HOSTA; HOSTC; HOSTB; HOSTD; HOSTE] /\
    accepted s = [HOSTB; HOSTD; HOSTE] /\
    executing_paxos s = false /\
    values s = [] /\
    work_state_machine REENTRY s d = Ok (s, d).
Proof.
  do 2 eexists. split; [vm_compute; reflexivity |].
  repeat split; vm_compute; reflexivity.
Qed.

(** C5, amended.  When [work_state_machine] runs with a round in flight,
    [max_accepted.b] not above [leading], and both [promises] and [accepted]
    at quorum, it sends the learn message [(key, version, max_accepted.v)] to
    the five hosts, clears [executing_paxos] and increments [version]
    (modulo 2^64); if [max_accepted.v] equals the value at the head of the
    queue it sends [POCDB_SUCCESS] to that entry's client and pops the entry,
    otherwise the queue is left as it is; then it re-enters itself. *)
Theorem decision_step n s d c0 v0 rest :
  executing_paxos s = true ->
  ballot_gt (pv_b (max_accepted s)) (leading s) = false ->
  (QUORUM <= length (promises s))%nat ->
  (QUORUM <= length (accepted s))%nat ->
  values s = (c0, v0) :: rest ->
  let learn := msg_learn (key s) (version s) (pv_v (max_accepted s)) in
  let d1 := send_to_hosts [] learn d in
  let s1 := set_version (incr64 (version s)) (set_executing_paxos false s) in
  sent d1 = sent d ++ [(HOSTA, learn); (HOSTB, learn); (HOSTC, learn);
                       (HOSTD, learn); (HOSTE, learn)] /\
  (pv_v (max_accepted s) = v0 ->
   work_state_machine (S n) s d =
     work_state_machine n (set_values rest s1)
       (busybee_send c0 (msg_put_reply POCDB_SUCCESS) d1)) /\
  (pv_v (max_accepted s) <> v0 ->
   work_state_machine (S n) s d = work_state_machine n s1 d1).
Proof.
  intros He Hgt Hp Ha Hv learn d1 s1.
  split; [apply sent_send_to_hosts_all |].
  rewrite work_state_machine_S, He. cbn [negb andb rbind]. rewrite Hgt.
  rewrite (proj2 (Nat.ltb_ge _ _) Hp), (proj2 (Nat.ltb_ge _ _) Ha).
  cbv zeta. cbn [set_version set_executing_paxos values max_accepted].
  rewrite Hv. unfold bytes_eqb. split; intros Heq.
  - by rewrite bool_decide_eq_true_2.
  - by rewrite bool_decide_eq_false_2.
Qed.

Lemma wsm_at_quorum_reached :
  exists s0 d0,
    run_ops (phase1_ops ++ [OpPhase2b HOSTB 1 ballotA; OpPhase2b HOSTD 1 ballotA])
      (new_write_state_machine (str "x")) (fresh_daemon HOSTA 5000) = Ok (s0, d0) /\
    set_accepted (accepted s0 ++ [HOSTE]) s0 = wsm_at_quorum.
Proof. do 2 eexists. split; vm_compute; reflexivity. Qed.

Lemma decision_step_witness :
  work_state_machine REENTRY wsm_at_quorum (fresh_daemon HOSTA 9000) =
    work_state_machine 1
      (set_values []
         (set_version (incr64 1) (set_executing_paxos false wsm_at_quorum)))
      (busybee_send 77 (msg_put_reply POCDB_SUCCESS)
         (send_to_hosts [] (msg_learn (str "x") 1 (str "1"))
            (fresh_daemon HOSTA 9000))).
Proof.
  refine (proj1 (proj2 (decision_step 1 wsm_at_quorum (fresh_daemon HOSTA 9000)
                          77 (str "1") [] _ _ _ _ _)) _).
  - reflexivity.
  - reflexivity.
  - vm_compute. lia.
  - vm_compute. lia.
  - reflexivity.
  - reflexivity.
Defined.

(** C6 as stated fails for phase 1b.  The machine of [HOSTA] for ["x"] leads
    ballot [(5000, HOSTA)] at version 0; a phase-1b message for the older
    ballot [(4000, HOSTA)] is not dropped: the machine counts [HOSTB] as a
    promise for the ballot it leads and broadcasts phase 1a to the other
    four hosts. *)
Lemma stale_phase1b_counted :
  exists s' d',
    leading wsm_after_write = ballotA /\
    version wsm_after_write = 0 /\
    promises wsm_after_write = [] /\
    ballot_gt {| number := 4000; leader := HOSTA |} (leading wsm_after_write) = false /\
    phase1b HOSTB 0 {| number := 4000; leader := HOSTA |} pvalue0
      wsm_after_write (fresh_daemon HOSTA 9000) = Ok (s', d') /\
    promises s' = [HOSTB] /\
    s' <> wsm_after_write /\
    sent d' = map (fun h => (h, msg_phase1a (str "x") 0 ballotA))
                  [HOSTA; HOSTC; HOSTD; HOSTE].
Proof.
  do 2 eexists. split; [reflexivity |]. split; [reflexivity |].
  split; [reflexivity |]. split; [reflexivity |].
  split; [vm_compute; reflexivity |].
  split; [reflexivity |]. split; [discriminate | vm_compute; reflexivity].
Qed.

(** C6, amended.  A phase-2b message whose [(ver, b)] differs from
    [(version, leading)] changes nothing and sends nothing.  A phase-1b
    message is never dropped.  If it reports no higher ballot, and no higher
    version while [version] is not 0, the machine takes its version, takes
    its pvalue as [max_accepted] when that has a higher non-sentinel ballot,
    counts the sender as a promise and runs [work_state_machine], whether or
    not [(ver, b)] equals [(version, leading)].  If it reports a higher
    ballot, or a higher version while [version] is not 0, the machine
    abandons the round ([executing_paxos] cleared, version taken) and runs
    [work_state_machine]. *)
Theorem stale_replies c ver b v s d :
  (ver <> version s \/ b <> leading s -> phase2b c ver b s d = Ok (s, d)) /\
  (ballot_gt b (leading s) = false -> version s = 0 \/ ver <= version s ->
   phase1b c ver b v s d =
     work_state_machine REENTRY
       (set_promises (promises s ++ [c])
          (if ballot_ne (pv_b v) ballot0 && ballot_gt (pv_b v) (pv_b (max_accepted s))
           then set_max_accepted v (set_version ver s)
           else set_version ver s)) d) /\
  (ballot_gt b (leading s) = true \/ (version s <> 0 /\ version s < ver) ->
   phase1b c ver b v s d =
     work_state_machine REENTRY (set_version ver (set_executing_paxos false s)) d).
Proof.
  split; [| split].
  - intros Hne. unfold phase2b.
    destruct (N.eqb_spec ver (version s)) as [Hver|Hver]; [| done].
    destruct Hne as [Hne|Hne]; [done |].
    unfold ballot_ne. destruct (ballot_eq b (leading s)) eqn:Hb; [| done].
    by apply ballot_eq_true in Hb.
  - intros Hb Hver. unfold phase1b. rewrite Hb, orb_false_r.
    replace (negb (version s =? 0) && (version s <? ver)) with false.
    { cbv zeta. cbn [set_version max_accepted]. by destruct (_ && _). }
    symmetry. apply andb_false_iff.
    destruct Hver as [->|Hle]; [by left | right; by apply N.ltb_ge].
  - intros Hout. unfold phase1b.
    replace ((negb (version s =? 0) && (version s <? ver)) || ballot_gt b (leading s))
      with true; [done |].
    symmetry. apply orb_true_iff. destruct Hout as [->|[Hne Hlt]]; [by right | left].
    apply andb_true_iff. split; [| by apply N.ltb_lt].
    apply negb_true_iff. by apply N.eqb_neq.
Qed.

Lemma stale_replies_witness :
  phase2b HOSTB 3 {| number := 4000; leader := HOSTA |}
    wsm_after_write (fresh_daemon HOSTA 9000)
  = Ok (wsm_after_write, fresh_daemon HOSTA 9000) /\
  phase1b HOSTB 3 {| number := 4000; leader := HOSTA |} pvalue0
    wsm_after_write (fresh_daemon HOSTA 9000)
  = work_state_machine REENTRY
      (set_promises (promises wsm_after_write ++ [HOSTB])
         (set_version 3 wsm_after_write)) (fresh_daemon HOSTA 9000).
Proof.
  destruct (stale_replies HOSTB 3 {| number := 4000; leader := HOSTA |} pvalue0
              wsm_after_write (fresh_daemon HOSTA 9000)) as (H2b & H1b & _).
  split.
  - apply H2b. left. discriminate.
  - apply H1b; [reflexivity | left; reflexivity].
Defined.

(** ** The table of machines and the retry handler *)

Lemma send_to_hosts_writes skip m d : writes (send_to_hosts skip m d) = writes d.
Proof.
  unfold send_to_hosts. generalize HOSTS. intros l. revert d.
  induction l as [|h l IH]; intros d; [done |].
  cbn [foldl]. rewrite IH. by destruct (found h skip).
Qed.

Lemma work_state_machine_writes n s d s' d' :
  work_state_machine n s d = Ok (s', d') -> writes d' = writes d.
Proof.
  revert s d. induction n as [|n IH]; intros s d; [discriminate |].
  rewrite work_state_machine_S.
  destruct (negb (executing_paxos s) && finished s); [by intros [= <- <-] |].
  assert (Hstart : forall s1 d1,
    (if negb (executing_paxos s) then start_round s d else Ok (s, d)) = Ok (s1, d1) ->
    writes d1 = writes d).
  { intros s1 d1. destruct (negb (executing_paxos s)); [| by intros [= <- <-]].
    unfold start_round. destruct (values s) as [|[c0 v0] rest]; [discriminate |].
    cbn [wallclock_time]. by intros [= <- <-]. }
  destruct (if negb (executing_paxos s) then start_round s d else Ok (s, d))
    as [[s1 d1]| |]; cbn [rbind]; try discriminate.
  specialize (Hstart s1 d1 eq_refl). rewrite <- Hstart.
  repeat break_if.
  - apply IH.
  - intros [= <- <-]. apply send_to_hosts_writes.
  - intros [= <- <-]. apply send_to_hosts_writes.
  - cbv zeta. destruct (values _) as [|[c0 v0] rest]; [discriminate |].
    destruct (bytes_eqb _ _); intros H; apply IH in H; rewrite H;
      cbn [busybee_send writes]; apply send_to_hosts_writes.
Qed.

(** Whatever key a retry message carries, the handler works on the machine
    stored under the empty key and leaves every other machine alone. *)
Lemma process_retry_other_keys c up d d' k :
  process_retry c up d = Ok d' -> k <> [] -> writes d' !! k = writes d !! k.
Proof.
  unfold process_retry. destruct (error up); [by intros [= <-] |].
  unfold retry.
  destruct (work_state_machine _ _ _) as [[sm d1]| |] eqn:Hw; cbn [rbind];
    try discriminate.
  intros [= <-] Hk. apply work_state_machine_writes in Hw.
  unfold release_state. cbn [set_writes writes]. rewrite Hw.
  destruct (finished sm); [by rewrite lookup_delete_ne | by rewrite lookup_insert_ne].
Qed.

(** C7 (the code does not do this).  Daemon [HOSTA] has reached phase 2 for
    ["x"] at version 0 and receives the retry message for ["x"] from
    [HOSTB].  Handling that message leaves the machine for ["x"] as it is,
    [executing_paxos] still set and [version] still 0, and sends nothing:
    the handler never reads the key from the message. *)
Theorem process_retry_ignores_key :
  exists d s d',
    run [(77, msg_put (str "x") (str "1"));
         (HOSTA, msg_phase1b (str "x") 0 ballotA pvalue0);
         (HOSTB, msg_phase1b (str "x") 0 ballotA pvalue0);
         (HOSTC, msg_phase1b (str "x") 0 ballotA pvalue0)]
        (fresh_daemon HOSTA 5000) = Ok d /\
    writes d !! str "x" = Some s /\
    executing_paxos s = true /\ version s = 0 /\
    run_message HOSTB (msg_retry (str "x")) d = Ok d' /\
    writes d' !! str "x" = Some s /\
    sent d' = sent d.
Proof.
  do 3 eexists. split; [vm_compute; reflexivity |].
  split; [vm_compute; reflexivity |].
  split; [reflexivity |]. split; [reflexivity |].
  split; [vm_compute; reflexivity |].
  split; vm_compute; reflexivity.
Qed.

(** C2 (the code does not do this).  Machine of [HOSTA] for ["x"]: after
    [phase1_ops] it has broadcast phase 2a three times, on the third, fourth
    and fifth promise, so three phase-2a messages have gone to [HOSTB].
    The three phase-2b messages that answer them, all from [HOSTB], make
    [accepted] three entries long, and the learn message goes to the five
    hosts and [POCDB_SUCCESS] to the client with one distinct host in
    [accepted]. *)
Theorem learn_on_repeated_accepts :
  exists s0 d0 s d,
    run_ops (phase1_ops ++ [OpPhase2b HOSTB 1 ballotA; OpPhase2b HOSTB 1 ballotA])
      (new_write_state_machine (str "x")) (fresh_daemon HOSTA 5000) = Ok (s0, d0) /\
    length (filter (fun m => m = (HOSTB, msg_phase2a (str "x") 1 ballotA pvalueA))
                   (sent d0)) = 3%nat /\
    executing_paxos s0 = true /\
    accepted s0 = [HOSTB; HOSTB] /\
    phase2b HOSTB 1 ballotA s0 d0 = Ok (s, d) /\
    accepted s = [HOSTB; HOSTB; HOSTB] /\
    distinct_hosts (accepted s) = [HOSTB] /\
    sent d = sent d0 ++
      map (fun h => (h, msg_learn (str "x") 1 (str "1"))) HOSTS ++
      [(77, msg_put_reply POCDB_SUCCESS)].
Proof.
  do 4 eexists. split; [vm_compute; reflexivity |].
  repeat split; vm_compute; reflexivity.
Qed.

(** * Further properties of the code *)

(** ** The order on ballots *)

Lemma ballot_lt_irrefl x : ballot_lt x x = false.
Proof.
  unfold ballot_lt. rewrite !N.ltb_irrefl. by rewrite andb_false_r.
Qed.

Lemma ballot_lt_spec x y :
  ballot_lt x y = true <->
  number x < number y \/ (number x = number y /\ leader x < leader y).
Proof.
  unfold ballot_lt.
  rewrite orb_true_iff, andb_true_iff, !N.ltb_lt, N.eqb_eq. tauto.
Qed.

Lemma ballot_lt_trans x y z :
  ballot_lt x y = true -> ballot_lt y z = true -> ballot_lt x z = true.
Proof. rewrite !ballot_lt_spec. lia. Qed.

Lemma ballot_trichotomy x y :
  ballot_lt x y = true \/ x = y \/ ballot_gt x y = true.
Proof.
  unfold ballot_gt. rewrite !ballot_lt_spec.
  destruct x as [nx lx], y as [ny ly]. cbn [number leader].
  destruct (N.lt_total nx ny) as [H|[H|H]]; [lia | | lia].
  destruct (N.lt_total lx ly) as [H'|[H'|H']]; [lia | | lia].
  right. left. by subst.
Qed.

(** X1. [operator<] on ballots is a strict total order, lexicographic on
    [(number, leader)]: it is irreflexive and transitive, any two ballots
    are related by [<], [==] or [>], and [<] excludes both [==] and [>];
    [!=] is the negation of equality. *)
Theorem ballot_strict_total_order :
  (forall x, ballot_lt x x = false) /\
  (forall x y z, ballot_lt x y = true -> ballot_lt y z = true -> ballot_lt x z = true) /\
  (forall x y, ballot_lt x y = true \/ x = y \/ ballot_gt x y = true) /\
  (forall x y, ballot_lt x y = true -> ballot_eq x y = false /\ ballot_gt x y = false) /\
  (forall x y, ballot_ne x y = true <-> x <> y).
Proof.
  split; [exact ballot_lt_irrefl |]. split; [exact ballot_lt_trans |].
  split; [exact ballot_trichotomy |]. split.
  - intros x y Hlt. split.
    + destruct (ballot_eq x y) eqn:He; [| done].
      apply ballot_eq_true in He. subst. by rewrite ballot_lt_irrefl in Hlt.
    + unfold ballot_gt. destruct (ballot_lt y x) eqn:Hgt; [| done].
      pose proof (ballot_lt_trans _ _ _ Hlt Hgt) as H.
      by rewrite ballot_lt_irrefl in H.
  - intros x y. unfold ballot_ne. rewrite negb_true_iff.
    rewrite <- not_true_iff_false, ballot_eq_true. done.
Qed.

(** X2. The value-initialised ballot [ballot()] is the least one: no ballot
    is below it and every other ballot is above it. *)
Theorem ballot0_least x :
  ballot_lt x ballot0 = false /\ (x <> ballot0 -> ballot_gt x ballot0 = true).
Proof.
  split; [exact (ballot_gt_ballot0 x) |].
  intros Hne. destruct (ballot_trichotomy x ballot0) as [H|[H|H]]; [| done | done].
  pose proof (ballot_gt_ballot0 x) as H0. unfold ballot_gt in H0. congruence.
Qed.

Lemma ballot0_least_witness : ballot_gt ballotA ballot0 = true.
Proof. apply (ballot0_least ballotA). discriminate. Defined.

(** ** Packed sizes *)

Lemma length_pack_slice s : length (pack_slice s) = pack_size_slice s.
Proof. unfold pack_slice, pack_size_slice. by rewrite length_app, length_be_bytes. Qed.

Lemma length_pack_ballot x : length (pack_ballot x) = pack_size_ballot x.
Proof.
  unfold pack_ballot, pack_uint64, pack_size_ballot.
  by rewrite length_app, !length_be_bytes.
Qed.

Lemma length_pack_pvalue p : length (pack_pvalue p) = pack_size_pvalue p.
Proof.
  unfold pack_pvalue, pack_size_pvalue.
  by rewrite length_app, length_pack_ballot, length_pack_slice.
Qed.

(** X3. [pack_size] of a ballot and of a pvalue is the number of bytes their
    [operator<<] writes, and every buffer size the daemon computes covers
    what it packs: exactly for the six protocol messages, with seven bytes
    to spare for the reply to a get, and with the learn message's size for
    the one-byte reply to a put. *)
Theorem buffers_fit :
  (forall x, length (pack_ballot x) = pack_size_ballot x) /\
  (forall p, length (pack_pvalue p) = pack_size_pvalue p) /\
  (forall k ver b v, length (msg_phase1b k ver b v) = sz_phase1b k b v) /\
  (forall k ver b, length (msg_phase2b k ver b) = sz_phase2b k b) /\
  (forall k, length (msg_retry k) = sz_retry k) /\
  (forall s, length (msg_phase1a (key s) (version s) (leading s)) = sz_phase1a s) /\
  (forall s, length (msg_phase2a (key s) (version s) (leading s) (max_accepted s))
             = sz_phase2a s) /\
  (forall s, length (msg_learn (key s) (version s) (pv_v (max_accepted s)))
             = sz_learn s) /\
  (forall rc val, (length (msg_get_reply rc val) + 7 = sz_get_reply val)%nat) /\
  (forall rc s, (length (msg_put_reply rc) <= sz_learn s)%nat).
Proof.
  repeat split; intros;
    unfold msg_phase1b, msg_phase2b, msg_retry, msg_phase1a, msg_phase2a, msg_learn,
      msg_get_reply, msg_put_reply, pack_returncode, pack_uint8, pack_uint64,
      sz_phase1b, sz_phase2b, sz_retry, sz_phase1a, sz_phase2a, sz_learn, sz_get_reply;
    rewrite ?length_app, ?length_pack_ballot, ?length_pack_pvalue, ?length_pack_slice,
      ?length_be_bytes; lia.
Qed.

(** ** What the write state machine sends and leaves alone *)

Lemma extends_refl d : extends d d.
Proof. repeat split; try done. exists []. by rewrite app_nil_r. Qed.

Lemma extends_trans d1 d2 d3 : extends d1 d2 -> extends d2 d3 -> extends d1 d3.
Proof.
  intros (Hh & Hd & Hw & Hc & Ht & o1 & Hs) (Hh' & Hd' & Hw' & Hc' & Ht' & o2 & Hs').
  repeat split; try congruence; [lia |].
  exists (o1 ++ o2). by rewrite Hs', Hs, app_assoc.
Qed.

Lemma extends_output d d' : extends d d' -> sent d' = sent d ++ output d d'.
Proof.
  intros (_ & _ & _ & _ & _ & out & Hs). unfold output.
  by rewrite Hs, drop_app_length.
Qed.

Lemma output_trans d1 d2 d3 :
  extends d1 d2 -> extends d2 d3 -> output d1 d3 = output d1 d2 ++ output d2 d3.
Proof.
  intros H12 H23. pose proof (extends_trans _ _ _ H12 H23) as H13.
  apply extends_output in H12, H23, H13.
  rewrite H23, H12, <- app_assoc in H13. by apply app_inv_head in H13.
Qed.

Lemma output_refl d : output d d = [].
Proof. unfold output. by rewrite drop_all. Qed.

Lemma extends_busybee_send to m d :
  extends d (busybee_send to m d) /\ output d (busybee_send to m d) = [(to, m)].
Proof.
  split.
  - repeat split; try done. by exists [(to, m)].
  - unfold output. cbn [busybee_send sent]. by rewrite drop_app_length.
Qed.

(** The hosts a broadcast reaches: those of [HOSTS] not in [skip]. *)
Lemma send_to_hosts_output skip m d :
  extends d (send_to_hosts skip m d) /\
  output d (send_to_hosts skip m d) =
    map (fun h => (h, m)) (filter (fun h => found h skip = false) HOSTS).
Proof.
  unfold send_to_hosts. generalize HOSTS. intros l. revert d.
  induction l as [|h l IH]; intros d.
  - cbn. split; [apply extends_refl | apply output_refl].
  - cbn [foldl]. destruct (found h skip) eqn:Hf.
    + destruct (IH d) as [He Ho]. split; [done |].
      rewrite Ho, filter_cons_False; [done | congruence].
    + destruct (IH (busybee_send h m d)) as [He Ho].
      destruct (extends_busybee_send h m d) as [He' Ho'].
      split; [by eapply extends_trans |].
      rewrite (output_trans _ _ _ He' He), Ho', Ho, filter_cons_True by done.
      done.
Qed.

(** A broadcast reaches exactly the hosts of [HOSTS] that are not in the
    set it skips, each once, in the order of [HOSTS], all with the same
    message; it changes nothing else of the daemon. *)
Lemma send_to_hosts_recipients skip m d :
  sent (send_to_hosts skip m d) = sent d ++ map (fun h => (h, m)) (recipients skip) /\
  host (send_to_hosts skip m d) = host d /\
  db (send_to_hosts skip m d) = db d /\
  writes (send_to_hosts skip m d) = writes d.
Proof.
  destruct (send_to_hosts_output skip m d) as [He Ho].
  rewrite (extends_output _ _ He), Ho.
  destruct He as (Hh & Hd & Hw & _). repeat split; try done.
  f_equal. f_equal. apply list_filter_iff. intros h.
  unfold found. rewrite <- not_true_iff_false, existsb_exists.
  split.
  - intros Hn Hin. apply Hn. exists h.
    split; [by apply list_elem_of_In | apply N.eqb_refl].
  - intros Hn (y & Hin & Heq). apply N.eqb_eq in Heq. subst.
    by apply Hn, list_elem_of_In.
Qed.

Lemma extends_wallclock_time d :
  extends d (snd (wallclock_time d)) /\ output d (snd (wallclock_time d)) = [].
Proof.
  split.
  - repeat split; try done; cbn; [lia |]. exists []. by rewrite app_nil_r.
  - unfold output. cbn. by rewrite drop_all.
Qed.

Lemma client_replies_app o1 o2 :
  client_replies (o1 ++ o2) = client_replies o1 ++ client_replies o2.
Proof. apply filter_app. Qed.

Lemma client_replies_broadcast m (l : list N) :
  (1 < length m)%nat -> client_replies (map (fun h => (h, m)) l) = [].
Proof.
  intros Hm. unfold client_replies. induction l as [|h l IH]; [done |].
  cbn [map]. rewrite filter_cons_False; [done |].
  cbn [snd]. intros ->. vm_compute in Hm. lia.
Qed.

Lemma length_msg_phase1a k ver b : (1 < length (msg_phase1a k ver b))%nat.
Proof. unfold msg_phase1a. rewrite length_app. cbn. lia. Qed.

Lemma length_msg_phase2a k ver b v : (1 < length (msg_phase2a k ver b v))%nat.
Proof. unfold msg_phase2a. rewrite length_app. cbn. lia. Qed.

Lemma length_msg_learn k ver v : (1 < length (msg_learn k ver v))%nat.
Proof. unfold msg_learn. rewrite length_app. cbn. lia. Qed.

Lemma client_replies_send_to_hosts skip m d :
  (1 < length m)%nat -> client_replies (output d (send_to_hosts skip m d)) = [].
Proof.
  intros Hm. rewrite (proj2 (send_to_hosts_output skip m d)).
  by apply client_replies_broadcast.
Qed.

(** With no round in flight the driver returns at once or starts a round;
    it leaves the queue alone and answers no client. *)
Lemma work_state_machine_not_executing_post n s d :
  executing_paxos s = false ->
  exists s' d',
    work_state_machine (S n) s d = Ok (s', d') /\
    wsm_live s' /\ key s' = key s /\ values s' = values s /\
    extends d d' /\ client_replies (output d d') = [].
Proof.
  intros He. rewrite work_state_machine_S, He. unfold finished, start_round.
  destruct (values s) as [|[c0 v0] rest] eqn:Hv; cbn [negb andb].
  - exists s, d. split; [done |].
    split; [unfold wsm_live; rewrite He, Hv; split; [discriminate | done] |].
    split; [done |]. split; [done |]. split; [apply extends_refl |].
    by rewrite output_refl.
  - destruct (extends_wallclock_time d) as [Hext Hout].
    cbn [wallclock_time snd] in Hext, Hout. cbn [wallclock_time rbind].
    cbn [max_accepted pv_b promises length leading key version].
    rewrite ballot_gt_ballot0. change (0 <? QUORUM)%nat with true. cbv iota.
    do 2 eexists. split; [reflexivity |].
    split; [by split |].
    split; [done |]. split; [done |].
    match goal with |- extends d (send_to_hosts ?sk ?m ?d1) /\ _ =>
      destruct (send_to_hosts_output sk m d1) as [Hext' Hout'] end.
    split; [by eapply extends_trans |].
    rewrite (output_trans _ _ _ Hext Hext'), Hout, Hout'. cbn [app].
    apply client_replies_broadcast, length_msg_phase1a.
Qed.

(** What one call of the driver does to a machine that satisfies the queue
    invariant: it returns; the machine then has a round in flight exactly
    when a write is queued; the key is the same; the daemon has only read
    the clock and sent messages; and either the queue is as it was and no
    client was answered, or its head was popped and that client, and no
    other, was sent [POCDB_SUCCESS]. *)
Lemma work_state_machine_post n s d :
  wsm_inv s ->
  exists s' d',
    work_state_machine (S (S n)) s d = Ok (s', d') /\
    wsm_live s' /\ key s' = key s /\ extends d d' /\
    ((values s' = values s /\ client_replies (output d d') = []) \/
     (exists c0 v0, values s = (c0, v0) :: values s' /\
        client_replies (output d d') = [(c0, msg_put_reply POCDB_SUCCESS)])).
Proof.
  intros Hinv. destruct (executing_paxos s) eqn:He.
  2: { destruct (work_state_machine_not_executing_post (S n) s d He)
         as (s' & d' & Hw & Hl & Hk & Hv & Hx & Hc).
       exists s', d'. split; [done |]. split; [done |]. split; [done |].
       split; [done |]. left. by split. }
  specialize (Hinv He). rewrite (work_state_machine_S (S n)), He.
  cbn [negb andb rbind].
  destruct (ballot_gt _ _).
  { destruct (work_state_machine_not_executing_post n (set_executing_paxos false s) d
                eq_refl) as (s' & d' & Hw & Hl & Hk & Hv & Hx & Hc).
    exists s', d'. split; [done |]. split; [done |]. split; [done |].
       split; [done |]. left. by split. }
  destruct (_ <? _)%nat.
  { match goal with |- context [send_to_hosts ?sk ?m d] =>
      destruct (send_to_hosts_output sk m d) as [Hx Ho];
      pose proof (client_replies_send_to_hosts sk m d (length_msg_phase1a _ _ _)) as Hc
    end.
    do 2 eexists. split; [reflexivity |]. split; [by split |].
    split; [done |]. split; [done |]. by left. }
  destruct (_ <? _)%nat.
  { cbv zeta.
    match goal with |- context [send_to_hosts ?sk ?m d] =>
      destruct (send_to_hosts_output sk m d) as [Hx Ho];
      pose proof (client_replies_send_to_hosts sk m d (length_msg_phase2a _ _ _ _)) as Hc
    end.
    do 2 eexists. split; [reflexivity |]. split; [by split |].
    split; [done |]. split; [done |]. by left. }
  cbv zeta. cbn [set_version set_executing_paxos values max_accepted key version].
  match goal with |- context [send_to_hosts ?sk ?m d] =>
    destruct (send_to_hosts_output sk m d) as [Hx Ho];
    pose proof (client_replies_send_to_hosts sk m d (length_msg_learn _ _ _)) as Hc;
    set (d1 := send_to_hosts sk m d) in *
  end.
  destruct (values s) as [|[c0 v0] rest] eqn:Hv; [done |].
  destruct (bytes_eqb _ _).
  - destruct (extends_busybee_send c0 (msg_put_reply POCDB_SUCCESS) d1) as [Hx2 Ho2].
    set (d2 := busybee_send c0 (msg_put_reply POCDB_SUCCESS) d1) in *.
    match goal with |- context [work_state_machine (S n) ?s2 d2] =>
      destruct (work_state_machine_not_executing_post n s2 d2 eq_refl)
        as (s' & d' & Hw & Hl & Hk & Hv' & Hx3 & Hc3)
    end.
    exists s', d'. split; [done |]. split; [done |]. split; [done |].
    pose proof (extends_trans _ _ _ Hx Hx2) as Hx12.
    split; [by eapply extends_trans |]. right. exists c0, v0.
    split; [by rewrite Hv' |].
    rewrite (output_trans _ _ _ Hx12 Hx3), (output_trans _ _ _ Hx Hx2).
    rewrite !client_replies_app, Hc, Hc3, Ho2. cbn [app].
    unfold client_replies. by rewrite filter_cons_True.
  - match goal with |- context [work_state_machine (S n) ?s2 d1] =>
      destruct (work_state_machine_not_executing_post n s2 d1 eq_refl)
        as (s' & d' & Hw & Hl & Hk & Hv' & Hx3 & Hc3)
    end.
    exists s', d'. split; [done |]. split; [done |]. split; [done |].
    split; [by eapply extends_trans |]. left.
    split; [by rewrite Hv' |].
    by rewrite (output_trans _ _ _ Hx Hx3), client_replies_app, Hc, Hc3.
Qed.

Lemma wsm_live_inv s : wsm_live s -> wsm_inv s.
Proof. intros [H _]. exact H. Qed.

Lemma wsm_live_new k : wsm_live (new_write_state_machine k).
Proof. split; [discriminate | done]. Qed.

(** What one operation does to a machine that has a round in flight exactly
    when a write is queued. *)
Lemma run_op_post op s d :
  wsm_live s ->
  exists s' d',
    run_op op s d = Ok (s', d') /\
    wsm_live s' /\ key s' = key s /\ extends d d' /\
    ((values s' = queue_after op s /\ client_replies (output d d') = []) \/
     (exists c0 v0, queue_after op s = (c0, v0) :: values s' /\
        client_replies (output d d') = [(c0, msg_put_reply POCDB_SUCCESS)])).
Proof.
  intros Hl. pose proof (wsm_live_inv s Hl) as Hinv.
  destruct op as [c v|c ver b v|c ver b|]; cbn [run_op queue_after].
  - unfold write, REENTRY.
    apply (work_state_machine_post 0 (set_values (values s ++ [(c, v)]) s) d).
    intros _. cbn [set_values values]. by destruct (values s).
  - unfold phase1b, REENTRY. destruct (_ || _).
    + apply (work_state_machine_post 0 (set_version ver (set_executing_paxos false s)) d).
      intros He. discriminate He.
    + cbv zeta. destruct (_ && _).
      * apply (work_state_machine_post 0
                 (set_promises _ (set_max_accepted v (set_version ver s))) d).
        exact Hinv.
      * apply (work_state_machine_post 0 (set_promises _ (set_version ver s)) d).
        exact Hinv.
  - unfold phase2b, REENTRY. destruct (_ || _).
    + exists s, d. split; [done |]. split; [done |]. split; [done |].
      split; [apply extends_refl |]. left. by rewrite output_refl.
    + apply (work_state_machine_post 0 (set_accepted _ s) d). exact Hinv.
  - unfold retry, REENTRY.
    apply (work_state_machine_post 0
             (set_version (incr64 (version s)) (set_executing_paxos false s)) d).
    intros He. discriminate He.
Qed.

Lemma reachable_live k s : reachable k s -> wsm_live s /\ key s = k.
Proof.
  induction 1 as [|s d op s' d' _ [IHl IHk] Hop].
  - split; [apply wsm_live_new | done].
  - destruct (run_op_post op s d IHl) as (s'' & d'' & Hop' & Hl & Hk & _).
    rewrite Hop in Hop'. injection Hop' as <- <-. split; congruence.
Qed.

(** X4. Who the broadcasts of the write state machine reach.  The driver
    runs with a round in flight and [max_accepted.b] not above [leading].
    Below a quorum of promises it sends phase 1a to exactly the hosts of
    [HOSTS] that are not in [promises], and leaves the machine as it is.
    With a quorum of promises and below a quorum of accepts it sends phase 2a
    to exactly the hosts that are not in [accepted].  With both at quorum
    (and a write queued) the first thing it sends is the learn message, to
    all five hosts.  In each broadcast every recipient gets the message
    once, in the order of [HOSTS]. *)
Theorem broadcast_recipients s d :
  executing_paxos s = true ->
  ballot_gt (pv_b (max_accepted s)) (leading s) = false ->
  ((length (promises s) < QUORUM)%nat ->
   exists d',
     work_state_machine REENTRY s d = Ok (s, d') /\
     sent d' = sent d ++
       map (fun h => (h, msg_phase1a (key s) (version s) (leading s)))
           (recipients (promises s))) /\
  ((QUORUM <= length (promises s))%nat -> (length (accepted s) < QUORUM)%nat ->
   exists s' d',
     work_state_machine REENTRY s d = Ok (s', d') /\
     sent d' = sent d ++
       map (fun h => (h, msg_phase2a (key s) (version s) (leading s)
                           {| pv_b := leading s; pv_v := pv_v (max_accepted s) |}))
           (recipients (accepted s))) /\
  ((QUORUM <= length (promises s))%nat -> (QUORUM <= length (accepted s))%nat ->
   values s <> [] ->
   exists s' d' out,
     work_state_machine REENTRY s d = Ok (s', d') /\
     sent d' = sent d ++
       map (fun h => (h, msg_learn (key s) (version s) (pv_v (max_accepted s)))) HOSTS ++
       out) /\
  recipients [] = HOSTS /\
  (forall skip h, h ∈ recipients skip <-> h ∈ HOSTS /\ h ∉ skip) /\
  (forall skip, NoDup (recipients skip)).
Proof.
  intros He Hgt.
  assert (Hstep : work_state_machine REENTRY s d =
    if (length (promises s) <? QUORUM)%nat then
      Ok (s, send_to_hosts (promises s)
               (msg_phase1a (key s) (version s) (leading s)) d)
    else if (length (accepted s) <? QUORUM)%nat then
      let s := set_max_accepted
                 {| pv_b := leading s; pv_v := pv_v (max_accepted s) |} s in
      Ok (s, send_to_hosts (accepted s)
               (msg_phase2a (key s) (version s) (leading s) (max_accepted s)) d)
    else
      let d := send_to_hosts []
                 (msg_learn (key s) (version s) (pv_v (max_accepted s))) d in
      let s := set_version (incr64 (version s)) (set_executing_paxos false s) in
      match values s with
      | [] => Undefined
      | (c0, v0) :: rest =>
          if bytes_eqb (pv_v (max_accepted s)) v0
          then work_state_machine 1 (set_values rest s)
                 (busybee_send c0 (msg_put_reply POCDB_SUCCESS) d)
          else work_state_machine 1 s d
      end).
  { unfold REENTRY. rewrite work_state_machine_S, He. cbn [negb andb rbind].
    by rewrite Hgt. }
  rewrite Hstep. clear Hstep.
  split; [| split; [| split; [| split; [| split]]]].
  - intros Hp. rewrite (proj2 (Nat.ltb_lt _ _) Hp).
    eexists. split; [reflexivity |]. apply send_to_hosts_recipients.
  - intros Hp Ha. rewrite (proj2 (Nat.ltb_ge _ _) Hp), (proj2 (Nat.ltb_lt _ _) Ha).
    cbv zeta. do 2 eexists. split; [reflexivity |].
    apply send_to_hosts_recipients.
  - intros Hp Ha Hv.
    rewrite (proj2 (Nat.ltb_ge _ _) Hp), (proj2 (Nat.ltb_ge _ _) Ha). cbv zeta.
    cbn [set_version set_executing_paxos values max_accepted].
    destruct (values s) as [|[c0 v0] rest]; [done |].
    match goal with |- context [send_to_hosts ?sk ?m d] =>
      pose proof (proj1 (send_to_hosts_recipients sk m d)) as Hs1;
      set (d1 := send_to_hosts sk m d) in *
    end.
    assert (Hall : recipients [] = HOSTS) by reflexivity. rewrite Hall in Hs1.
    destruct (bytes_eqb _ _).
    + match goal with |- context [work_state_machine 1 ?s2 ?d2] =>
        destruct (work_state_machine_not_executing_post 0 s2 d2 eq_refl)
          as (s' & d' & Hw & _ & _ & _ & Hx & _)
      end.
      apply extends_output in Hx. cbn [busybee_send sent] in Hx.
      exists s', d'. eexists. split; [exact Hw |].
      rewrite Hx, Hs1, <- !app_assoc. reflexivity.
    + match goal with |- context [work_state_machine 1 ?s2 ?d2] =>
        destruct (work_state_machine_not_executing_post 0 s2 d2 eq_refl)
          as (s' & d' & Hw & _ & _ & _ & Hx & _)
      end.
      apply extends_output in Hx.
      exists s', d'. eexists. split; [exact Hw |].
      rewrite Hx, Hs1, <- !app_assoc. reflexivity.
  - reflexivity.
  - intros skip h. unfold recipients. rewrite list_elem_of_filter. tauto.
  - intros skip. unfold recipients. apply NoDup_filter.
    apply (bool_decide_unpack _). reflexivity.
Qed.

Lemma broadcast_recipients_witness :
  exists d',
    work_state_machine REENTRY (set_promises [HOSTA; HOSTC] wsm_after_write)
      (fresh_daemon HOSTA 9000)
    = Ok (set_promises [HOSTA; HOSTC] wsm_after_write, d') /\
    sent d' = sent (fresh_daemon HOSTA 9000) ++
      map (fun h => (h, msg_phase1a (str "x") 0 ballotA))
          (recipients [HOSTA; HOSTC]).
Proof.
  apply (proj1 (broadcast_recipients (set_promises [HOSTA; HOSTC] wsm_after_write)
                  (fresh_daemon HOSTA 9000) eq_refl eq_refl)).
  vm_compute. lia.
Defined.

(** X5. The queue of a write state machine is first in, first out, and a
    client is answered exactly when its write leaves the queue.  In every
    reachable state an operation ([write] after appending its entry) either
    leaves the queue as it is and sends no [POCDB_SUCCESS], or pops the
    entry at the head and sends [POCDB_SUCCESS] to that entry's client and
    to no other. *)
Theorem queue_discipline k s op d :
  reachable k s ->
  exists s' d',
    run_op op s d = Ok (s', d') /\
    ((values s' = queue_after op s /\ client_replies (output d d') = []) \/
     (exists c0 v0, queue_after op s = (c0, v0) :: values s' /\
        client_replies (output d d') = [(c0, msg_put_reply POCDB_SUCCESS)])).
Proof.
  intros Hr. destruct (reachable_live k s Hr) as [Hl _].
  destruct (run_op_post op s d Hl) as (s' & d' & Hop & _ & _ & _ & Hq).
  by exists s', d'.
Qed.

Lemma queue_discipline_witness :
  exists s' d',
    run_op (OpPhase2b HOSTE 1 ballotA)
      (set_accepted [HOSTB; HOSTD] wsm_at_quorum) (fresh_daemon HOSTA 9000)
    = Ok (s', d') /\
    ((values s' = values (set_accepted [HOSTB; HOSTD] wsm_at_quorum) /\
      client_replies (output (fresh_daemon HOSTA 9000) d') = []) \/
     (exists c0 v0,
        values (set_accepted [HOSTB; HOSTD] wsm_at_quorum) = (c0, v0) :: values s' /\
        client_replies (output (fresh_daemon HOSTA 9000) d')
        = [(c0, msg_put_reply POCDB_SUCCESS)])).
Proof.
  apply (queue_discipline (str "x")).
  assert (Hrun : forall l s0 d0 s1 d1,
            reachable (str "x") s0 -> run_ops l s0 d0 = Ok (s1, d1) ->
            reachable (str "x") s1).
  { induction l as [|op l IH]; intros s0 d0 s1 d1 Hr Hrun.
    - injection Hrun as <- <-. exact Hr.
    - cbn [run_ops] in Hrun.
      destruct (run_op op s0 d0) as [[s2 d2]| |] eqn:Hop; try discriminate.
      cbn [rbind] in Hrun. eapply IH; [| exact Hrun].
      eapply reachable_op; [exact Hr | exact Hop]. }
  eapply (Hrun (phase1_ops ++ [OpPhase2b HOSTB 1 ballotA; OpPhase2b HOSTD 1 ballotA])
            _ (fresh_daemon HOSTA 5000)).
  - apply reachable_new.
  - vm_compute. reflexivity.
Defined.

(** Whenever the driver returns, the machine has its key and the daemon
    has only read the clock and sent messages. *)
Lemma work_state_machine_extends n s d s' d' :
  work_state_machine n s d = Ok (s', d') -> key s' = key s /\ extends d d'.
Proof.
  revert s d. induction n as [|n IH]; intros s d; [discriminate |].
  rewrite work_state_machine_S.
  destruct (negb (executing_paxos s) && finished s).
  { intros [= <- <-]. split; [done | apply extends_refl]. }
  assert (Hstart : forall s1 d1,
    (if negb (executing_paxos s) then start_round s d else Ok (s, d)) = Ok (s1, d1) ->
    key s1 = key s /\ extends d d1).
  { intros s1 d1. destruct (negb (executing_paxos s)).
    - unfold start_round. destruct (values s) as [|[c0 v0] rest]; [discriminate |].
      intros [= <- <-]. split; [done | apply extends_wallclock_time].
    - intros [= <- <-]. split; [done | apply extends_refl]. }
  destruct (if negb (executing_paxos s) then start_round s d else Ok (s, d))
    as [[s1 d1]| |]; cbn [rbind]; try discriminate.
  destruct (Hstart s1 d1 eq_refl) as [Hk1 Hx1].
  repeat break_if.
  - intros H. apply IH in H as [Hk Hx]. cbn in Hk.
    split; [congruence | by eapply extends_trans].
  - intros [= <- <-]. split; [done |].
    eapply extends_trans; [exact Hx1 | apply send_to_hosts_output].
  - intros [= <- <-]. split; [done |].
    eapply extends_trans; [exact Hx1 | apply send_to_hosts_output].
  - cbv zeta. destruct (values _) as [|[c0 v0] rest]; [discriminate |].
    match goal with |- context [send_to_hosts ?sk ?m d1] =>
      pose proof (proj1 (send_to_hosts_output sk m d1)) as Hx2 end.
    destruct (bytes_eqb _ _); intros H; apply IH in H as [Hk Hx]; cbn in Hk;
      (split; [congruence |]).
    + eapply extends_trans; [exact Hx1 |]. eapply extends_trans; [exact Hx2 |].
      eapply extends_trans; [apply extends_busybee_send | exact Hx].
    + eapply extends_trans; [exact Hx1 |]. by eapply extends_trans.
Qed.

Lemma run_op_extends op s d s' d' :
  run_op op s d = Ok (s', d') -> key s' = key s /\ extends d d'.
Proof.
  destruct op as [c v|c ver b v|c ver b|]; cbn [run_op].
  - unfold write. intros H. by apply work_state_machine_extends in H.
  - unfold phase1b. destruct (_ || _).
    + intros H. by apply work_state_machine_extends in H.
    + cbv zeta. destruct (_ && _); intros H;
        by apply work_state_machine_extends in H.
  - unfold phase2b. destruct (_ || _).
    + intros [= <- <-]. split; [done | apply extends_refl].
    + intros H. by apply work_state_machine_extends in H.
  - unfold retry. intros H. by apply work_state_machine_extends in H.
Qed.

(** X6. The proposer's handlers never touch the store.  Whenever the handler
    of a put, phase-1b, phase-2b or retry message returns, the LevelDB
    handle is as it was (no write and no read), the host and the clock are
    the same, and what had been sent is still there, followed by what the
    handler sent. *)
Theorem proposer_leaves_store c up d d' :
  process_put c up d = Ok d' \/ process_phase1b c up d = Ok d' \/
  process_phase2b c up d = Ok d' \/ process_retry c up d = Ok d' ->
  db d' = db d /\ host d' = host d /\ clock d' = clock d /\
  sent d' = sent d ++ output d d'.
Proof.
  assert (Hgen : forall k (r : result (write_state_machine * pocdaemon)) op,
            r = run_op op (get_or_create_state k d) d ->
            (do (sm, d1) <- r; Ok (release_state k sm d1)) = Ok d' ->
            db d' = db d /\ host d' = host d /\ clock d' = clock d /\
            sent d' = sent d ++ output d d').
  { intros k r op -> H.
    destruct (run_op op _ d) as [[sm d1]| |] eqn:Hop; cbn [rbind] in H;
      try discriminate.
    injection H as <-. apply run_op_extends in Hop as [_ Hx].
    pose proof (extends_output _ _ Hx) as Ho.
    destruct Hx as (Hh & Hd & _ & Hc & _).
    unfold release_state, output in *. cbn [set_writes db host clock sent].
    done. }
  intros [H|[H|[H|H]]].
  - revert H. unfold process_put. repeat break_let.
    destruct (error _).
    { intros [= <-]. repeat split; try done.
      by rewrite output_refl, app_nil_r. }
    intros H. eapply (Hgen _ _ (OpWrite c _)); [reflexivity | exact H].
  - revert H. unfold process_phase1b. repeat break_let.
    destruct (error _).
    { intros [= <-]. repeat split; try done.
      by rewrite output_refl, app_nil_r. }
    intros H. eapply (Hgen _ _ (OpPhase1b c _ _ _)); [reflexivity | exact H].
  - revert H. unfold process_phase2b. repeat break_let.
    destruct (error _).
    { intros [= <-]. repeat split; try done.
      by rewrite output_refl, app_nil_r. }
    intros H. eapply (Hgen _ _ (OpPhase2b c _ _)); [reflexivity | exact H].
  - unfold process_retry in H.
    destruct (error _).
    { injection H as <-. repeat split; try done.
      by rewrite output_refl, app_nil_r. }
    eapply (Hgen _ _ OpRetry); [reflexivity | exact H].
Qed.

Lemma proposer_leaves_store_witness :
  exists d',
    process_put 77 (unpacker_of (pack_slice (str "x") ++ pack_slice (str "1")))
      (fresh_daemon HOSTA 5000) = Ok d' /\
    db d' = db (fresh_daemon HOSTA 5000) /\ host d' = HOSTA /\
    clock d' = clock (fresh_daemon HOSTA 5000) /\
    sent d' = [] ++ output (fresh_daemon HOSTA 5000) d'.
Proof.
  eexists. split; [vm_compute; reflexivity |].
  apply (proposer_leaves_store 77
           (unpacker_of (pack_slice (str "x") ++ pack_slice (str "1")))
           (fresh_daemon HOSTA 5000)).
  left. vm_compute. reflexivity.
Defined.

(** ** The two slots of a key *)

Lemma slot_A_ne_L (k k' : bytes) : k ++ str "A" <> k' ++ str "L".
Proof.
  change (str "A") with ["A"%char]. change (str "L") with ["L"%char].
  intros H. apply app_inj_tail in H as [_ H]. discriminate H.
Qed.

Lemma db_Get_found k ldb st val ldb' :
  db_Get k ldb = (st, val, ldb') -> status_ok st = true -> data ldb !! k = Some val.
Proof.
  unfold db_Get. destruct (io_error ldb (ops ldb)); [by intros [= <- <- <-] |].
  destruct (data ldb !! k); by intros [= <- <- <-].
Qed.

Lemma save_acceptor_state_data k ver b v d rc d' :
  save_acceptor_state k ver b v d = (rc, d') ->
  d' = set_db (db d') d /\
  (data (db d') = data (db d) \/
   data (db d') = <[k ++ str "A" := acceptor_record ver b v]> (data (db d))).
Proof.
  unfold save_acceptor_state, db_Put.
  destruct (io_error (db d) (ops (db d))); cbn [status_ok negb];
    intros [= <- <-]; cbn [set_db db data]; split; auto.
Qed.

Lemma process_phase1a_frame c up d d' :
  process_phase1a c up d = Ok d' ->
  writes d' = writes d /\
  (data (db d') = data (db d) \/
   exists k rec, data (db d') = <[k ++ str "A" := rec]> (data (db d))).
Proof.
  unfold process_phase1a. repeat break_let.
  destruct (error _); [intros [= <-]; auto |].
  destruct (get_acceptor_state _ d) as [[[rc [[cv cb] cp]] d1]| |] eqn:Hload;
    cbn [rbind]; try discriminate.
  destruct (get_acceptor_state_frame _ _ _ _ _ Hload) as (Hd1 & Hdata & _).
  assert (Hw1 : writes d1 = writes d) by (by rewrite Hd1).
  destruct (negb (returncode_eqb rc POCDB_SUCCESS)).
  { intros [= <-]. auto. }
  destruct (_ && _).
  - destruct (save_acceptor_state _ _ _ _ d1) as [rc2 d2] eqn:Hsave.
    apply save_acceptor_state_data in Hsave as [Hd2 Hdata2].
    assert (Hw2 : writes d2 = writes d) by (by rewrite Hd2).
    assert (Hres : data (db d2) = data (db d) \/
              exists k rec, data (db d2) = <[k ++ str "A" := rec]> (data (db d))).
    { destruct Hdata2 as [->| ->]; [by left | right; rewrite Hdata; eauto]. }
    destruct (negb (returncode_eqb rc2 POCDB_SUCCESS)); [| discriminate].
    intros [= <-]. auto.
  - discriminate.
Qed.

Lemma process_phase2a_frame c up d d' :
  process_phase2a c up d = Ok d' ->
  writes d' = writes d /\
  (data (db d') = data (db d) \/
   exists k rec, data (db d') = <[k ++ str "A" := rec]> (data (db d))).
Proof.
  unfold process_phase2a. repeat break_let.
  destruct (error _); [intros [= <-]; auto |].
  destruct (get_acceptor_state _ d) as [[[rc [[cv cb] cp]] d1]| |] eqn:Hload;
    cbn [rbind]; try discriminate.
  destruct (get_acceptor_state_frame _ _ _ _ _ Hload) as (Hd1 & Hdata & _).
  assert (Hw1 : writes d1 = writes d) by (by rewrite Hd1).
  destruct (negb (returncode_eqb rc POCDB_SUCCESS)).
  { intros [= <-]. auto. }
  destruct (_ && _).
  - destruct (save_acceptor_state _ _ _ _ d1) as [rc2 d2] eqn:Hsave.
    apply save_acceptor_state_data in Hsave as [Hd2 Hdata2].
    assert (Hw2 : writes d2 = writes d) by (by rewrite Hd2).
    assert (Hres : data (db d2) = data (db d) \/
              exists k rec, data (db d2) = <[k ++ str "A" := rec]> (data (db d))).
    { destruct Hdata2 as [->| ->]; [by left | right; rewrite Hdata; eauto]. }
    destruct (negb (returncode_eqb rc2 POCDB_SUCCESS)); [| discriminate].
    intros [= <-]. auto.
  - discriminate.
Qed.

Lemma process_learn_frame c up d :
  writes (process_learn c up d) = writes d /\
  (data (db (process_learn c up d)) = data (db d) \/
   exists k v ver,
     data (db (process_learn c up d)) = <[k ++ str "L" := learned_record v ver]> (data (db d))).
Proof.
  unfold process_learn. repeat break_let. destruct (error _); [auto |].
  unfold db_Put in *. destruct (io_error (db d) (ops (db d)));
    simplify_eq; cbn [set_db writes db data]; eauto 6.
Qed.

Lemma slots_are_separate_aux c up d :
  (forall d', process_phase1a c up d = Ok d' \/ process_phase2a c up d = Ok d' ->
     writes d' = writes d /\
     forall k, data (db d') !! (k ++ str "L") = data (db d) !! (k ++ str "L")) /\
  (writes (process_learn c up d) = writes d /\
   forall k, data (db (process_learn c up d)) !! (k ++ str "A")
             = data (db d) !! (k ++ str "A")).
Proof.
  split.
  - intros d' H.
    assert (Hf : writes d' = writes d /\
              (data (db d') = data (db d) \/
               exists k rec, data (db d') = <[k ++ str "A" := rec]> (data (db d)))).
    { destruct H as [H|H];
        [by apply process_phase1a_frame in H | by apply process_phase2a_frame in H]. }
    destruct Hf as [Hw [-> | (k0 & rec & ->)]]; split; try done.
    intros k. apply lookup_insert_ne, slot_A_ne_L.
  - destruct (process_learn_frame c up d) as [Hw [-> | (k0 & v & ver & ->)]];
      split; try done.
    intros k. apply lookup_insert_ne. intros H. symmetry in H.
    by apply slot_A_ne_L in H.
Qed.



(** ** The daemon between two messages *)

Lemma get_acceptor_state_defined k d :
  (forall k rec, data (db d) !! (k ++ str "L") = Some rec -> (8 <= length rec)%nat) ->
  exists r, get_acceptor_state k d = Ok r.
Proof.
  intros Hlearned. unfold get_acceptor_state.
  destruct (db_Get (k ++ str "A") (db d)) as [[st val] ldb] eqn:HG1.
  apply db_Get_frame in HG1 as (Hdata & _).
  destruct (status_IsNotFound st); [by eexists |].
  destruct (negb (status_ok st)); [by eexists |].
  repeat break_let. destruct (error _); [by eexists |].
  cbn [db set_db] in *.
  match goal with H : db_Get _ _ = (?st2, ?val2, _) |- _ =>
    destruct (status_ok st2) eqn:Hok;
    [apply db_Get_found in H; [| exact Hok] |]
  end.
  - match goal with H : data ldb !! _ = Some ?v |- _ =>
      rewrite Hdata in H; apply Hlearned in H;
      destruct (Nat.ltb_spec (length v) 8); [lia |]
    end.
    cbn [rbind]. destruct (_ =? _); by eexists.
  - cbn [rbind]. destruct (_ =? _); by eexists.
Qed.

Lemma daemon_inv_frame d d' :
  daemon_inv d -> writes d' = writes d ->
  (forall k, data (db d') !! (k ++ str "L") = data (db d) !! (k ++ str "L")) ->
  daemon_inv d'.
Proof.
  intros [Ht Hl] Hw Hd. split.
  - intros k s. rewrite Hw. apply Ht.
  - intros k rec. rewrite Hd. apply Hl.
Qed.

Lemma daemon_inv_state k d :
  daemon_inv d ->
  wsm_live (get_or_create_state k d) /\ key (get_or_create_state k d) = k.
Proof.
  intros [Ht _]. unfold get_or_create_state.
  destruct (writes d !! k) as [s|] eqn:Hs; cbn [default].
  - destruct (Ht k s Hs) as (Hk & Hv & He). split; [by split | done].
  - split; [apply wsm_live_new | done].
Qed.

Lemma daemon_inv_release k sm d d1 :
  daemon_inv d -> wsm_live sm -> key sm = k -> extends d d1 ->
  daemon_inv (release_state k sm d1).
Proof.
  intros [Ht Hl] Hlive Hk (_ & Hdb & Hw & _). split.
  - intros k' s. unfold release_state, finished. cbn [set_writes writes]. rewrite Hw.
    destruct (values sm) eqn:Hv.
    + rewrite lookup_delete. case_decide; [discriminate | apply Ht].
    + rewrite lookup_insert. case_decide.
      * intros [= <-]. subst k'. split; [done |].
        split; [by rewrite Hv | apply Hlive; by rewrite Hv].
      * apply Ht.
  - intros k' rec. unfold release_state. cbn [set_writes db]. rewrite Hdb. apply Hl.
Qed.

Lemma daemon_inv_run_op k op d :
  daemon_inv d ->
  exists d',
    (do (sm, d1) <- run_op op (get_or_create_state k d) d;
     Ok (release_state k sm d1)) = Ok d' /\ daemon_inv d'.
Proof.
  intros Hinv. destruct (daemon_inv_state k d Hinv) as [Hlive Hk].
  destruct (run_op_post op _ d Hlive) as (s' & d1 & -> & Hl' & Hk' & Hx & _).
  cbn [rbind]. eexists. split; [reflexivity |].
  apply (daemon_inv_release k s' d d1); [done | done | congruence | done].
Qed.

Lemma daemon_inv_acceptor id u d r :
  daemon_inv d ->
  r = process_phase1a id u d \/ r = process_phase2a id u d ->
  match r with
  | Ok d' => daemon_inv d'
  | Undefined => True
  | OutOfFuel => False
  end.
Proof.
  intros Hinv Hr.
  destruct (get_acceptor_state_defined (fst (unpack_slice u)) d (proj2 Hinv))
    as [x Hx].
  destruct r as [d'| |]; [| done |].
  - assert (H : process_phase1a id u d = Ok d' \/ process_phase2a id u d = Ok d')
      by (destruct Hr as [Hr|Hr]; [left | right]; by symmetry).
    pose proof (proj1 (slots_are_separate_aux id u d) d' H) as [Hw Hl].
    by apply (daemon_inv_frame d).
  - destruct Hr as [Hr|Hr]; revert Hr;
      [unfold process_phase1a | unfold process_phase2a];
      repeat break_let; (destruct (error _); [discriminate |]);
      cbn [fst] in Hx; rewrite Hx; cbn [rbind]; repeat break_let;
      repeat break_if; discriminate.
Qed.

(** One message: the daemon handles it and is again as between two
    messages, or the message went to a handler of the acceptor and that
    handler's behaviour is undefined. *)
Lemma daemon_inv_run_message id msg d :
  daemon_inv d ->
  match run_message id msg d with
  | Ok d' => daemon_inv d'
  | Undefined => is_acceptor_message msg = true
  | OutOfFuel => False
  end.
Proof.
  intros Hinv. unfold run_message, is_acceptor_message. break_let.
  destruct (error _); [done |]. cbn [negb andb].
  assert (Hop : forall k op,
            match (do (sm, d1) <- run_op op (get_or_create_state k d) d;
                   Ok (release_state k sm d1)) with
            | Ok d' => daemon_inv d'
            | Undefined => (n =? tag "a") || (n =? tag "A") = true
            | OutOfFuel => False
            end).
  { intros k op. by destruct (daemon_inv_run_op k op d Hinv) as (d' & -> & Hinv'). }
  destruct (n =? tag "P").
  { unfold process_put. repeat break_let. destruct (error _); [done |].
    apply (Hop _ (OpWrite id _)). }
  destruct (n =? tag "G").
  { unfold process_get. repeat break_let. destruct (error _); [done |].
    match goal with H : db_Get _ _ = _ |- _ => apply db_Get_frame in H as (Hd & _) end.
    apply (daemon_inv_frame d); [done | done |]. intros k.
    cbn [busybee_send set_db db]. by rewrite Hd. }
  destruct (n =? tag "a").
  { pose proof (daemon_inv_acceptor id u d _ Hinv (or_introl eq_refl)) as H.
    by destruct (process_phase1a id u d). }
  destruct (n =? tag "b").
  { unfold process_phase1b. repeat break_let. destruct (error _); [done |].
    apply (Hop _ (OpPhase1b id _ _ _)). }
  destruct (n =? tag "A").
  { pose proof (daemon_inv_acceptor id u d _ Hinv (or_intror eq_refl)) as H.
    by destruct (process_phase2a id u d). }
  destruct (n =? tag "B").
  { unfold process_phase2b. repeat break_let. destruct (error _); [done |].
    apply (Hop _ (OpPhase2b id _ _)). }
  destruct (n =? tag "L").
  { destruct (process_learn_frame id u d) as [Hw Hd]. destruct Hinv as [Ht Hl].
    split.
    - intros k s. rewrite Hw. apply Ht.
    - intros k rec. destruct Hd as [-> | (k0 & v & ver & ->)]; [apply Hl |].
      rewrite lookup_insert. case_decide; [| apply Hl].
      intros [= <-]. unfold learned_record. rewrite length_app.
      change (length (native64 ver)) with (length (le_bytes 8 ver)).
      rewrite length_le_bytes. lia. }
  destruct (n =? tag "R"); [| done].
  unfold process_retry. destruct (error _); [done |]. apply (Hop _ OpRetry).
Qed.

Lemma daemon_inv_start d :
  writes d = ∅ -> data (db d) = ∅ -> daemon_inv d.
Proof.
  intros Hw Hd. split.
  - intros k s. rewrite Hw, lookup_empty. discriminate.
  - intros k rec. rewrite Hd, lookup_empty. discriminate.
Qed.

Lemma run_outcome inbox d :
  daemon_inv d ->
  match run inbox d with
  | Ok d' => daemon_inv d'
  | Undefined => Exists (fun m => is_acceptor_message (snd m) = true) inbox
  | OutOfFuel => False
  end.
Proof.
  revert d. induction inbox as [|[id msg] inbox IH]; intros d Hinv; [done |].
  cbn [run]. pose proof (daemon_inv_run_message id msg d Hinv) as H.
  destruct (run_message id msg d) as [d1| |]; cbn [rbind]; [| | done].
  - specialize (IH d1 H). destruct (run inbox d1); [done | | done].
    by apply Exists_cons_tl.
  - by apply Exists_cons_hd.
Qed.

(** X8. Apart from the replies of the acceptor, the daemon never runs into
    undefined behaviour, and it never keeps an idle machine.  Take a
    daemon in which every machine of the table is stored under its own key
    with a write queued and a round in flight, and every learned slot
    holds at least eight bytes (a daemon that starts with an empty table
    and an empty store is one).  Every sequence of messages, well-formed or
    not, none of which goes to the phase-1a or the phase-2a handler, is
    handled to the end, with no read of the front of an empty queue and no
    re-entry beyond the budget, and the daemon is again such a daemon.  For
    any sequence at all the run stays within the re-entry budget, ends in
    such a daemon if it ends, and is undefined only if one of the messages
    went to a handler of the acceptor. *)
Theorem run_keeps_daemon_inv inbox d :
  daemon_inv d ->
  (Forall (fun m => is_acceptor_message (snd m) = false) inbox ->
   exists d', run inbox d = Ok d' /\ daemon_inv d') /\
  match run inbox d with
  | Ok d' => daemon_inv d'
  | Undefined => Exists (fun m => is_acceptor_message (snd m) = true) inbox
  | OutOfFuel => False
  end.
Proof.
  intros Hinv. pose proof (run_outcome inbox d Hinv) as H.
  split; [| exact H]. intros Hno.
  destruct (run inbox d) as [d'| |]; [by exists d' | | done].
  apply Exists_exists in H as (m & Hin & Hm).
  rewrite Forall_forall in Hno. specialize (Hno m Hin). congruence.
Qed.

Lemma run_keeps_daemon_inv_witness :
  exists d',
    run [(77, msg_put (str "x") (str "1")); (HOSTB, msg_retry (str "x"));
         (HOSTC, str "garbage"); (HOSTA, msg_learn (str "x") 3 [])]
        (fresh_daemon HOSTA 5000) = Ok d' /\
    daemon_inv d'.
Proof.
  apply (run_keeps_daemon_inv _ (fresh_daemon HOSTA 5000)).
  - by apply daemon_inv_start.
  - repeat constructor.
Defined.

(** ** Loading and saving the acceptor state *)

Lemma db_Get_ok k ldb :
  io_error ldb (ops ldb) = false ->
  db_Get k ldb =
    (match data ldb !! k with Some _ => StOk | None => StNotFound end,
     default [] (data ldb !! k),
     {| data := data ldb; durable := durable ldb; io_error := io_error ldb;
        ops := S (ops ldb) |}).
Proof. intros H. unfold db_Get. rewrite H. by destruct (data ldb !! k). Qed.

Lemma unpack_acceptor_record ver b v :
  is_uint64 ver -> is_ballot b -> is_pvalue v ->
  (let '(ver', up) := unpack_uint64 (unpacker_of (acceptor_record ver b v)) in
   let '(b', up) := unpack_ballot up in
   let '(v', up) := unpack_pvalue up in
   (ver', b', v', error up)) = (ver, b, v, false).
Proof.
  intros Hver Hb Hv. unfold acceptor_record.
  rewrite <- (app_nil_r (pack_pvalue v)).
  by rewrite unpack_uint64_pack, unpack_ballot_pack, unpack_pvalue_pack.
Qed.

(** Loading when the acceptor slot holds a record and the store works:
    the outcome is decided by the learned slot. *)
Lemma get_acceptor_state_record k d ver b v :
  is_uint64 ver -> is_ballot b -> is_pvalue v ->
  io_error (db d) (ops (db d)) = false ->
  io_error (db d) (S (ops (db d))) = false ->
  data (db d) !! (k ++ str "A") = Some (acceptor_record ver b v) ->
  let d' := set_db {| data := data (db d); durable := durable (db d);
                      io_error := io_error (db d); ops := S (S (ops (db d))) |} d in
  get_acceptor_state k d =
    match data (db d) !! (k ++ str "L") with
    | None =>
        if ver =? 0 then Ok (POCDB_SUCCESS, (incr64 ver, ballot0, pvalue0), d')
        else Ok (POCDB_SUCCESS, (ver, b, v), d')
    | Some rec =>
        if (length rec <? 8)%nat then Undefined
        else if ver =? learned_version rec
             then Ok (POCDB_SUCCESS, (incr64 ver, ballot0, pvalue0), d')
             else Ok (POCDB_SUCCESS, (ver, b, v), d')
    end.
Proof.
  intros Hver Hb Hv Hio0 Hio1 Hrec d'. unfold get_acceptor_state.
  rewrite db_Get_ok, Hrec by done. cbn [status_IsNotFound status_ok negb default].
  pose proof (unpack_acceptor_record ver b v Hver Hb Hv) as Hun.
  destruct (unpack_uint64 _) as [ver' up1]. destruct (unpack_ballot up1) as [b' up2].
  destruct (unpack_pvalue up2) as [v' up3]. injection Hun as -> -> -> ->.
  cbn [set_db db error unpacker_of failed]. rewrite db_Get_ok by done.
  cbn [data durable io_error ops set_db db]. subst d'. unfold set_db.
  destruct (data (db d) !! (k ++ str "L")) as [rec|];
    cbn [status_ok default from_option id rbind host db writes sent clock ticks].
  - destruct (length rec <? 8)%nat; [reflexivity |]. cbn [rbind].
    unfold learned_version. destruct (ver =? _); reflexivity.
  - destruct (ver =? 0); reflexivity.
Qed.

(** X9. An acceptor with no record for a key loads version 0 with the
    sentinel ballot and the sentinel pvalue; it reads the store once and
    does not look at the learned slot, whatever that holds. *)
Theorem load_without_record k d :
  io_error (db d) (ops (db d)) = false ->
  data (db d) !! (k ++ str "A") = None ->
  get_acceptor_state k d =
    Ok (POCDB_SUCCESS, (0, ballot0, pvalue0),
        set_db {| data := data (db d); durable := durable (db d);
                  io_error := io_error (db d); ops := S (ops (db d)) |} d).
Proof.
  intros Hio Hnone. unfold get_acceptor_state. by rewrite db_Get_ok, Hnone.
Qed.

Lemma load_without_record_witness :
  get_acceptor_state (str "x") (process_learn HOSTA
      (unpacker_of (pack_slice (str "x") ++ pack_uint64 0 ++ pack_slice (str "1")))
      (fresh_daemon HOSTB 0))
  = Ok (POCDB_SUCCESS, (0, ballot0, pvalue0),
        set_db {| data := {[ str "x" ++ str "L" := learned_record (str "1") 0 ]};
                  durable := {[ str "x" ++ str "L" := learned_record (str "1") 0 ]};
                  io_error := fun _ => false; ops := 2 |} (fresh_daemon HOSTB 0)).
Proof.
  etransitivity; [apply load_without_record; reflexivity |].
  vm_compute. reflexivity.
Defined.

(** X10. Save then load.  After [save_acceptor_state k ver b v] on a store
    that works, [get_acceptor_state k] returns [(ver, b, v)], provided the
    decree at [ver] is open: the learned slot of [k] holds a record of
    another version, or it is empty and [ver] is not 0. *)
Theorem save_then_load k ver b v d :
  is_uint64 ver -> is_ballot b -> is_pvalue v ->
  (forall i, io_error (db d) i = false) ->
  match data (db d) !! (k ++ str "L") with
  | None => ver <> 0
  | Some rec => (8 <= length rec)%nat /\ learned_version rec <> ver
  end ->
  exists d1 d2,
    save_acceptor_state k ver b v d = (POCDB_SUCCESS, d1) /\
    get_acceptor_state k d1 = Ok (POCDB_SUCCESS, (ver, b, v), d2).
Proof.
  intros Hver Hb Hv Hio Hopen. unfold save_acceptor_state.
  rewrite db_Put_ok by apply Hio. cbn [status_ok negb].
  do 2 eexists. split; [reflexivity |].
  rewrite (get_acceptor_state_record _ _ ver b v) by
    (try done; try apply Hio; cbn [set_db db data]; apply lookup_insert_eq).
  cbn [set_db db data]. rewrite lookup_insert_ne by apply slot_A_ne_L.
  destruct (data (db d) !! (k ++ str "L")) as [rec|].
  - destruct Hopen as [Hlen Hne].
    destruct (Nat.ltb_spec (length rec) 8); [lia |].
    destruct (N.eqb_spec ver (learned_version rec)); [congruence | done].
  - destruct (N.eqb_spec ver 0); done.
Qed.

Lemma save_then_load_witness :
  exists d1 d2,
    save_acceptor_state (str "x") 1 ballotA pvalueA (fresh_daemon HOSTB 0)
      = (POCDB_SUCCESS, d1) /\
    get_acceptor_state (str "x") d1 = Ok (POCDB_SUCCESS, (1, ballotA, pvalueA), d2).
Proof.
  apply save_then_load.
  - unfold is_uint64. reflexivity.
  - split; reflexivity.
  - split; [split |]; reflexivity.
  - reflexivity.
  - vm_compute. discriminate.
Defined.

(** X11. A closed decree is folded on load.  When the acceptor slot of a key
    holds a record at version [ver] and the learned slot holds a record of
    that same version, the acceptor loads version [ver + 1] (modulo 2^64)
    with the sentinel ballot and pvalue.  An empty learned slot counts as
    version 0: a record at version 0, the promise in it included, is folded
    away although nothing has been learned. *)
Theorem load_closed_decree k ver b v d :
  is_uint64 ver -> is_ballot b -> is_pvalue v ->
  io_error (db d) (ops (db d)) = false ->
  io_error (db d) (S (ops (db d))) = false ->
  data (db d) !! (k ++ str "A") = Some (acceptor_record ver b v) ->
  match data (db d) !! (k ++ str "L") with
  | None => ver = 0
  | Some rec => (8 <= length rec)%nat /\ learned_version rec = ver
  end ->
  exists d', get_acceptor_state k d
             = Ok (POCDB_SUCCESS, (incr64 ver, ballot0, pvalue0), d').
Proof.
  intros Hver Hb Hv Hio0 Hio1 Hrec Hclosed.
  rewrite (get_acceptor_state_record _ _ ver b v) by done.
  destruct (data (db d) !! (k ++ str "L")) as [rec|].
  - destruct Hclosed as [Hlen <-].
    destruct (Nat.ltb_spec (length rec) 8); [lia |].
    rewrite N.eqb_refl. by eexists.
  - subst ver. by eexists.
Qed.

Lemma load_closed_decree_witness :
  exists d', get_acceptor_state (str "x")
               (snd (save_acceptor_state (str "x") 0 ballotA pvalueA
                       (fresh_daemon HOSTB 0)))
             = Ok (POCDB_SUCCESS, (incr64 0, ballot0, pvalue0), d').
Proof.
  apply (load_closed_decree (str "x") 0 ballotA pvalueA).
  - unfold is_uint64. reflexivity.
  - split; reflexivity.
  - split; [split |]; reflexivity.
  - reflexivity.
  - reflexivity.
  - vm_compute. reflexivity.
  - vm_compute. reflexivity.
Defined.

(** ** What a successful extraction tells about the bytes *)

Lemma le_value_bound l : le_value l < 256 ^ N.of_nat (length l).
Proof.
  induction l as [|c l IH]; [cbn; lia |].
  cbn [le_value length]. rewrite Nat2N.inj_succ, N.pow_succ_r'.
  pose proof (N_ascii_bounded c). lia.
Qed.

Lemma le_bytes_le_value l : le_bytes (length l) (le_value l) = l.
Proof.
  induction l as [|c l IH]; [done |].
  cbn [le_value length le_bytes]. pose proof (N_ascii_bounded c) as Hc.
  replace ((N_of_ascii c + 256 * le_value l) mod 256) with (N_of_ascii c).
  2: { rewrite (N.mul_comm 256), N.Div0.mod_add. symmetry. by apply N.mod_small. }
  replace ((N_of_ascii c + 256 * le_value l) / 256) with (le_value l).
  2: { rewrite (N.mul_comm 256), N.div_add by lia.
       rewrite (N.div_small (N_of_ascii c)) by done. lia. }
  by rewrite ascii_N_embedding, IH.
Qed.

Lemma be_bytes_be_value l : be_bytes (length l) (be_value l) = l.
Proof.
  unfold be_bytes, be_value. rewrite <- (length_rev l), le_bytes_le_value.
  apply rev_involutive.
Qed.

Lemma be_value_bound l : be_value l < 256 ^ N.of_nat (length l).
Proof. unfold be_value. rewrite <- (length_rev l). apply le_value_bound. Qed.

Lemma unpack_raw_inv n up r up' :
  unpack_raw n up = (r, up') -> failed up' = false ->
  failed up = false /\ remain up = r ++ remain up' /\ length r = n.
Proof.
  unfold unpack_raw. destruct (failed up); [by intros [= <- <-] |].
  cbn [orb]. destruct (Nat.ltb_spec (length (remain up)) n); [by intros [= <- <-] |].
  intros [= <- <-] _. cbn [remain]. split; [done |].
  split; [by rewrite take_drop | rewrite length_take; lia].
Qed.

Lemma unpack_uint64_inv up n up' :
  unpack_uint64 up = (n, up') -> failed up' = false ->
  failed up = false /\ remain up = pack_uint64 n ++ remain up' /\ is_uint64 n.
Proof.
  unfold unpack_uint64. destruct (unpack_raw 8 up) as [raw up1] eqn:Hraw.
  intros [= <- <-] Hok. destruct (unpack_raw_inv _ _ _ _ Hraw Hok) as (Hf & Hr & Hl).
  split; [done |]. split.
  - unfold pack_uint64. by rewrite <- Hl, be_bytes_be_value.
  - unfold is_uint64. pose proof (be_value_bound raw) as Hb. by rewrite Hl in Hb.
Qed.

Lemma unpack_slice_inv up s up' :
  unpack_slice up = (s, up') -> failed up' = false ->
  failed up = false /\ remain up = pack_slice s ++ remain up' /\ is_slice s.
Proof.
  unfold unpack_slice. destruct (unpack_raw 4 up) as [raw up1] eqn:Hraw.
  intros Hs Hok. destruct (unpack_raw_inv _ _ _ _ Hs Hok) as (Hf1 & Hr1 & Hl1).
  destruct (unpack_raw_inv _ _ _ _ Hraw Hf1) as (Hf & Hr & Hl).
  pose proof (be_value_bound raw) as Hb. rewrite Hl in Hb.
  split; [done |]. split.
  - unfold pack_slice. rewrite Hl1, N2Nat.id, <- Hl, be_bytes_be_value.
    by rewrite Hr, Hr1, app_assoc.
  - unfold is_slice. rewrite Hl1, N2Nat.id. exact Hb.
Qed.

Lemma unpack_ballot_inv up x up' :
  unpack_ballot up = (x, up') -> failed up' = false ->
  failed up = false /\ remain up = pack_ballot x ++ remain up' /\ is_ballot x.
Proof.
  unfold unpack_ballot. destruct (unpack_uint64 up) as [n up1] eqn:H1.
  destruct (unpack_uint64 up1) as [l up2] eqn:H2. intros [= <- <-] Hok.
  destruct (unpack_uint64_inv _ _ _ H2 Hok) as (Hf2 & Hr2 & Hl).
  destruct (unpack_uint64_inv _ _ _ H1 Hf2) as (Hf1 & Hr1 & Hn).
  split; [done |]. split; [| by split].
  unfold pack_ballot. cbn [number leader]. by rewrite Hr1, Hr2, app_assoc.
Qed.

Lemma unpack_pvalue_inv up p up' :
  unpack_pvalue up = (p, up') -> failed up' = false ->
  failed up = false /\ remain up = pack_pvalue p ++ remain up' /\ is_pvalue p.
Proof.
  unfold unpack_pvalue. destruct (unpack_ballot up) as [x up1] eqn:H1.
  destruct (unpack_slice up1) as [s up2] eqn:H2. intros [= <- <-] Hok.
  destruct (unpack_slice_inv _ _ _ H2 Hok) as (Hf2 & Hr2 & Hs).
  destruct (unpack_ballot_inv _ _ _ H1 Hf2) as (Hf1 & Hr1 & Hx).
  split; [done |]. split; [| by split].
  unfold pack_pvalue. cbn [pv_b pv_v]. by rewrite Hr1, Hr2, app_assoc.
Qed.

(** X12. The wire format of ballots and pvalues round-trips both ways.
    Extracting from what [operator<<] packed gives the value back and leaves
    the bytes that follow; and whenever [operator>>] succeeds on some bytes,
    the value it yields fits its fields and the bytes are that value's
    packing followed by what is left, so a packing has one reading only. *)
Theorem wire_roundtrip :
  (forall x rest, is_ballot x ->
     unpack_ballot (unpacker_of (pack_ballot x ++ rest)) = (x, unpacker_of rest)) /\
  (forall p rest, is_pvalue p ->
     unpack_pvalue (unpacker_of (pack_pvalue p ++ rest)) = (p, unpacker_of rest)) /\
  (forall m x up', unpack_ballot (unpacker_of m) = (x, up') -> error up' = false ->
     is_ballot x /\ m = pack_ballot x ++ remain up') /\
  (forall m p up', unpack_pvalue (unpacker_of m) = (p, up') -> error up' = false ->
     is_pvalue p /\ m = pack_pvalue p ++ remain up').
Proof.
  split; [exact unpack_ballot_pack |]. split; [exact unpack_pvalue_pack |]. split.
  - intros m x up' H Hok. by destruct (unpack_ballot_inv _ _ _ H Hok) as (_ & ? & ?).
  - intros m p up' H Hok. by destruct (unpack_pvalue_inv _ _ _ H Hok) as (_ & ? & ?).
Qed.

Lemma wire_roundtrip_witness :
  unpack_pvalue (unpacker_of (pack_pvalue pvalueA ++ str "rest"))
  = (pvalueA, unpacker_of (str "rest")).
Proof.
  apply (proj1 (proj2 wire_roundtrip)). split; [split |]; reflexivity.
Defined.

(** ** Acceptor state that does not decode, and what is loaded over time *)

Lemma get_acceptor_state_corrupt k d val :
  io_error (db d) (ops (db d)) = false ->
  data (db d) !! (k ++ str "A") = Some val ->
  (length val < 44)%nat ->
  exists st d1,
    get_acceptor_state k d = Ok (POCDB_SERVER_ERROR, st, d1) /\
    sent d1 = sent d /\ data (db d1) = data (db d).
Proof.
  intros Hio Hval Hlen. unfold get_acceptor_state.
  rewrite db_Get_ok, Hval by done. cbn [status_IsNotFound status_ok negb default].
  destruct (unpack_uint64 _) as [ver up1] eqn:H1.
  destruct (unpack_ballot up1) as [b up2] eqn:H2.
  destruct (unpack_pvalue up2) as [v up3] eqn:H3.
  unfold error. destruct (failed up3) eqn:Hf; [by do 2 eexists |].
  exfalso.
  destruct (unpack_pvalue_inv _ _ _ H3 Hf) as (Hf2 & Hr3 & _).
  destruct (unpack_ballot_inv _ _ _ H2 Hf2) as (Hf1 & Hr2 & _).
  destruct (unpack_uint64_inv _ _ _ H1 Hf1) as (_ & Hr1 & _).
  cbn [unpacker_of remain from_option id] in Hr1. rewrite Hr1, Hr2, Hr3 in Hlen.
  rewrite !length_app, length_pack_ballot, length_pack_pvalue in Hlen.
  unfold pack_uint64 in Hlen. rewrite length_be_bytes in Hlen.
  unfold pack_size_pvalue, pack_size_ballot, pack_size_slice in Hlen. lia.
Qed.

(** X13. An acceptor record that is too short to hold a version, a ballot
    and a pvalue (fewer than 44 bytes) makes [get_acceptor_state] return
    [POCDB_SERVER_ERROR], and the phase-1a and phase-2a handlers for that key
    then send nothing and leave the store's contents as they are. *)
Theorem corrupt_record_silences_acceptor c k ver b v d val :
  is_slice k -> is_uint64 ver -> is_ballot b -> is_pvalue v ->
  io_error (db d) (ops (db d)) = false ->
  data (db d) !! (k ++ str "A") = Some val ->
  (length val < 44)%nat ->
  (exists st d1, get_acceptor_state k d = Ok (POCDB_SERVER_ERROR, st, d1)) /\
  (exists d', process_phase1a c
                (unpacker_of (pack_slice k ++ pack_uint64 ver ++ pack_ballot b)) d
              = Ok d' /\ sent d' = sent d /\ data (db d') = data (db d)) /\
  (exists d', process_phase2a c
                (unpacker_of (pack_slice k ++ pack_uint64 ver ++ pack_ballot b ++
                              pack_pvalue v)) d
              = Ok d' /\ sent d' = sent d /\ data (db d') = data (db d)).
Proof.
  intros Hk Hver Hb Hv Hio Hval Hlen.
  destruct (get_acceptor_state_corrupt k d val Hio Hval Hlen)
    as (st & d1 & Hload & Hs & Hd).
  split; [by do 2 eexists |]. split.
  - unfold process_phase1a. rewrite <- (app_nil_r (pack_ballot b)).
    rewrite unpack_slice_pack, unpack_uint64_pack, unpack_ballot_pack by done.
    cbn [error unpacker_of failed]. rewrite Hload. destruct st as [[cv cb] cp].
    cbn [rbind]. by exists d1.
  - unfold process_phase2a. rewrite <- (app_nil_r (pack_pvalue v)).
    rewrite unpack_slice_pack, unpack_uint64_pack, unpack_ballot_pack,
      unpack_pvalue_pack by done.
    cbn [error unpacker_of failed]. rewrite Hload. destruct st as [[cv cb] cp].
    cbn [rbind]. by exists d1.
Qed.

Lemma corrupt_record_silences_acceptor_witness :
  exists d',
    process_phase1a HOSTA
      (unpacker_of (pack_slice (str "x") ++ pack_uint64 1 ++ pack_ballot ballotA))
      (set_db {| data := {[ str "x" ++ str "A" := str "short" ]}; durable := ∅;
                 io_error := fun _ => false; ops := 0 |} (fresh_daemon HOSTB 0))
    = Ok d' /\
    sent d' = [] /\
    data (db d') = {[ str "x" ++ str "A" := str "short" ]}.
Proof.
  refine (proj1 (proj2 (corrupt_record_silences_acceptor HOSTA (str "x") 1 ballotA
                          pvalueA _ (str "short") _ _ _ _ _ _ _))).
  - unfold is_slice. reflexivity.
  - unfold is_uint64. reflexivity.
  - split; reflexivity.
  - split; [split |]; reflexivity.
  - reflexivity.
  - vm_compute. reflexivity.
  - vm_compute. lia.
Defined.

Lemma incr64_bound n : is_uint64 (incr64 n).
Proof. unfold is_uint64, incr64. apply N.mod_upper_bound. lia. Qed.

(** What a successful load returns fits the wire fields. *)
Lemma get_acceptor_state_wf k d ver b v d1 :
  get_acceptor_state k d = Ok (POCDB_SUCCESS, (ver, b, v), d1) ->
  is_uint64 ver /\ is_ballot b /\ is_pvalue v.
Proof.
  assert (H0 : is_uint64 0 /\ is_ballot ballot0 /\ is_pvalue pvalue0).
  { unfold is_pvalue, is_ballot, is_uint64, is_slice. cbn. lia. }
  unfold get_acceptor_state.
  destruct (db_Get (k ++ str "A") (db d)) as [[st val] ldb].
  destruct (status_IsNotFound st); [by intros [= <- <- <- <-] |].
  destruct (negb (status_ok st)); [discriminate |].
  destruct (unpack_uint64 _) as [ver' up1] eqn:H1.
  destruct (unpack_ballot up1) as [b' up2] eqn:H2.
  destruct (unpack_pvalue up2) as [v' up3] eqn:H3.
  unfold error. destruct (failed up3) eqn:Hf; [discriminate |].
  destruct (unpack_pvalue_inv _ _ _ H3 Hf) as (Hf2 & _ & Hv).
  destruct (unpack_ballot_inv _ _ _ H2 Hf2) as (Hf1 & _ & Hb).
  destruct (unpack_uint64_inv _ _ _ H1 Hf1) as (_ & _ & Hver).
  repeat break_let.
  match goal with |- context [rbind ?r _] => destruct r; cbn [rbind]; try discriminate end.
  destruct (_ =? _); intros [= <- <- <- <-]; [| done].
  split; [apply incr64_bound | apply H0].
Qed.

(** On a store that never fails, what is loaded depends on the store's
    contents only. *)
Lemma get_acceptor_state_same_data k d d' rc st d1 :
  (forall i, io_error (db d) i = false) ->
  (forall i, io_error (db d') i = false) ->
  data (db d') = data (db d) ->
  get_acceptor_state k d = Ok (rc, st, d1) ->
  exists d2, get_acceptor_state k d' = Ok (rc, st, d2).
Proof.
  intros Hio Hio' Hdata. unfold get_acceptor_state.
  rewrite (db_Get_ok _ (db d)), (db_Get_ok _ (db d')), Hdata by auto.
  destruct (data (db d) !! (k ++ str "A")) as [val|];
    cbn [status_IsNotFound status_ok negb default from_option id].
  2: { intros [= <- <- _]. by eexists. }
  destruct (unpack_uint64 _) as [ver up1]. destruct (unpack_ballot up1) as [b up2].
  destruct (unpack_pvalue up2) as [v up3].
  destruct (error _); [intros [= <- <- _]; by eexists |].
  cbn [set_db db]. rewrite !db_Get_ok by (cbn [io_error]; auto).
  cbn [data].
  match goal with |- context [rbind ?r _] => destruct r; cbn [rbind]; try discriminate end.
  destruct (_ =? _); intros [= <- <- _]; by eexists.
Qed.

(** After a record [(ver, b, v)] has been put into the acceptor slot, a load
    returns it, or the start of the next version if the decree is closed. *)
Lemma get_acceptor_state_after_put k d m ver b v ver2 b2 v2 d2 :
  is_uint64 ver -> is_ballot b -> is_pvalue v ->
  (forall i, io_error (db d) i = false) ->
  data (db d) = <[k ++ str "A" := acceptor_record ver b v]> m ->
  get_acceptor_state k d = Ok (POCDB_SUCCESS, (ver2, b2, v2), d2) ->
  (ver2 = ver /\ b2 = b /\ v2 = v) \/ (ver2 = incr64 ver /\ b2 = ballot0 /\ v2 = pvalue0).
Proof.
  intros Hver Hb Hv Hio Hdata.
  rewrite (get_acceptor_state_record k d ver b v)
    by (try done; try apply Hio; rewrite Hdata; apply lookup_insert_eq).
  destruct (data (db d) !! (k ++ str "L")) as [rec|].
  - destruct (_ <? _)%nat; [discriminate |].
    destruct (_ =? _); intros [= <- <- <- _]; auto.
  - destruct (_ =? _); intros [= <- <- <- _]; auto.
Qed.

(** The handlers of the acceptor are what they do up to the reply,
    followed by the reply. *)
Lemma process_phase1a_after_reply c up d :
  process_phase1a c up d = after_reply (phase1a_until_reply c up d).
Proof.
  unfold process_phase1a, phase1a_until_reply, after_reply. repeat break_let.
  destruct (error _); [done |].
  destruct (get_acceptor_state _ d) as [[[rc [[cv cb] cp]] d1]| |]; cbn [rbind];
    try done.
  repeat first [break_if | break_let]; reflexivity.
Qed.

Lemma process_phase2a_after_reply c up d :
  process_phase2a c up d = after_reply (phase2a_until_reply c up d).
Proof.
  unfold process_phase2a, phase2a_until_reply, after_reply. repeat break_let.
  destruct (error _); [done |].
  destruct (get_acceptor_state _ d) as [[[rc [[cv cb] cp]] d1]| |]; cbn [rbind];
    try done.
  repeat first [break_if | break_let]; reflexivity.
Qed.

(** X14. Acceptor monotonicity, up to the reply.  On a store that never
    fails, let the acceptor load [(cur_ver, cur_b, _)] for a key, let the
    phase-1a or the phase-2a handler run on a message for that key (version
    below 2^64 - 1) until it returns or reaches its reply, and load again
    from the store as the handler left it.  What is loaded then is not
    earlier: either a higher version, or the same version with a promised
    ballot that is not lower.  (The handler's own result is what it did up
    to the reply, followed by the reply.) *)
Theorem acceptor_monotone c k ver b v d cur_ver cur_b cur_v d1 d' r ver2 b2 v2 d2 :
  is_slice k -> is_uint64 ver -> ver + 1 < 2 ^ 64 -> is_ballot b -> is_pvalue v ->
  (forall i, io_error (db d) i = false) ->
  get_acceptor_state k d = Ok (POCDB_SUCCESS, (cur_ver, cur_b, cur_v), d1) ->
  phase1a_until_reply c
    (unpacker_of (pack_slice k ++ pack_uint64 ver ++ pack_ballot b)) d = Ok (d', r) \/
  phase2a_until_reply c
    (unpacker_of (pack_slice k ++ pack_uint64 ver ++ pack_ballot b ++ pack_pvalue v)) d
    = Ok (d', r) ->
  get_acceptor_state k d' = Ok (POCDB_SUCCESS, (ver2, b2, v2), d2) ->
  (cur_ver < ver2 \/ (ver2 = cur_ver /\ ballot_lt b2 cur_b = false)) /\
  (forall up, process_phase1a c up d = after_reply (phase1a_until_reply c up d)) /\
  (forall up, process_phase2a c up d = after_reply (phase2a_until_reply c up d)).
Proof.
  intros Hk Hver Hmax Hb Hv Hio Hload Hrun Hreload.
  split; [| split; intros up;
              [apply process_phase1a_after_reply | apply process_phase2a_after_reply]].
  destruct (get_acceptor_state_frame _ _ _ _ _ Hload) as (Hd1 & Hdata1 & _ & Hio1 & _).
  destruct (get_acceptor_state_wf _ _ _ _ _ _ Hload) as (Hcv & Hcb & Hcp).
  assert (Hincr : incr64 ver = ver + 1).
  { unfold incr64. by apply N.mod_small. }
  (* nothing stored: the second load is the first *)
  assert (Hsame : d' = d1 ->
            cur_ver < ver2 \/ (ver2 = cur_ver /\ ballot_lt b2 cur_b = false)).
  { intros ->.
    assert (Hio' : forall i, io_error (db d1) i = false).
    { intros i. rewrite Hio1. apply Hio. }
    destruct (get_acceptor_state_same_data k d d1 _ _ _
                Hio Hio' Hdata1 Hload) as [d3 H3].
    rewrite H3 in Hreload. injection Hreload as <- <- <- _.
    right. split; [done | apply ballot_lt_irrefl]. }
  (* a record stored: the second load reads it *)
  assert (Hput : forall ver' b' v',
            is_uint64 ver' -> is_ballot b' -> is_pvalue v' ->
            d' = set_db {| data := <[k ++ str "A" := acceptor_record ver' b' v']>
                                     (data (db d1));
                           durable := <[k ++ str "A" := acceptor_record ver' b' v']>
                                        (data (db d1));
                           io_error := io_error (db d1);
                           ops := S (ops (db d1)) |} d1 ->
            (ver2 = ver' /\ b2 = b') \/ (ver2 = incr64 ver' /\ b2 = ballot0)).
  { intros ver' b' v' Hver' Hb' Hv' ->.
    match type of Hreload with get_acceptor_state k ?dd = _ =>
      assert (Hio' : forall i, io_error (db dd) i = false)
    end.
    { intros i. cbn [set_db db io_error]. rewrite Hio1. apply Hio. }
    destruct (get_acceptor_state_after_put k _ (data (db d1)) ver' b' v' _ _ _ _
                Hver' Hb' Hv' Hio' eq_refl Hreload)
      as [(-> & -> & _)|(-> & -> & _)]; auto. }
  destruct Hrun as [Hrun|Hrun]; revert Hrun.
  - unfold phase1a_until_reply. rewrite <- (app_nil_r (pack_ballot b)).
    rewrite unpack_slice_pack, unpack_uint64_pack, unpack_ballot_pack by done.
    cbn [error unpacker_of failed]. rewrite Hload. cbn [rbind].
    change (negb (returncode_eqb POCDB_SUCCESS POCDB_SUCCESS)) with false. cbv iota.
    destruct ((c =? leader b) && ballot_gt b cur_b && (cur_ver <=? ver)) eqn:Hacc.
    + rewrite !andb_true_iff, N.leb_le in Hacc. destruct Hacc as [[_ Hgt] Hle].
      unfold save_acceptor_state. rewrite db_Put_ok by (rewrite Hio1; apply Hio).
      cbn [status_ok negb].
      change (negb (returncode_eqb POCDB_SUCCESS POCDB_SUCCESS)) with false. cbv iota.
      intros [= Hd' _]. symmetry in Hd'.
      destruct (Hput ver b cur_v Hver Hb Hcp Hd') as [[-> ->]|[-> ->]].
      * destruct (N.eq_dec ver cur_ver) as [->|Hne]; [right | left; lia].
        split; [done |]. unfold ballot_gt in Hgt.
        destruct (ballot_lt b cur_b) eqn:Hlt; [| done].
        pose proof (ballot_lt_trans _ _ _ Hgt Hlt) as H.
        by rewrite ballot_lt_irrefl in H.
      * left. lia.
    + intros [= Hd' _]. symmetry in Hd'. by apply Hsame in Hd'.
  - unfold phase2a_until_reply. rewrite <- (app_nil_r (pack_pvalue v)).
    rewrite unpack_slice_pack, unpack_uint64_pack, unpack_ballot_pack,
      unpack_pvalue_pack by done.
    cbn [error unpacker_of failed]. rewrite Hload. cbn [rbind].
    change (negb (returncode_eqb POCDB_SUCCESS POCDB_SUCCESS)) with false. cbv iota.
    destruct ((ver =? cur_ver) && ballot_eq b cur_b) eqn:Hacc.
    + rewrite andb_true_iff, N.eqb_eq, ballot_eq_true in Hacc. destruct Hacc as [<- <-].
      unfold save_acceptor_state. rewrite db_Put_ok by (rewrite Hio1; apply Hio).
      cbn [status_ok negb].
      change (negb (returncode_eqb POCDB_SUCCESS POCDB_SUCCESS)) with false. cbv iota.
      intros [= Hd' _]. symmetry in Hd'.
      destruct (Hput ver b v Hver Hb Hv Hd') as [[-> ->]|[-> ->]].
      * right. split; [done | apply ballot_lt_irrefl].
      * left. lia.
    + intros [= Hd' _]. symmetry in Hd'. by apply Hsame in Hd'.
Qed.

Lemma acceptor_monotone_witness :
  0 < 1 \/ (1 = 0 /\ ballot_lt ballotA ballot0 = false).
Proof.
  eapply proj1,
    (acceptor_monotone HOSTA (str "x") 1 ballotA pvalue0 (fresh_daemon HOSTB 0)
       0 ballot0 pvalue0 _ _ _ 1 ballotA pvalue0).
  - unfold is_slice. reflexivity.
  - unfold is_uint64. reflexivity.
  - reflexivity.
  - split; reflexivity.
  - split; [split |]; reflexivity.
  - reflexivity.
  - vm_compute. reflexivity.
  - left. vm_compute. reflexivity.
  - vm_compute. reflexivity.
Defined.

(** ** The get path *)

(** X15. Get on a key that was never learned.  When the learned slot of the
    key is empty and the store works, the reply to the sender is
    [(POCDB_NOT_FOUND, "")], and the store's contents and the table are as
    they were. *)
Theorem get_missing_key c k d :
  is_slice k ->
  io_error (db d) (ops (db d)) = false ->
  data (db d) !! (k ++ str "L") = None ->
  let d' := process_get c (unpacker_of (pack_slice k)) d in
  sent d' = sent d ++ [(c, msg_get_reply POCDB_NOT_FOUND [])] /\
  data (db d') = data (db d) /\ writes d' = writes d.
Proof.
  intros Hk Hio Hnone d'. subst d'. rewrite process_get_reply by done.
  by rewrite db_Get_ok, Hnone.
Qed.

Lemma get_missing_key_witness :
  sent (process_get 77 (unpacker_of (pack_slice (str "missing"))) (fresh_daemon HOSTB 0))
  = sent (fresh_daemon HOSTB 0) ++ [(77, msg_get_reply POCDB_NOT_FOUND [])] /\
  data (db (process_get 77 (unpacker_of (pack_slice (str "missing")))
              (fresh_daemon HOSTB 0)))
  = data (db (fresh_daemon HOSTB 0)) /\
  writes (process_get 77 (unpacker_of (pack_slice (str "missing")))
            (fresh_daemon HOSTB 0))
  = writes (fresh_daemon HOSTB 0).
Proof.
  apply (get_missing_key 77 (str "missing") (fresh_daemon HOSTB 0));
    [unfold is_slice | |]; reflexivity.
Defined.

(** X16. The get path only reads.  Whatever the message and the store, the
    handler of a get message leaves the store's contents, what is durable
    and the table of machines as they are, and it sends at most one message,
    to the sender; for a message that holds a key it sends exactly one. *)
Theorem get_reads_only c up d :
  data (db (process_get c up d)) = data (db d) /\
  durable (db (process_get c up d)) = durable (db d) /\
  writes (process_get c up d) = writes d /\
  (sent (process_get c up d) = sent d \/
   exists m, sent (process_get c up d) = sent d ++ [(c, m)]) /\
  (forall k, is_slice k -> up = unpacker_of (pack_slice k) ->
     exists m, sent (process_get c up d) = sent d ++ [(c, m)]).
Proof.
  assert (Hgen : data (db (process_get c up d)) = data (db d) /\
            durable (db (process_get c up d)) = durable (db d) /\
            writes (process_get c up d) = writes d /\
            (sent (process_get c up d) = sent d \/
             exists m, sent (process_get c up d) = sent d ++ [(c, m)])).
  { unfold process_get. repeat break_let. destruct (error _); [auto |].
    match goal with H : db_Get _ _ = _ |- _ =>
      apply db_Get_frame in H as (Hd & Hdu & _) end.
    cbn [busybee_send set_db db writes sent]. eauto 6. }
  destruct Hgen as (? & ? & ? & ?). repeat split; try done.
  intros k Hk ->. rewrite process_get_reply by done.
  destruct (db_Get _ _) as [[st val] ldb]. cbn [busybee_send sent set_db]. eauto.
Qed.

(** X17. Learn then get, through the dispatcher.  After a learn message for
    a key with a value that is not empty, a get message for that key is
    answered [(POCDB_SUCCESS, value)], the value as learned, whatever version
    the learn message carries and whatever the store held before. *)
Theorem learn_then_get c c' k ver v d :
  is_slice k -> is_uint64 ver -> is_slice v -> v <> [] ->
  io_error (db d) (ops (db d)) = false ->
  io_error (db d) (S (ops (db d))) = false ->
  exists d',
    run [(c', msg_learn k ver v); (c, msg_get k)] d = Ok d' /\
    sent d' = sent d ++ [(c, msg_get_reply POCDB_SUCCESS v)].
Proof.
  intros Hk Hver Hv Hne Hio0 Hio1. cbn [run]. unfold run_message, msg_learn, msg_get.
  rewrite !unpack_uint8_pack by (vm_compute; reflexivity).
  cbn [error unpacker_of failed].
  change (tag "L" =? tag "P") with false. change (tag "L" =? tag "G") with false.
  change (tag "L" =? tag "a") with false. change (tag "L" =? tag "b") with false.
  change (tag "L" =? tag "A") with false. change (tag "L" =? tag "B") with false.
  change (tag "L" =? tag "L") with true.
  change (tag "G" =? tag "P") with false. change (tag "G" =? tag "G") with true.
  cbv iota. cbn [rbind]. eexists. split; [reflexivity |].
  by apply get_after_learn.
Qed.

Lemma learn_then_get_witness :
  exists d',
    run [(HOSTA, msg_learn (str "x") 7 (str "1")); (77, msg_get (str "x"))]
        (fresh_daemon HOSTB 0) = Ok d' /\
    sent d' = sent (fresh_daemon HOSTB 0) ++ [(77, msg_get_reply POCDB_SUCCESS (str "1"))].
Proof.
  apply learn_then_get.
  - unfold is_slice. reflexivity.
  - unfold is_uint64. reflexivity.
  - unfold is_slice. reflexivity.
  - discriminate.
  - reflexivity.
  - reflexivity.
Defined.

(** ** Rounds: how they start, restart and end *)

Lemma work_state_machine_round_start n s d c0 v0 rest :
  executing_paxos s = false -> values s = (c0, v0) :: rest ->
  work_state_machine (S n) s d =
    Ok (round_of (key s) (values s) v0 (version s) d, round_sent (key s) (version s) d).
Proof.
  intros He Hv. rewrite work_state_machine_S, He. unfold finished, start_round.
  rewrite Hv. cbn [negb andb wallclock_time rbind max_accepted pv_b promises length].
  rewrite ballot_gt_ballot0. reflexivity.
Qed.

Lemma sent_round_sent k ver d :
  sent (round_sent k ver d) =
    sent d ++ map (fun h => (h, msg_phase1a k ver (next_ballot d))) HOSTS.
Proof. unfold round_sent. by rewrite sent_send_to_hosts_all. Qed.

(** X18. A write to an idle machine starts a round.  The machine takes the
    ballot [(clock reading, own host)], proposes the written value, empties
    [promises] and [accepted], keeps its version, and sends phase 1a to the
    five hosts, reading the clock once. *)
Theorem write_starts_round c v s d :
  executing_paxos s = false -> values s = [] ->
  write c v s d =
    Ok (round_of (key s) [(c, v)] v (version s) d, round_sent (key s) (version s) d) /\
  sent (round_sent (key s) (version s) d) =
    sent d ++ map (fun h => (h, msg_phase1a (key s) (version s) (next_ballot d))) HOSTS /\
  ticks (round_sent (key s) (version s) d) = S (ticks d).
Proof.
  intros He Hv. split; [| split; [apply sent_round_sent | reflexivity]].
  unfold write, REENTRY.
  rewrite (work_state_machine_round_start 1 _ d c v []) by (cbn; by rewrite ?Hv).
  cbn [set_values key values version]. by rewrite Hv.
Qed.

Lemma write_starts_round_witness :
  write 77 (str "1") (new_write_state_machine (str "x")) (fresh_daemon HOSTA 5000) =
    Ok (round_of (str "x") [(77, str "1")] (str "1") 0 (fresh_daemon HOSTA 5000),
        round_sent (str "x") 0 (fresh_daemon HOSTA 5000)) /\
  sent (round_sent (str "x") 0 (fresh_daemon HOSTA 5000)) =
    sent (fresh_daemon HOSTA 5000) ++
    map (fun h => (h, msg_phase1a (str "x") 0 (next_ballot (fresh_daemon HOSTA 5000))))
        HOSTS /\
  ticks (round_sent (str "x") 0 (fresh_daemon HOSTA 5000))
  = S (ticks (fresh_daemon HOSTA 5000)).
Proof.
  apply (write_starts_round 77 (str "1") (new_write_state_machine (str "x"))
           (fresh_daemon HOSTA 5000)); reflexivity.
Defined.

(** X19. Abandoning restarts the round.  On a machine with a queued write, a
    retry, and a phase-1b message that reports a higher ballot or (while
    [version] is not 0) a higher version, end in the same way: a new round
    for the value at the head of the queue, with a new ballot from the clock,
    [promises], [accepted] and [max_accepted] of the old round discarded, and
    phase 1a sent to the five hosts; the version is [version + 1] (modulo
    2^64) after a retry and the reported version after the phase-1b
    message. *)
Theorem abandon_restarts_round s d c0 v0 rest :
  values s = (c0, v0) :: rest ->
  retry s d =
    Ok (round_of (key s) (values s) v0 (incr64 (version s)) d,
        round_sent (key s) (incr64 (version s)) d) /\
  (forall c ver b v,
     ballot_gt b (leading s) = true \/ (version s <> 0 /\ version s < ver) ->
     phase1b c ver b v s d =
       Ok (round_of (key s) (values s) v0 ver d, round_sent (key s) ver d)).
Proof.
  intros Hv. split.
  - unfold retry, REENTRY.
    by rewrite (work_state_machine_round_start 1 _ d c0 v0 rest).
  - intros c ver b v Hout. unfold phase1b.
    replace ((negb (version s =? 0) && (version s <? ver)) || ballot_gt b (leading s))
      with true.
    + unfold REENTRY. by rewrite (work_state_machine_round_start 1 _ d c0 v0 rest).
    + symmetry. apply orb_true_iff. destruct Hout as [->|[Hne Hlt]]; [by right | left].
      apply andb_true_iff. split; [| by apply N.ltb_lt].
      apply negb_true_iff. by apply N.eqb_neq.
Qed.

Lemma abandon_restarts_round_witness :
  retry wsm_at_quorum (fresh_daemon HOSTA 9000) =
    Ok (round_of (str "x") [(77, str "1")] (str "1") (incr64 1) (fresh_daemon HOSTA 9000),
        round_sent (str "x") (incr64 1) (fresh_daemon HOSTA 9000)).
Proof.
  apply (proj1 (abandon_restarts_round wsm_at_quorum (fresh_daemon HOSTA 9000)
                  77 (str "1") [] eq_refl)).
Defined.

(** X20. How a decision ends.  When [work_state_machine] runs with a round in
    flight, [max_accepted.b] not above [leading] and both sets at quorum,
    then, with [d1] the daemon after the learn broadcast: if the decided
    value is not the one at the head of the queue, the machine starts the
    next round at [version + 1] for that same head, the queue untouched; if
    it is and nothing else is queued, the client is sent [POCDB_SUCCESS] and
    the machine ends idle with an empty queue; if it is and more is queued,
    the client is sent [POCDB_SUCCESS] and the next round starts for the next
    entry. *)
Theorem decision_outcome s d c0 v0 rest :
  executing_paxos s = true ->
  ballot_gt (pv_b (max_accepted s)) (leading s) = false ->
  (QUORUM <= length (promises s))%nat ->
  (QUORUM <= length (accepted s))%nat ->
  values s = (c0, v0) :: rest ->
  let d1 := send_to_hosts [] (msg_learn (key s) (version s) (pv_v (max_accepted s))) d in
  let d2 := busybee_send c0 (msg_put_reply POCDB_SUCCESS) d1 in
  let ver' := incr64 (version s) in
  (pv_v (max_accepted s) <> v0 ->
   work_state_machine REENTRY s d =
     Ok (round_of (key s) (values s) v0 ver' d1, round_sent (key s) ver' d1)) /\
  (pv_v (max_accepted s) = v0 -> rest = [] ->
   work_state_machine REENTRY s d =
     Ok (set_values [] (set_version ver' (set_executing_paxos false s)), d2)) /\
  (pv_v (max_accepted s) = v0 -> forall c1 v1 rest', rest = (c1, v1) :: rest' ->
   work_state_machine REENTRY s d =
     Ok (round_of (key s) rest v1 ver' d2, round_sent (key s) ver' d2)).
Proof.
  intros He Hgt Hp Ha Hv d1 d2 ver'.
  assert (Hstep : work_state_machine REENTRY s d =
            if bytes_eqb (pv_v (max_accepted s)) v0
            then work_state_machine 1
                   (set_values rest (set_version ver' (set_executing_paxos false s))) d2
            else work_state_machine 1 (set_version ver' (set_executing_paxos false s)) d1).
  { unfold REENTRY. rewrite work_state_machine_S, He. cbn [negb andb rbind].
    rewrite Hgt, (proj2 (Nat.ltb_ge _ _) Hp), (proj2 (Nat.ltb_ge _ _) Ha).
    cbv zeta. cbn [set_version set_executing_paxos values max_accepted].
    by rewrite Hv. }
  rewrite Hstep. unfold bytes_eqb. split; [| split].
  - intros Hne. rewrite bool_decide_eq_false_2 by done.
    by rewrite (work_state_machine_round_start 0 _ d1 c0 v0 rest).
  - intros Heq ->. rewrite bool_decide_eq_true_2 by done.
    by rewrite work_state_machine_idle.
  - intros Heq c1 v1 rest' ->. rewrite bool_decide_eq_true_2 by done.
    by rewrite (work_state_machine_round_start 0 _ d2 c1 v1 rest').
Qed.

Lemma decision_outcome_witness :
  work_state_machine REENTRY wsm_at_quorum (fresh_daemon HOSTA 9000) =
    Ok (set_values [] (set_version (incr64 1) (set_executing_paxos false wsm_at_quorum)),
        busybee_send 77 (msg_put_reply POCDB_SUCCESS)
          (send_to_hosts [] (msg_learn (str "x") 1 (str "1")) (fresh_daemon HOSTA 9000))).
Proof.
  refine (proj1 (proj2 (decision_outcome wsm_at_quorum (fresh_daemon HOSTA 9000)
                          77 (str "1") [] _ _ _ _ _)) _ _).
  - reflexivity.
  - reflexivity.
  - vm_compute. lia.
  - vm_compute. lia.
  - reflexivity.
  - reflexivity.
  - reflexivity.
Defined.

(** ** The dispatcher on bad input *)

Lemma unpack_uint8_cons t rest :
  unpack_uint8 (unpacker_of (t :: rest)) = (N_of_ascii t, unpacker_of rest).
Proof.
  unfold unpack_uint8, unpack_raw, unpacker_of, be_value. cbn.
  rewrite take_0, drop_0. cbn. by rewrite N.add_0_r.
Qed.

Lemma unpack_slice_short rest :
  (length rest < 4)%nat ->
  unpack_slice (unpacker_of rest) = ([], {| remain := rest; failed := true |}).
Proof.
  intros Hlen. unfold unpack_slice.
  assert (H4 : unpack_raw 4 (unpacker_of rest)
               = ([], {| remain := rest; failed := true |})).
  { unfold unpack_raw, unpacker_of. cbn [failed remain orb].
    by rewrite (proj2 (Nat.ltb_lt _ _) Hlen). }
  rewrite H4. reflexivity.
Qed.

(** X21. The dispatcher drops what it cannot read.  An empty message, a
    message whose first byte is none of the eight tags, and a message with a
    tag other than ['R'] whose body is too short to hold the length of a key
    (fewer than four bytes) leave the daemon exactly as it was: nothing
    stored, nothing sent, no machine created. *)
Theorem run_message_drops_garbage id d :
  run_message id [] d = Ok d /\
  (forall t rest,
     N_of_ascii t ∉ [tag "P"; tag "G"; tag "a"; tag "b"; tag "A"; tag "B"; tag "L";
                     tag "R"] ->
     run_message id (t :: rest) d = Ok d) /\
  (forall t rest,
     N_of_ascii t <> tag "R" -> (length rest < 4)%nat ->
     run_message id (t :: rest) d = Ok d).
Proof.
  split; [reflexivity |]. split.
  - intros t rest Hnot. unfold run_message. rewrite unpack_uint8_cons.
    cbn [error unpacker_of failed].
    repeat match goal with |- context [if ?n =? ?tg then _ else _] =>
      destruct (N.eqb_spec n tg) as [Heq|?];
      [exfalso; apply Hnot; rewrite Heq; set_solver |]
    end.
    reflexivity.
  - intros t rest HR Hlen. unfold run_message. rewrite unpack_uint8_cons.
    cbn [error unpacker_of failed].
    pose proof (unpack_slice_short rest Hlen) as Hs. unfold unpacker_of in Hs.
    repeat match goal with |- context [if ?n =? ?tg then _ else _] =>
      destruct (N.eqb_spec n tg)
    end;
    first [ match goal with H : N_of_ascii t = tag "R" |- _ => destruct (HR H) end
          | unfold process_put, process_get, process_phase1a, process_phase1b,
              process_phase2a, process_phase2b, process_learn, unpacker_of;
            rewrite ?Hs; reflexivity ].
Qed.

Lemma run_message_drops_garbage_witness :
  run_message HOSTC (str "garbage") (fresh_daemon HOSTA 5000)
  = Ok (fresh_daemon HOSTA 5000) /\
  run_message HOSTC (str "Pxy") (fresh_daemon HOSTA 5000)
  = Ok (fresh_daemon HOSTA 5000).
Proof.
  destruct (run_message_drops_garbage HOSTC (fresh_daemon HOSTA 5000))
    as (_ & Htag & Hshort).
  split.
  - apply (Htag "g"%char (str "arbage")). apply (bool_decide_unpack _). reflexivity.
  - apply (Hshort "P"%char (str "xy")); [vm_compute; discriminate | vm_compute; lia].
Defined.

(** ** Addresses and the daemon's identity *)

(** X22. [controller::lookup] gives the [i]-th host of [HOSTS] the address
    127.0.0.1 with port [2000 + i], gives any other identifier the empty
    location, and gives no two hosts the same address. *)
Theorem lookup_hosts :
  (forall i h, HOSTS !! i = Some h ->
     lookup h = Some {| address := "127.0.0.1"; port := 2000 + N.of_nat i |}) /\
  (forall id, id ∉ HOSTS -> lookup id = None) /\
  (forall h1 h2 l, lookup h1 = Some l -> lookup h2 = Some l -> h1 = h2).
Proof.
  split; [| split].
  - intros i h. do 5 (destruct i as [|i]; [intros [= <-]; reflexivity |]).
    discriminate.
  - intros id Hid. unfold lookup, HOSTS in *. cbn [lookup_from].
    repeat match goal with |- context [if ?h =? id then _ else _] =>
      destruct (N.eqb_spec h id) as [Heq|?];
      [exfalso; apply Hid; rewrite <- Heq; set_solver |]
    end.
    reflexivity.
  - intros h1 h2 l. unfold lookup, HOSTS. cbn [lookup_from].
    repeat match goal with |- context [if ?h =? ?x then _ else _] =>
      destruct (N.eqb_spec h x)
    end; intros H1 H2; try discriminate; simplify_eq; try done.
Qed.

Lemma lookup_hosts_witness :
  lookup HOSTC = Some {| address := "127.0.0.1"; port := 2000 + N.of_nat 2 |}.
Proof. apply (proj1 lookup_hosts 2%nat HOSTC). reflexivity. Defined.

(** X23. The daemon started with the [i]-th letter of A to E takes the
    [i]-th host of [HOSTS] as its identity and binds to 127.0.0.1, port
    [2000 + i]; started with any other argument it fails its assertion and
    binds nothing. *)
Theorem daemon_identity :
  (forall i (l : string), ["A"; "B"; "C"; "D"; "E"]%string !! i = Some l ->
     main_host l = HOSTS !! i /\
     bind_address l = Some {| address := "127.0.0.1"; port := 2000 + N.of_nat i |}) /\
  (forall arg : string, arg ∉ ["A"; "B"; "C"; "D"; "E"]%string ->
     main_host arg = None /\ bind_address arg = None).
Proof.
  split.
  - intros i l. do 5 (destruct i as [|i]; [intros [= <-]; split; reflexivity |]).
    discriminate.
  - intros arg Harg.
    assert (Hm : main_host arg = None).
    { unfold main_host.
      repeat match goal with |- context [if String.eqb ?l arg then _ else _] =>
        destruct (String.eqb_spec l arg) as [Heq|?];
        [exfalso; apply Harg; rewrite <- Heq; set_solver |]
      end.
      reflexivity. }
    split; [done |]. unfold bind_address. by rewrite Hm.
Qed.

Lemma daemon_identity_witness :
  main_host "D" = HOSTS !! 3%nat /\
  bind_address "D" = Some {| address := "127.0.0.1"; port := 2000 + N.of_nat 3 |}.
Proof. apply (proj1 daemon_identity 3%nat "D"%string). reflexivity. Defined.

(** ** The client *)

Lemma requests_spec n client :
  reqno client < 2 ^ 32 ->
  requests n client =
    (map (fun j => nth (N.to_nat ((reqno client + N.of_nat j) mod 2 ^ 32 mod 5)) HOSTS 0)
         (seq 0 n),
     {| reqno := (reqno client + N.of_nat n) mod 2 ^ 32 |}).
Proof.
  revert client. induction n as [|n IH]; intros client Hr.
  - cbn [requests seq map]. change (N.of_nat 0) with 0.
    rewrite N.add_0_r, N.mod_small by exact Hr. by destruct client.
  - cbn [requests pick_host]. rewrite IH by (cbn; apply N.mod_upper_bound; lia).
    cbn [reqno seq map]. f_equal.
    + f_equal.
      * change (N.of_nat 0) with 0. rewrite N.add_0_r.
        rewrite (N.mod_small (reqno client) (2 ^ 32)) by exact Hr. reflexivity.
      * rewrite <- seq_shift, map_map. apply map_ext. intros j.
        rewrite N.Div0.add_mod_idemp_l. do 4 f_equal. lia.
    + f_equal. rewrite N.Div0.add_mod_idemp_l. f_equal. lia.
Qed.

(** X24. The client picks replicas round-robin on its request counter.
    From a new client the [j]-th request goes to host number
    [(j mod 2^32) mod 5] of [HOSTS]; any five consecutive requests that do
    not wrap the 32-bit counter go to the five hosts, one each; across the
    wrap the order breaks: the request with counter [2^32 - 1] and the next
    both go to the first host. *)
Theorem round_robin :
  (forall n,
     fst (requests n pocdb_create) =
       map (fun j => nth (N.to_nat (N.of_nat j mod 2 ^ 32 mod 5)) HOSTS 0) (seq 0 n) /\
     reqno (snd (requests n pocdb_create)) = N.of_nat n mod 2 ^ 32) /\
  (forall client, reqno client + 5 <= 2 ^ 32 -> fst (requests 5 client) ≡ₚ HOSTS) /\
  (forall client, reqno client = 2 ^ 32 - 1 ->
     fst (requests 2 client) = [HOSTA; HOSTA]).
Proof.
  split; [| split].
  - intros n. rewrite requests_spec by (cbn; lia).
    cbn [fst snd reqno pocdb_create]. split; [| by rewrite N.add_0_l].
    apply map_ext. intros j. by rewrite N.add_0_l.
  - intros client Hr. rewrite requests_spec by lia. cbn [fst seq map].
    rewrite !(N.mod_small (_ + _) (2 ^ 32)) by lia.
    rewrite <- !(N.Div0.add_mod_idemp_l (reqno client)).
    pose proof (N.mod_upper_bound (reqno client) 5 ltac:(lia)) as Hm.
    assert (Hcases : reqno client mod 5 = 0 \/ reqno client mod 5 = 1 \/
                     reqno client mod 5 = 2 \/ reqno client mod 5 = 3 \/
                     reqno client mod 5 = 4).
    { generalize dependent (reqno client mod 5). clear. intros m Hm. lia. }
    destruct Hcases as [-> | [-> | [-> | [-> | ->]]]];
      apply (bool_decide_unpack _); vm_compute; exact I.
  - intros client Hr. rewrite requests_spec by lia. cbn [fst seq map].
    rewrite Hr. reflexivity.
Qed.

Lemma round_robin_witness :
  fst (requests 5 {| reqno := 7 |}) ≡ₚ HOSTS.
Proof. apply (proj1 (proj2 round_robin)). cbn. lia. Defined.

(** X25. A put, from the client to the daemon and back.  What [pocdb_put]
    sends goes to a host of [HOSTS] and the daemon that receives it from [c]
    runs [write(c, val)] on the machine of that key; the return code a
    daemon packs into its reply is the one [pocdb_put] returns; and when the
    send fails, the receive fails, or the reply is empty, [pocdb_put] returns
    [POCDB_SERVER_ERROR]. *)
Theorem client_put_roundtrip client key val :
  is_slice key -> is_slice val ->
  (forall send_ok reply c d,
     let '(_, _, (host, msg)) := pocdb_put client key val send_ok reply in
     host ∈ HOSTS /\
     run_message c msg d =
       (do (sm, d') <- write c val (get_or_create_state key d) d;
        Ok (release_state key sm d'))) /\
  (forall rc,
     fst (fst (pocdb_put client key val true (Some (msg_put_reply rc))))
     = returncode_value rc) /\
  (forall reply, fst (fst (pocdb_put client key val false reply))
                 = returncode_value POCDB_SERVER_ERROR) /\
  fst (fst (pocdb_put client key val true None)) = returncode_value POCDB_SERVER_ERROR /\
  fst (fst (pocdb_put client key val true (Some [])))
  = returncode_value POCDB_SERVER_ERROR.
Proof.
  intros Hk Hv. split; [| split; [| split; [| split]]].
  - intros send_ok reply c d.
    assert (Hhost : fst (pick_host client) ∈ HOSTS).
    { unfold pick_host. cbn [fst]. change (N.of_nat NUM_HOSTS) with 5.
      pose proof (N.mod_upper_bound (reqno client) 5 ltac:(lia)) as Hm.
      assert (Hcases : reqno client mod 5 = 0 \/ reqno client mod 5 = 1 \/
                       reqno client mod 5 = 2 \/ reqno client mod 5 = 3 \/
                       reqno client mod 5 = 4).
      { generalize dependent (reqno client mod 5). clear. intros m Hm. lia. }
      destruct Hcases as [-> | [-> | [-> | [-> | ->]]]];
        apply (bool_decide_unpack _); vm_compute; exact I. }
    assert (Hrun : run_message c (pack_uint8 (tag "P") ++ pack_slice key ++ pack_slice val) d
              = (do (sm, d') <- write c val (get_or_create_state key d) d;
                 Ok (release_state key sm d'))).
    { unfold run_message. rewrite unpack_uint8_pack by (vm_compute; reflexivity).
      cbn [error unpacker_of failed]. change (tag "P" =? tag "P") with true. cbv iota.
      unfold process_put. rewrite <- (app_nil_r (pack_slice val)).
      by rewrite !unpack_slice_pack. }
    unfold pocdb_put. destruct (pick_host client) as [host client'].
    destruct (negb send_ok); [done |]. destruct reply as [m|]; [| done].
    by destruct (unpack_uint8 _).
  - intros rc. unfold pocdb_put. destruct (pick_host client) as [host client'].
    cbn [negb]. by destruct rc.
  - intros reply. unfold pocdb_put. by destruct (pick_host client).
  - unfold pocdb_put. by destruct (pick_host client).
  - unfold pocdb_put. by destruct (pick_host client).
Qed.

Lemma client_put_roundtrip_witness :
  fst (fst (pocdb_put pocdb_create (str "x") (str "1") true
              (Some (msg_put_reply POCDB_SUCCESS))))
  = returncode_value POCDB_SUCCESS.
Proof.
  assert (Hk : is_slice (str "x")) by (unfold is_slice; reflexivity).
  assert (Hv : is_slice (str "1")) by (unfold is_slice; reflexivity).
  apply (proj1 (proj2 (client_put_roundtrip pocdb_create (str "x") (str "1") Hk Hv))).
Defined.

(** X26. A get, from the client to the daemon and back.  What [pocdb_get]
    sends is handled by the daemon's get path for that key.  From the reply
    [(rc, v)] of a daemon, [pocdb_get] returns [rc]; it reports the size of
    [v] only if [rc] is [POCDB_SUCCESS], and then returns [POCDB_SEE_ERRNO]
    instead when [v] is not empty and no buffer could be allocated.  When
    the send or the receive fails it returns [POCDB_SERVER_ERROR]. *)
Theorem client_get_roundtrip client key :
  is_slice key ->
  (forall send_ok reply malloc_ok c d,
     let '(_, _, _, (host, msg)) := pocdb_get client key send_ok reply malloc_ok in
     run_message c msg d = Ok (process_get c (unpacker_of (pack_slice key)) d)) /\
  (forall rc v malloc_ok, is_slice v ->
     fst (fst (pocdb_get client key true (Some (msg_get_reply rc v)) malloc_ok)) =
       if returncode_eqb rc POCDB_SUCCESS
       then if negb malloc_ok && (0 <? length v)%nat
            then (returncode_value POCDB_SEE_ERRNO, Some (length v))
            else (returncode_value POCDB_SUCCESS, Some (length v))
       else (returncode_value rc, None)) /\
  (forall reply malloc_ok,
     fst (fst (pocdb_get client key false reply malloc_ok))
     = (returncode_value POCDB_SERVER_ERROR, None)) /\
  (forall malloc_ok,
     fst (fst (pocdb_get client key true None malloc_ok))
     = (returncode_value POCDB_SERVER_ERROR, None)).
Proof.
  intros Hk. split; [| split; [| split]].
  - intros send_ok reply malloc_ok c d.
    assert (Hrun : run_message c (pack_uint8 (tag "G") ++ pack_slice key) d
              = Ok (process_get c (unpacker_of (pack_slice key)) d)).
    { unfold run_message. rewrite unpack_uint8_pack by (vm_compute; reflexivity).
      cbn [error unpacker_of failed]. change (tag "G" =? tag "P") with false.
      by change (tag "G" =? tag "G") with true. }
    unfold pocdb_get. destruct (pick_host client) as [host client'].
    destruct (negb send_ok); [done |]. destruct reply as [m|]; [| done].
    destruct (unpack_uint8 _) as [rc up]. destruct (unpack_slice up) as [v up'].
    by repeat break_if.
  - intros rc v malloc_ok Hv. unfold pocdb_get, msg_get_reply, pack_returncode.
    destruct (pick_host client) as [host client']. cbn [negb].
    rewrite unpack_uint8_pack by (by destruct rc).
    rewrite <- (app_nil_r (pack_slice v)), unpack_slice_pack by done.
    cbn [error unpacker_of failed]. unfold returncode_eqb.
    destruct rc; cbn [returncode_value N.eqb Pos.eqb negb];
      try reflexivity.
    by destruct (negb malloc_ok && _).
  - intros reply malloc_ok. unfold pocdb_get. by destruct (pick_host client).
  - intros malloc_ok. unfold pocdb_get. by destruct (pick_host client).
Qed.

Lemma client_get_roundtrip_witness :
  fst (fst (pocdb_get pocdb_create (str "x") true
              (Some (msg_get_reply POCDB_NOT_FOUND [])) true))
  = (returncode_value POCDB_NOT_FOUND, None).
Proof.
  assert (Hk : is_slice (str "x")) by (unfold is_slice; reflexivity).
  apply (proj1 (proj2 (client_get_roundtrip pocdb_create (str "x") Hk))
           POCDB_NOT_FOUND [] true).
  unfold is_slice. reflexivity.
Defined.


(** ** The loader *)

Lemma strchr_space_spec s :
  match strchr_space s with
  | Some i => exists k v, s = k ++ (" "%char :: v) /\ length k = i /\
                          (" "%char ∉ k) /\ (zero ∉ k)
  | None => forall k v, s = k ++ (" "%char :: v) -> zero ∈ k
  end.
Proof.
  induction s as [|c s IH]; cbn [strchr_space].
  - intros [|? k] v; discriminate.
  - destruct (Ascii.eqb_spec c " ") as [-> | Hsp].
    { exists [], s. split; [done |]. split; [done |].
      split; by inversion 1. }
    destruct (Ascii.eqb_spec c zero) as [-> | Hz].
    { intros [|c k] v Heq; inversion Heq; subst. by left. }
    destruct (strchr_space s) as [i|]; cbn [fmap option_fmap option_map].
    + destruct IH as (k & v & -> & <- & Hk1 & Hk2). exists (c :: k), v.
      split; [done |]. split; [done |].
      split; inversion 1; by subst.
    + intros [|c' k] v Heq; inversion Heq; subst; [done |].
      right. by apply (IH k v).
Qed.

(** X27. The loader splits a line at its first space.  When it passes a key
    and a value to [pocdb_put] the line is the key, a space, the value, and
    the key holds neither a space nor a NUL (the value may hold both); it
    reports an invalid line exactly when no space comes before the first NUL
    of the line, so also for a line that has a space after a NUL. *)
Theorem load_line_splits s :
  match load_line s with
  | Some (k, v) => s = k ++ (" "%char :: v) /\ (" "%char ∉ k) /\ (zero ∉ k)
  | None => forall k v, s = k ++ (" "%char :: v) -> zero ∈ k
  end.
Proof.
  unfold load_line. pose proof (strchr_space_spec s) as H.
  destruct (strchr_space s) as [i|]; [| exact H].
  destruct H as (k & v & -> & <- & Hk1 & Hk2).
  rewrite take_app_length.
  replace (S (length k)) with (length k + 1)%nat by lia.
  rewrite <- drop_drop, drop_app_length. cbn [drop]. done.
Qed.


(** ** Retry messages and the first decree of a key *)

(** X28. A retry message never reaches the write it is about.  Whatever
    follows the tag ['R'], the handler works on the machine of the empty
    key: on a daemon with no machine under the empty key the message changes
    nothing at all, and on any daemon it leaves the store and the machine of
    every other key as they are. *)
Theorem retry_message_is_lost c body d :
  (writes d !! [] = None ->
   run_message c (pack_uint8 (tag "R") ++ body) d = Ok d) /\
  (forall d', run_message c (pack_uint8 (tag "R") ++ body) d = Ok d' ->
     db d' = db d /\ forall k, k <> [] -> writes d' !! k = writes d !! k).
Proof.
  assert (Hrun : run_message c (pack_uint8 (tag "R") ++ body) d
                 = process_retry c (unpacker_of body) d).
  { unfold run_message. rewrite unpack_uint8_pack by (vm_compute; reflexivity).
    cbn [error unpacker_of failed]. reflexivity. }
  rewrite Hrun. split.
  - intros Hnone. unfold process_retry. cbn [error unpacker_of failed].
    unfold get_or_create_state. rewrite Hnone. cbn [default from_option id].
    unfold retry. cbn. unfold release_state. cbn [finished values].
    rewrite delete_id by done. by destruct d.
  - intros d' H. split; [| intros k Hk; by apply (process_retry_other_keys _ _ _ _ _ H)].
    revert H. unfold process_retry. destruct (error _); [by intros [= <-] |].
    destruct (retry _ d) as [[sm d1]| |] eqn:Hr; cbn [rbind]; try discriminate.
    intros [= <-]. apply (run_op_extends OpRetry) in Hr as [_ (_ & Hd & _)].
    unfold release_state. by cbn [set_writes db].
Qed.

Lemma db_Get_missing k ldb st val ldb' :
  db_Get k ldb = (st, val, ldb') -> data ldb !! k = None -> status_ok st = false.
Proof.
  intros HG Hnone. destruct (status_ok st) eqn:Hok; [| done].
  apply (db_Get_found _ _ _ _ _ HG) in Hok. congruence.
Qed.

(** While nothing is learned for a key, a successful load gives version 0
    with the sentinel ballot, or a version that is not 0. *)
Lemma get_acceptor_state_unlearned k d :
  data (db d) !! (k ++ str "L") = None ->
  exists rc cv cb cp d1,
    get_acceptor_state k d = Ok (rc, (cv, cb, cp), d1) /\
    d1 = set_db (db d1) d /\ data (db d1) = data (db d) /\
    (rc = POCDB_SUCCESS -> (cv = 0 /\ cb = ballot0) \/ cv <> 0).
Proof.
  intros Hnone. unfold get_acceptor_state.
  destruct (db_Get (k ++ str "A") (db d)) as [[st val] ldb] eqn:HG.
  pose proof (db_Get_frame _ _ _ _ _ HG) as (Hdata & _).
  destruct (status_IsNotFound st).
  { do 5 eexists. split; [reflexivity |]. cbn [set_db db]. auto. }
  destruct (negb (status_ok st)).
  { do 5 eexists. split; [reflexivity |]. cbn [set_db db]. split; [done |].
    split; [done | discriminate]. }
  destruct (unpack_uint64 _) as [ver up1]. destruct (unpack_ballot up1) as [b up2].
  destruct (unpack_pvalue up2) as [v up3].
  destruct (error up3).
  { do 5 eexists. split; [reflexivity |]. cbn [set_db db]. split; [done |].
    split; [done | discriminate]. }
  cbn [set_db db].
  destruct (db_Get (k ++ str "L") ldb) as [[st2 val2] ldb2] eqn:HG2.
  pose proof (db_Get_frame _ _ _ _ _ HG2) as (Hdata2 & _).
  rewrite (db_Get_missing _ _ _ _ _ HG2) by (by rewrite Hdata).
  cbn [rbind]. destruct (N.eqb_spec ver 0) as [-> | Hne].
  - do 5 eexists. split; [reflexivity |]. cbn [set_db db]. split; [done |].
    split; [congruence |]. intros _. right. by vm_compute.
  - do 5 eexists. split; [reflexivity |]. cbn [set_db db]. split; [done |].
    split; [congruence |]. intros _. by right.
Qed.

(** X29. Nothing is accepted at version 0 while nothing is learned.  When
    the learned slot of a key is empty, the phase-2a handler, run on a
    message for that key at version 0 with a ballot other than [ballot()],
    never takes its accepting branch, whatever the acceptor slot holds and
    whether the store works or not: it returns with nothing sent (when the
    acceptor state cannot be loaded) or goes on to the retry reply, where
    its behaviour is undefined, and in both cases the store's contents are
    as they were. *)
Theorem version_0_never_accepted c k b v d :
  is_slice k -> is_ballot b -> is_pvalue v -> b <> ballot0 ->
  data (db d) !! (k ++ str "L") = None ->
  exists d' r,
    phase2a_until_reply c
      (unpacker_of (pack_slice k ++ pack_uint64 0 ++ pack_ballot b ++ pack_pvalue v)) d
    = Ok (d', r) /\
    process_phase2a c
      (unpacker_of (pack_slice k ++ pack_uint64 0 ++ pack_ballot b ++ pack_pvalue v)) d
    = after_reply (Ok (d', r)) /\
    (r = None \/ r = Some (tag "R")) /\
    data (db d') = data (db d) /\ writes d' = writes d /\ sent d' = sent d.
Proof.
  intros Hk Hb Hv Hb0 Hnone. rewrite process_phase2a_after_reply.
  destruct (get_acceptor_state_unlearned k d Hnone)
    as (rc & cv & cb & cp & d1 & Hload & Hd1 & Hdata & Hcur).
  assert (Hs1 : sent d1 = sent d) by (by rewrite Hd1).
  assert (Hw1 : writes d1 = writes d) by (by rewrite Hd1).
  unfold phase2a_until_reply. rewrite <- (app_nil_r (pack_pvalue v)).
  rewrite unpack_slice_pack, unpack_uint64_pack, unpack_ballot_pack,
    unpack_pvalue_pack by (done || (unfold is_uint64; reflexivity)).
  cbn [error unpacker_of failed]. rewrite Hload. cbn [rbind].
  destruct (returncode_eqb rc POCDB_SUCCESS) eqn:Hrc; cbn [negb].
  2: { exists d1, None. repeat split; auto. }
  assert (Hno : (0 =? cv) && ballot_eq b cb = false).
  { destruct rc; try discriminate Hrc.
    destruct (Hcur eq_refl) as [[-> ->] | Hne].
    - cbn [N.eqb andb]. destruct (ballot_eq b ballot0) eqn:He; [| done].
      by apply ballot_eq_true in He.
    - destruct (N.eqb_spec 0 cv); [congruence | done]. }
  rewrite Hno. exists d1, (Some (tag "R")). repeat split; auto.
Qed.

Lemma version_0_never_accepted_witness :
  exists d' r,
    phase2a_until_reply HOSTA
      (unpacker_of (pack_slice (str "x") ++ pack_uint64 0 ++ pack_ballot ballotA ++
                    pack_pvalue pvalueA))
      (snd (save_acceptor_state (str "x") 0 ballotA pvalue0 (fresh_daemon HOSTB 0)))
    = Ok (d', r) /\
    process_phase2a HOSTA
      (unpacker_of (pack_slice (str "x") ++ pack_uint64 0 ++ pack_ballot ballotA ++
                    pack_pvalue pvalueA))
      (snd (save_acceptor_state (str "x") 0 ballotA pvalue0 (fresh_daemon HOSTB 0)))
    = after_reply (Ok (d', r)) /\
    (r = None \/ r = Some (tag "R")) /\
    data (db d')
    = data (db (snd (save_acceptor_state (str "x") 0 ballotA pvalue0
                       (fresh_daemon HOSTB 0)))) /\
    writes d'
    = writes (snd (save_acceptor_state (str "x") 0 ballotA pvalue0
                     (fresh_daemon HOSTB 0))) /\
    sent d' = sent (snd (save_acceptor_state (str "x") 0 ballotA pvalue0
                           (fresh_daemon HOSTB 0))).
Proof.
  apply (version_0_never_accepted HOSTA (str "x") ballotA pvalueA).
  - unfold is_slice. reflexivity.
  - split; reflexivity.
  - split; [split |]; reflexivity.
  - discriminate.
  - vm_compute. reflexivity.
Defined.

(** ** Stable storage *)






